(** * SneakerDropBot: ingestion, change detection and alert dispatch

    A shallow embedding of the parts of the repository that decide the
    behaviour of the circuit breaker, the confidence score, the parsing
    chain, the change detector, the alert cooldowns and the alert queue.

    Conventions.
    - A [datetime] is a [Z], the number of microseconds since the epoch
      (the resolution of Python's [datetime]); a [timedelta] is a
      difference of two of them.
    - A Python [float] that is stored, passed on and compared is the
      rational [Q] it holds.  Where the code computes with prices, in the
      price-drop test and in the flip margin, the arithmetic is that of
      IEEE 754 double precision ([Float64]), rounding included.
    - The store keeps a date to the millisecond, and so compares dates
      ([Detector.millis]).
    - A method that mutates [self] takes the state and returns the new
      one; the readings of the clock are passed in. *)

From Stdlib Require Import ZArith QArith Lqa Lia List String Ascii Bool SpecFloat.
From stdpp Require Import base gmap strings list sorting.
Import ListNotations.

(** ** Time *)

Definition datetime := Z.

Definition seconds (n : Z) : Z := (n * 1000000)%Z.
Definition minutes (n : Z) : Z := seconds (n * 60).
Definition hours (n : Z) : Z := minutes (n * 60).

(** ** Circuit breaker and robust request
    ([Sneaker Bot/scrapers/enhanced_base_scraper.py]) *)

Module Breaker.
Local Open Scope Z_scope.

(** [self.health_stats] without the per-method table. *)
Record health_stats := {
  total_requests : Z;
  successful_requests : Z;
  last_successful_scrape : option datetime;
  consecutive_failures : Z
}.

(** The fields of [EnhancedBaseScraper] that the breaker reads and writes. *)
Record scraper := {
  failure_count : Z;
  last_failure_time : option datetime;
  circuit_breaker_threshold : Z;
  circuit_breaker_timeout : Z;
  stats : health_stats
}.

(** [__init__] *)
Definition init : scraper :=
  {| failure_count := 0;
     last_failure_time := None;
     circuit_breaker_threshold := 5;
     circuit_breaker_timeout := 300;
     stats := {| total_requests := 0; successful_requests := 0;
                 last_successful_scrape := None; consecutive_failures := 0 |} |}.

(** [is_circuit_breaker_open]; [now] is the reading of [datetime.now()]. *)
Definition is_circuit_breaker_open (self : scraper) (now : datetime) : bool :=
  if failure_count self <? circuit_breaker_threshold self then false
  else match last_failure_time self with
       | Some t => now - t <? seconds (circuit_breaker_timeout self)
       | None => true
       end.

(** [record_success] *)
Definition record_success (self : scraper) (now : datetime) : scraper :=
  {| failure_count := 0;
     last_failure_time := None;
     circuit_breaker_threshold := circuit_breaker_threshold self;
     circuit_breaker_timeout := circuit_breaker_timeout self;
     stats := {| total_requests := total_requests (stats self);
                 successful_requests := successful_requests (stats self) + 1;
                 last_successful_scrape := Some now;
                 consecutive_failures := 0 |} |}.

(** [record_failure] *)
Definition record_failure (self : scraper) (now : datetime) : scraper :=
  {| failure_count := failure_count self + 1;
     last_failure_time := Some now;
     circuit_breaker_threshold := circuit_breaker_threshold self;
     circuit_breaker_timeout := circuit_breaker_timeout self;
     stats := {| total_requests := total_requests (stats self);
                 successful_requests := successful_requests (stats self);
                 last_successful_scrape := last_successful_scrape (stats self);
                 consecutive_failures := consecutive_failures (stats self) + 1 |} |}.

(** What one [session.get] can do: answer with a status, or raise. *)
Inductive attempt :=
| Status (code : Z)
| TimeoutError
| ClientConnectorError
| OtherException.

(** A response object is identified by the attempt that produced it. *)
Record response := { resp_attempt : nat }.

Record request_result := {
  after : scraper;
  returned : option response;
  fetches : nat
}.

Definition with_total_requests (self : scraper) (n : Z) : scraper :=
  {| failure_count := failure_count self;
     last_failure_time := last_failure_time self;
     circuit_breaker_threshold := circuit_breaker_threshold self;
     circuit_breaker_timeout := circuit_breaker_timeout self;
     stats := {| total_requests := n;
                 successful_requests := successful_requests (stats self);
                 last_successful_scrape := last_successful_scrape (stats self);
                 consecutive_failures := consecutive_failures (stats self) |} |}.

(** [response.status == 200]; an exception has no status. *)
Definition is_200 (a : attempt) : bool :=
  match a with
  | Status code => code =? 200
  | _ => false
  end.

(** The body of [for attempt in range(max_retries)]: [todo] iterations are
    left, [i] is the index of the next one, [net i] is what the network
    does at that attempt and [done] counts the calls of [session.get] made
    so far.  A status of 200 records the success and returns; 429, 403,
    any other status and every exception go on to the next iteration.
    When the loop runs out the failure is recorded once. *)
Fixpoint attempts (self : scraper) (net : nat -> attempt) (t_end : datetime)
    (todo i done : nat) : request_result :=
  match todo with
  | O => {| after := record_failure self t_end; returned := None; fetches := done |}
  | S todo' =>
      if is_200 (net i) then
        {| after := record_success self t_end;
           returned := Some {| resp_attempt := i |};
           fetches := S done |}
      else attempts self net t_end todo' (S i) (S done)
  end.

Definition max_retries : nat := 3.

(** [_make_robust_request]: [t_start] is the clock when the breaker is
    consulted, [t_end] the clock when the outcome is recorded. *)
Definition _make_robust_request (self : scraper) (net : nat -> attempt)
    (t_start t_end : datetime) : request_result :=
  if is_circuit_breaker_open self t_start then
    {| after := self; returned := None; fetches := 0 |}
  else
    attempts (with_total_requests self (total_requests (stats self) + 1))
             net t_end max_retries 0 0.

(** The network fails at every attempt. *)
Definition all_fail (net : nat -> attempt) : Prop :=
  forall i, (i < max_retries)%nat -> is_200 (net i) = false.

(** The network answers 200 at some attempt within the retry cap. *)
Definition some_ok (net : nat -> attempt) : Prop :=
  exists i, (i < max_retries)%nat /\ is_200 (net i) = true.

(** The settings [__init__] gives every scraper. *)
Definition default_settings (s : scraper) : Prop :=
  circuit_breaker_threshold s = 5 /\ circuit_breaker_timeout s = 300.

(** A network that times out at every attempt, and one that answers 200
    at the first. *)
Definition net_down : nat -> attempt := fun _ => TimeoutError.
Definition net_up : nat -> attempt := fun _ => Status 200.

(** A scraper that has just failed for the fifth time in a row, at time 0. *)
Definition tripped : scraper :=
  {| failure_count := 5;
     last_failure_time := Some 0;
     circuit_breaker_threshold := 5;
     circuit_breaker_timeout := 300;
     stats := {| total_requests := 5; successful_requests := 0;
                 last_successful_scrape := None; consecutive_failures := 5 |} |}.

(** [n] requests in a row against a network that is down, one a second
    from time [t] on. *)
Fixpoint fail_requests (self : scraper) (t : datetime) (n : nat) : scraper :=
  match n with
  | O => self
  | S n' =>
      fail_requests (after (_make_robust_request self net_down t t))
                    (t + seconds 1) n'
  end.

End Breaker.

(** ** Python values and text *)

Module Py.

(** The values a parsed JSON document or an extracted record can hold.
    Strings, lists and dicts keep their structure; every other value
    ([None], booleans, numbers) is kept as its truth value and the text
    [str()] gives for it.  A list or dict also carries that text, which
    the code only ever reads through [str()]. *)
#[warnings="-register-all"]
Inductive pyval :=
| PStr (s : string)
| PList (items : list pyval) (repr : string)
| PDict (items : gmap string pyval) (repr : string)
| POther (truthy : bool) (repr : string).

Definition PNone : pyval := POther false "None".

(** [bool(v)] *)
Definition truthy (v : pyval) : bool :=
  match v with
  | PStr s => negb (String.eqb s "")
  | PList items _ => negb (bool_decide (items = []))
  | PDict items _ => negb (bool_decide (items = ∅))
  | POther b _ => b
  end.

(** [str(v)] *)
Definition py_str (v : pyval) : string :=
  match v with
  | PStr s => s
  | PList _ r => r
  | PDict _ r => r
  | POther _ r => r
  end.

(** [v == text] for a text; a value that is not a string equals none. *)
Definition str_is (v : pyval) (text : string) : bool :=
  match v with
  | PStr s => String.eqb s text
  | _ => false
  end.

(** [a or b] *)
Definition py_or (a b : pyval) : pyval := if truthy a then a else b.

(** [key in d] *)
Definition has_key (d : gmap string pyval) (key : string) : bool :=
  bool_decide (is_Some (d !! key)).

(** [d.get(key, default)]; [d.get(key)] is [get_or d key PNone]. *)
Definition get_or (d : gmap string pyval) (key : string) (default : pyval) : pyval :=
  match d !! key with
  | Some v => v
  | None => default
  end.

(** Text is ASCII: a character is a byte. *)
Definition chars (s : string) : list ascii := list_ascii_of_string s.

Definition is_digit (c : ascii) : bool :=
  (48 <=? nat_of_ascii c)%nat && (nat_of_ascii c <=? 57)%nat.

(** [str.isspace] on ASCII: tab to carriage return, the four separators
    28 to 31, and the space. *)
Definition is_space (c : ascii) : bool :=
  let n := nat_of_ascii c in
  ((9 <=? n)%nat && (n <=? 13)%nat) || ((28 <=? n)%nat && (n <=? 32)%nat).

Fixpoint lstrip (l : list ascii) : list ascii :=
  match l with
  | c :: l' => if is_space c then lstrip l' else l
  | [] => []
  end.

(** [s.strip()] *)
Definition strip (l : list ascii) : list ascii :=
  rev (lstrip (rev (lstrip l))).

(** [s.startswith(p)] *)
Fixpoint starts_with (p s : list ascii) : bool :=
  match p, s with
  | [], _ => true
  | a :: p', b :: s' => Ascii.eqb a b && starts_with p' s'
  | _ :: _, [] => false
  end.

Definition contains (c : ascii) (l : list ascii) : bool :=
  existsb (Ascii.eqb c) l.

(** [s.replace(c, "")] and [s.replace(c, d)] for one-character texts *)
Definition remove_char (c : ascii) (l : list ascii) : list ascii :=
  List.filter (fun x => negb (Ascii.eqb c x)) l.

Definition replace_char (c d : ascii) (l : list ascii) : list ascii :=
  List.map (fun x => if Ascii.eqb c x then d else x) l.

(** [s.rindex(c)] when [c] occurs in [s]; positions count from 0. *)
Fixpoint rindex_from (c : ascii) (l : list ascii) (i best : nat) : nat :=
  match l with
  | [] => best
  | x :: l' => rindex_from c l' (S i) (if Ascii.eqb c x then i else best)
  end.

Definition rindex (c : ascii) (l : list ascii) : nat := rindex_from c l 0 0.

Fixpoint take_digits (l : list ascii) : list ascii :=
  match l with
  | c :: l' => if is_digit c then c :: take_digits l' else []
  | [] => []
  end.

Fixpoint drop_digits (l : list ascii) : list ascii :=
  match l with
  | c :: l' => if is_digit c then drop_digits l' else l
  | [] => []
  end.

Fixpoint drop_non_digits (l : list ascii) : list ascii :=
  match l with
  | c :: l' => if is_digit c then l else drop_non_digits l'
  | [] => []
  end.

(** Whether a text holds a decimal digit. *)
Definition has_digit (l : list ascii) : bool := existsb is_digit l.

(** The value of a run of decimal digits. *)
Definition digits_value (l : list ascii) : Z :=
  fold_left (fun acc c => (acc * 10 + (Z.of_nat (nat_of_ascii c) - 48))%Z) l 0%Z.

(** The number written as the digits [ip], a point and the digits [fp]. *)
Definition decimal (ip fp : list ascii) : Q :=
  let k := Z.of_nat (length fp) in
  Qmake (digits_value ip * 10 ^ k + digits_value fp) (Z.to_pos (10 ^ k)).

(** [float(text)] for a text of digits and points, the only texts
    [_extract_price] hands to it: digits with at most one point and at
    least one digit; anything else is a [ValueError], here [None]. *)
Definition parse_float (l : list ascii) : option Q :=
  let ip := take_digits l in
  match drop_digits l with
  | [] => if bool_decide (ip = []) then None else Some (decimal ip [])
  | c :: rest =>
      if Ascii.eqb c "." then
        let fp := take_digits rest in
        match drop_digits rest with
        | [] => if bool_decide (ip = []) && bool_decide (fp = []) then None
                else Some (decimal ip fp)
        | _ :: _ => None
        end
      else None
  end.

(** The first match of [\d+\.?\d*], as a number. *)
Definition first_number (l : list ascii) : option Q :=
  match drop_non_digits l with
  | [] => None
  | l' =>
      let ip := take_digits l' in
      match drop_digits l' with
      | c :: rest => if Ascii.eqb c "." then Some (decimal ip (take_digits rest))
                     else Some (decimal ip [])
      | [] => Some (decimal ip [])
      end
  end.

End Py.

(** ** Validation and the parsing chain
    ([Sneaker Bot/scrapers/enhanced_base_scraper.py]) *)

Module Parsing.
Import Py.
Local Open Scope Q_scope.

Inductive ScrapingMethod :=
| OFFICIAL_API | JSON_LD | SCRIPT_JSON | HTML_STRUCTURED | HTML_FALLBACK.

(** What the [error] field of a failed result says. *)
Inductive error_text :=
| NoValidJsonLd
| NoValidScriptJson
| LowConfidence (score : Q)
| Raised.

Record ScrapingResult := {
  success : bool;
  method : ScrapingMethod;
  data : option (gmap string pyval);
  error : option error_text;
  confidence : Q
}.

Record ProductValidation := {
  is_valid : bool;
  missing_fields : list string;
  invalid_fields : list string;
  confidence_score : Q
}.

Definition required_fields : list string := ["name"; "price"; "url"]%string.
Definition important_fields : list string := ["brand"; "model"; "sku"; "image"]%string.

(** [_extract_price] *)
Definition _extract_price (price_text : string) : option Q :=
  if String.eqb price_text "" then None
  else
    let t := List.filter (fun c => is_digit c || Ascii.eqb c "." || Ascii.eqb c ",")
                         (strip (chars price_text)) in
    let t :=
      if contains "," t && contains "." t then
        if (rindex "." t <? rindex "," t)%nat
        then replace_char "," "." (remove_char "." t)
        else remove_char "," t
      else if contains "," t then
        if (length t - rindex "," t - 1 =? 2)%nat
        then replace_char "," "." t
        else remove_char "," t
      else t in
    match parse_float t with
    | Some q => Some q
    | None => first_number t
    end.

(** [not price or price <= 0 or price > 10000] *)
Definition price_rejected (price : option Q) : bool :=
  match price with
  | None => true
  | Some q => Qeq_bool q 0 || Qle_bool q 0 || negb (Qle_bool q 10000)
  end.

(** [field not in data or not data[field]] *)
Definition is_missing (data : gmap string pyval) (field : string) : bool :=
  match data !! field with
  | Some v => negb (truthy v)
  | None => true
  end.

(** The check of the name: [None] stands for the [AttributeError] raised
    by [.strip()] on a value that is not a string. *)
Definition name_check (data : gmap string pyval) : option (list string) :=
  if has_key data "name" || has_key data "title" then
    match py_or (get_or data "name" PNone) (get_or data "title" (PStr "")) with
    | PStr name =>
        if (length (strip (chars name)) <? 3)%nat then Some ["name"%string] else Some []
    | _ => None
    end
  else Some [].

(** The check of the URL: [None] when [.startswith] is not there. *)
Definition url_check (data : gmap string pyval) : option (list string) :=
  match data !! "url"%string with
  | Some (PStr url) =>
      if starts_with (chars "http://") (chars url)
         || starts_with (chars "https://") (chars url)
      then Some [] else Some ["url"%string]
  | Some _ => None
  | None => Some []
  end.

(** The check of the price; whatever is raised inside is caught. *)
Definition price_check (data : gmap string pyval) : list string :=
  match data !! "price"%string with
  | Some v => if price_rejected (_extract_price (py_str v)) then ["price"%string] else []
  | None => []
  end.

Definition count_of (n : nat) : Q := inject_Z (Z.of_nat n).

(** [max(0, x)] *)
Definition max0 (x : Q) : Q := if Qle_bool x 0 then 0 else x.

(** The score computed from the three counts. *)
Definition score_of (valid_required valid_important invalid : nat) : Q :=
  let total_possible_fields := (length required_fields + length important_fields)%nat in
  let invalid_penalty := count_of invalid * (2 # 10) in
  max0 ((count_of valid_required * (7 # 10) + count_of valid_important * (3 # 10))
        / count_of total_possible_fields - invalid_penalty).

(** [_validate_product_data]; [None] when it raises. *)
Definition _validate_product_data (data : gmap string pyval) : option ProductValidation :=
  let missing := List.filter (is_missing data) required_fields in
  let invalid_price := price_check data in
  match name_check data, url_check data with
  | Some invalid_name, Some invalid_url =>
      let invalid := invalid_price ++ invalid_name ++ invalid_url in
      let valid_required := (length required_fields - length missing)%nat in
      let valid_important :=
        length (List.filter (fun f => negb (is_missing data f)) important_fields) in
      Some {| is_valid := bool_decide (missing = []) && bool_decide (invalid = []);
              missing_fields := missing;
              invalid_fields := invalid;
              confidence_score := score_of valid_required valid_important (length invalid) |}
  | _, _ => None
  end.

(** What [json.loads] makes of a text. *)
Inductive json_text :=
| Undecodable
| Decoded (v : pyval).

Definition failure (m : ScrapingMethod) (e : error_text) : ScrapingResult :=
  {| success := false; method := m; data := None; error := Some e; confidence := 0 |}.

(** *** JSON-LD *)

(** The loop over [items] of one script: [Some r] when the function
    returns [r] from inside it, [None] when the loop ends.  An item that
    is not a dict has no [.get], and a validation that raises leaves
    through the outer handler. *)
Fixpoint scan_items (items : list pyval) : option ScrapingResult :=
  match items with
  | [] => None
  | item :: rest =>
      match item with
      | PDict fields _ =>
          let ty := get_or fields "@type" PNone in
          if str_is ty "Product" || str_is ty "ProductModel" then
            match _validate_product_data fields with
            | None => Some (failure JSON_LD Raised)
            | Some validated =>
                if is_valid validated then
                  Some {| success := true; method := JSON_LD; data := Some fields;
                          error := None; confidence := confidence_score validated |}
                else scan_items rest
            end
          else scan_items rest
      | _ => Some (failure JSON_LD Raised)
      end
  end.

(** [_try_json_ld_parsing]: a script is [None] when it has no text. *)
Fixpoint _try_json_ld_parsing (json_ld_scripts : list (option json_text)) : ScrapingResult :=
  match json_ld_scripts with
  | [] => failure JSON_LD NoValidJsonLd
  | None :: rest => _try_json_ld_parsing rest
  | Some Undecodable :: rest => _try_json_ld_parsing rest
  | Some (Decoded v) :: rest =>
      let items := match v with PList l _ => l | _ => [v] end in
      match scan_items items with
      | Some r => r
      | None => _try_json_ld_parsing rest
      end
  end.

(** *** JSON in script tags *)

Definition paths : list (list string) :=
  [ ["product"]; ["productDetails"]; ["data"; "product"];
    ["props"; "pageProps"; "product"]; ["initialState"; "product"];
    ["product"; "current"] ]%string.

(** The inner [for key in path]: [None] when it breaks. *)
Fixpoint navigate (path : list string) (current : pyval) : option pyval :=
  match path with
  | [] => Some current
  | key :: path' =>
      match current with
      | PDict fields _ =>
          match fields !! key with
          | Some v => navigate path' v
          | None => None
          end
      | _ => None
      end
  end.

Fixpoint first_product (ps : list (list string)) (data : pyval)
    : option (gmap string pyval) :=
  match ps with
  | [] => None
  | path :: ps' =>
      match navigate path data with
      | Some (PDict fields _) =>
          if existsb (has_key fields) required_fields then Some fields
          else first_product ps' data
      | _ => first_product ps' data
      end
  end.

(** [_extract_product_from_json] *)
Definition _extract_product_from_json (data : pyval) : option (gmap string pyval) :=
  first_product paths data.

(** The loop over the patterns for one script.  An entry is [None] when
    the pattern does not match the text of the script. *)
Fixpoint scan_patterns (found : list (option json_text)) : option ScrapingResult :=
  match found with
  | [] => None
  | Some (Decoded v) :: rest =>
      match _extract_product_from_json v with
      | Some product_data =>
          if bool_decide (product_data = ∅) then scan_patterns rest
          else
            match _validate_product_data product_data with
            | None => Some (failure SCRIPT_JSON Raised)
            | Some validated =>
                if Qlt_le_dec (5 # 10) (confidence_score validated) then
                  Some {| success := true; method := SCRIPT_JSON;
                          data := Some product_data; error := None;
                          confidence := confidence_score validated |}
                else scan_patterns rest
            end
      | None => scan_patterns rest
      end
  | _ :: rest => scan_patterns rest
  end.

(** [_try_script_json_parsing]: a script is [None] when it has no text,
    and otherwise lists, pattern by pattern, what was found in it. *)
Fixpoint _try_script_json_parsing (scripts : list (option (list (option json_text))))
    : ScrapingResult :=
  match scripts with
  | [] => failure SCRIPT_JSON NoValidScriptJson
  | None :: rest => _try_script_json_parsing rest
  | Some found :: rest =>
      match scan_patterns found with
      | Some r => r
      | None => _try_script_json_parsing rest
      end
  end.

(** *** Structured HTML *)

(** For each field, the text of the first selector that yields one. *)
Record selected := {
  sel_title : option string;
  sel_price : option string;
  sel_image : option string;
  sel_sku : option string
}.

Definition put_found (key : string) (found : option string)
    (d : gmap string pyval) : gmap string pyval :=
  match found with
  | Some value => <[key := PStr value]> d
  | None => d
  end.

Definition factor (found : option string) : Q :=
  match found with Some _ => 1 | None => 0 end.

Definition Qmin' (a b : Q) : Q := if Qle_bool a b then a else b.

(** [_try_structured_html_parsing] *)
Definition _try_structured_html_parsing (sel : selected) (url : string) : ScrapingResult :=
  let extracted_data :=
    put_found "sku" (sel_sku sel)
      (put_found "image" (sel_image sel)
        (put_found "price" (sel_price sel)
          (put_found "title" (sel_title sel) {[ "url"%string := PStr url ]}))) in
  let confidence :=
    (factor (sel_title sel) + factor (sel_price sel)
     + factor (sel_image sel) + factor (sel_sku sel)) / 4 in
  match _validate_product_data extracted_data with
  | None => failure HTML_STRUCTURED Raised
  | Some validated =>
      if Qlt_le_dec (3 # 10) (confidence_score validated) then
        {| success := true; method := HTML_STRUCTURED; data := Some extracted_data;
           error := None; confidence := Qmin' confidence (confidence_score validated) |}
      else failure HTML_STRUCTURED (LowConfidence (confidence_score validated))
  end.

(** *** Fallback *)

(** What the last resort finds in the text of the page: the first price
    between 10 and 2000, given as the text [str()] prints for it, the
    first heading of more than five characters, and the first image whose
    address names a product. *)
Record scraped := {
  fb_price : option string;
  fb_title : option string;
  fb_image : option string
}.

(** [_try_fallback_html_parsing] *)
Definition _try_fallback_html_parsing (fb : scraped) (url : string) : ScrapingResult :=
  let with_price :=
    match fb_price fb with
    | Some repr => <["price"%string := POther true repr]> {[ "url"%string := PStr url ]}
    | None => {[ "url"%string := PStr url ]}
    end in
  let extracted_data :=
    put_found "image" (fb_image fb) (put_found "title" (fb_title fb) with_price) in
  match _validate_product_data extracted_data with
  | None => failure HTML_FALLBACK Raised
  | Some validated =>
      {| success := if Qlt_le_dec (1 # 10) (confidence_score validated) then true else false;
         method := HTML_FALLBACK; data := Some extracted_data;
         error := None; confidence := confidence_score validated |}
  end.

(** *** The chain *)

(** What the HTML parser and the regular expressions hand to the four
    strategies. *)
Record page := {
  json_ld_scripts : list (option json_text);
  scripts : list (option (list (option json_text)));
  by_selector : selected;
  by_text : scraped
}.

(** [_try_multiple_parsing_methods] *)
Definition _try_multiple_parsing_methods (html_content : page) (url : string)
    : ScrapingResult :=
  let result := _try_json_ld_parsing (json_ld_scripts html_content) in
  if success result then result else
  let result := _try_script_json_parsing (scripts html_content) in
  if success result then result else
  let result := _try_structured_html_parsing (by_selector html_content) url in
  if success result then result else
  _try_fallback_html_parsing (by_text html_content) url.

(** A page with nothing in it. *)
Definition blank_page : page :=
  {| json_ld_scripts := []; scripts := [];
     by_selector := {| sel_title := None; sel_price := None;
                       sel_image := None; sel_sku := None |};
     by_text := {| fb_price := None; fb_title := None; fb_image := None |} |}.

(** A record with every required and important field, all of them sound. *)
Definition complete_record : gmap string pyval :=
  <["name"%string := PStr "Air Jordan 1 Retro"]>
  (<["price"%string := PStr "$170.00"]>
  (<["url"%string := PStr "https://www.nike.com/t/air-jordan-1"]>
  (<["brand"%string := PStr "Nike"]>
  (<["model"%string := PStr "Air Jordan 1"]>
  (<["sku"%string := PStr "555088-101"]>
  (<["image"%string := PStr "https://static.nike.com/aj1.png"]> ∅)))))).

(** The unsound fields found by the checks of the name and of the URL,
    none when one of them raises. *)
Definition invalid_fields_of_name_url (data : gmap string pyval) : list string :=
  match name_check data, url_check data with
  | Some invalid_name, Some invalid_url => invalid_name ++ invalid_url
  | _, _ => []
  end.

(** The score as the specification words it: 0.7/3 for each required
    field that is present and sound, 0.3/4 for each important field that
    is present, 0.2 off for each unsound field, kept within 0 and 1. *)
Definition unsound_per_spec (data : gmap string pyval) (field : string) : bool :=
  match data !! field with
  | Some v =>
      if String.eqb field "price" then
        match _extract_price (py_str v) with
        | Some q => negb (Qle_bool (1 # 100) q && Qle_bool q 10000)
        | None => true
        end
      else if String.eqb field "url" then
        negb (starts_with (chars "http://") (chars (py_str v))
              || starts_with (chars "https://") (chars (py_str v)))
      else if String.eqb field "name" then (length (chars (py_str v)) <? 3)%nat
      else false
  | None => false
  end.

Definition clamp01 (x : Q) : Q :=
  if Qle_bool x 0 then 0 else if Qle_bool 1 x then 1 else x.

Definition confidence_per_spec (data : gmap string pyval) : Q :=
  let sound_required :=
    List.filter (fun f => negb (is_missing data f) && negb (unsound_per_spec data f))
                required_fields in
  let present_important :=
    List.filter (fun f => negb (is_missing data f)) important_fields in
  let unsound := List.filter (unsound_per_spec data) required_fields in
  clamp01 (count_of (length sound_required) * ((7 # 10) / 3)
           + count_of (length present_important) * ((3 # 10) / 4)
           - count_of (length unsound) * (2 # 10)).

End Parsing.

(** ** Extraction ([Sneaker Bot/scrapers/enhanced_nike_scraper.py]) *)

Module Extraction.
Import Breaker Py Parsing.

Section Connector.

(** The products of the retailer and the conversion of a parsed record
    into them, [None] when the conversion raises. *)
Variable product : Type.
Variable _convert_to_nike_products :
  gmap string pyval -> ScrapingMethod -> option (list product).

(** [_try_nike_web_search]: [body] is what [response.text()] gives,
    [None] when it raises; every exception ends in the empty list. *)
Definition _try_nike_web_search (self : scraper) (net : nat -> attempt)
    (t_start t_end : datetime) (body : option page) (search_url : string)
    : scraper * list product :=
  let r := _make_robust_request self net t_start t_end in
  match returned r, body with
  | Some _, Some html_content =>
      let result := _try_multiple_parsing_methods html_content search_url in
      match data result with
      | Some d =>
          if success result && negb (bool_decide (d = ∅)) then
            match _convert_to_nike_products d (method result) with
            | Some products => (after r, products)
            | None => (after r, [])
            end
          else (after r, [])
      | None => (after r, [])
      end
  | _, _ => (after r, [])
  end.

End Connector.

End Extraction.

(** ** Double-precision numbers

    Python's [float] is the IEEE 754 binary64 format.  Its numbers and
    its operations, each rounded to the nearest number with ties to
    even, are those of [SpecFloat], at 53 bits of precision. *)

Module Float64.
Local Open Scope Z_scope.

Definition prec : Z := 53.
Definition emax : Z := 1024.

Definition float := spec_float.

(** The float that holds a number: the double nearest to it, as
    [float(text)] gives it for a decimal; the number itself when it is a
    double. *)
Definition of_Q (q : Q) : float :=
  match Qnum q with
  | Z0 => S754_zero false
  | Z.pos n => SFdiv prec emax (S754_finite false n 0) (S754_finite false (Qden q) 0)
  | Z.neg n => SFdiv prec emax (S754_finite true n 0) (S754_finite false (Qden q) 0)
  end.

(** An [int] taken as a float. *)
Definition of_nat (n : nat) : float := of_Q (inject_Z (Z.of_nat n)).

Definition add : float -> float -> float := SFadd prec emax.
Definition sub : float -> float -> float := SFsub prec emax.
Definition mul : float -> float -> float := SFmul prec emax.
Definition div : float -> float -> float := SFdiv prec emax.

(** [x / y] in Python, which raises [ZeroDivisionError] when [y] is
    zero; the other operations raise nothing, they overflow to an
    infinity. *)
Definition py_div (x y : float) : option float :=
  match y with
  | S754_zero _ => None
  | _ => Some (div x y)
  end.

(** [x < y] and [x <= y]; both are false of a NaN. *)
Definition ltb : float -> float -> bool := SFltb.
Definition leb : float -> float -> bool := SFleb.

(** [0 < x] *)
Definition positive (x : float) : bool := ltb (S754_zero false) x.

(** The literal [0.95]. *)
Definition c095 : float := S754_finite false 8556839292003942 (-53).

End Float64.

(** ** Change detection
    ([Latest Code/scrapers/scraper_manager.py],
     [Latest Code/database/connection.py], [Latest Code/database/models.py]) *)

Module Detector.
Local Open Scope Z_scope.

Inductive Retailer :=
| NIKE | ADIDAS | FOOTLOCKER | FINISH_LINE | STOCKX | GOAT | STADIUM_GOODS.

#[global] Instance Retailer_eq_dec : EqDecision Retailer.
Proof. solve_decision. Defined.

(** The fields of [SneakerProduct] that the store is queried on and that
    the detector reads.  A document of the [products] collection has the
    same fields, [upsert_product] writing the whole product. *)
Record SneakerProduct := {
  name : string;
  sku : string;
  retailer : Retailer;
  price : option Q;
  is_in_stock : bool;
  last_checked : datetime
}.

(** The [products] collection, in its natural order. *)
Definition products := list SneakerProduct.

(** The key of a document: [{"sku": ..., "retailer": ...}]. *)
Definition key (d : SneakerProduct) : string * Retailer := (sku d, retailer d).

Definition same_key (p d : SneakerProduct) : bool := bool_decide (key d = key p).

(** [find_one(filter)]: the first document that passes the filter. *)
Definition find_one (filter : SneakerProduct -> bool) (db : products)
    : option SneakerProduct :=
  List.find filter db.

(** [find_one_and_update(filter, {"$set": doc}, upsert=True)] on the key
    of [doc]: the first document of that key is overwritten, and when
    there is none the document is added. *)
Fixpoint find_one_and_update (db : products) (doc : SneakerProduct) : products :=
  match db with
  | [] => [doc]
  | d :: rest =>
      if same_key doc d then doc :: rest else d :: find_one_and_update rest doc
  end.

Definition checked_at (product : SneakerProduct) (now : datetime) : SneakerProduct :=
  {| name := name product; sku := sku product; retailer := retailer product;
     price := price product; is_in_stock := is_in_stock product;
     last_checked := now |}.

(** [upsert_product]; [now] is [datetime.utcnow()]. *)
Definition upsert_product (db : products) (now : datetime) (product : SneakerProduct)
    : products * SneakerProduct :=
  let product := checked_at product now in
  (find_one_and_update db product, product).

(** A price counts when it is there and not zero: [if price]. *)
Definition priced (p : option Q) : option Q :=
  match p with
  | Some q => if Qeq_bool q 0 then None else Some q
  | None => None
  end.

(** A date as the store holds it and as a query compares it: BSON dates
    count the whole milliseconds since the epoch, what is left of a
    millisecond is dropped, on writing a document and on sending the
    bound of a query. *)
Definition millis (t : datetime) : Z := t / 1000.

(** [{"last_checked": {"$lt": bound}}] *)
Definition checked_before (bound : datetime) (d : SneakerProduct) : bool :=
  millis (last_checked d) <? millis bound.

(** [_is_restock]; [now] is [datetime.utcnow()]. *)
Definition _is_restock (db : products) (now : datetime) (product : SneakerProduct) : bool :=
  if negb (is_in_stock product) then false
  else
    match find_one (fun d => same_key product d
                             && checked_before (now - minutes 30) d) db with
    | Some previous_product => negb (is_in_stock previous_product)
    | None => false
    end.

(** [product.price < previous_price * 0.95], on doubles: the product is
    rounded before it is compared. *)
Definition below_95_percent (price' previous_price : Q) : bool :=
  Float64.ltb (Float64.of_Q price')
              (Float64.mul (Float64.of_Q previous_price) (Float64.of_Q (95 # 100))).

(** [_is_price_drop] *)
Definition _is_price_drop (db : products) (now : datetime) (product : SneakerProduct) : bool :=
  match priced (price product) with
  | None => false
  | Some new_price =>
      match find_one (fun d => same_key product d
                               && (bool_decide (is_Some (price d))
                                   && checked_before (now - hours 1) d)) db with
      | Some previous_product =>
          match priced (price previous_product) with
          | Some previous_price => below_95_percent new_price previous_price
          | None => false
          end
      | None => false
      end
  end.

(** [ResellData], the fields read here. *)
Record ResellData := {
  sneaker_name : string;
  resell_price : Q;
  created_at : datetime
}.

Definition newer_first (a b : ResellData) : Prop := created_at b <= created_at a.

#[global] Instance newer_first_dec a b : Decision (newer_first a b).
Proof. unfold newer_first. apply _. Defined.

Section Resell.

(** [regex_search pattern text]: the case-insensitive search of the
    database for [pattern] in [text]. *)
Variable regex_search : string -> string -> bool.

(** [get_resell_data] *)
Definition get_resell_data (coll : list ResellData) (sneaker_name' : string)
    (limit : nat) : list ResellData :=
  take limit
    (merge_sort newer_first
       (List.filter (fun r => regex_search sneaker_name' (sneaker_name r)) coll)).

End Resell.

(** The dict [_calculate_flip_opportunity] returns; its numbers are
    floats. *)
Record flip_data := {
  retail_price : Float64.float;
  avg_resell_price : Float64.float;
  margin : Float64.float;
  margin_percentage : Float64.float;
  sample_size : nat
}.

(** [sum(item.price for item in resell_data)]: the prices are added one
    after the other, from 0, each sum rounded (the sum of CPython up to
    3.11; from 3.12 on it also carries the rounding errors along). *)
Definition total_price (resell_data : list ResellData) : Float64.float :=
  fold_left (fun acc item => Float64.add acc (Float64.of_Q (resell_price item)))
            resell_data (S754_zero false).

(** The numbers of [_calculate_flip_opportunity] for a retail price and
    the samples, each operation rounded as the code makes it; [None] when
    a division raises. *)
Definition flip_numbers (resell_data : list ResellData) (retail : Q) : option flip_data :=
  let retail_price' := Float64.of_Q retail in
  match Float64.py_div (total_price resell_data)
                       (Float64.of_nat (length resell_data)) with
  | None => None
  | Some avg =>
      let margin' := Float64.sub avg retail_price' in
      match Float64.py_div margin' retail_price' with
      | None => None
      | Some ratio =>
          Some {| retail_price := retail_price'; avg_resell_price := avg;
                  margin := margin';
                  margin_percentage := Float64.mul ratio (Float64.of_Q 100);
                  sample_size := length resell_data |}
      end
  end.

(** [x >= 25] *)
Definition at_least_25 (x : Float64.float) : bool := Float64.leb (Float64.of_Q 25) x.

(** [_calculate_flip_opportunity], given what [get_resell_data] returned.
    An exception is caught and logged, and [None] is returned. *)
Definition _calculate_flip_opportunity (resell_data : list ResellData)
    (product : SneakerProduct) : option flip_data :=
  match priced (price product) with
  | None => None
  | Some p =>
      if negb (is_in_stock product) then None
      else if bool_decide (resell_data = []) then None
      else
        match flip_numbers resell_data p with
        | Some d => if at_least_25 (margin_percentage d) then Some d else None
        | None => None
        end
  end.

(** The test of [_check_tracked_sneaker]:
    [flip_data and flip_data["margin_percentage"] >= 25]. *)
Definition flip_fires (resell_data : list ResellData) (product : SneakerProduct) : bool :=
  match _calculate_flip_opportunity resell_data product with
  | Some d => at_least_25 (margin_percentage d)
  | None => false
  end.

(** The keys of a store that only [upsert_product] writes are distinct. *)
Definition unique_keys (db : products) : Prop := List.NoDup (List.map key db).

(** *** The events as the specification words them *)

(** Restock: a prior snapshot of the same key, out of stock, captured at
    least 30 minutes earlier, and the new one in stock. *)
Definition restock_per_spec (db : products) (now : datetime) (p : SneakerProduct) : Prop :=
  is_in_stock p = true /\
  exists prev, In prev db /\ key prev = key p /\ is_in_stock prev = false /\
               last_checked prev <= now - minutes 30.

(** Price drop: both have a price, at least an hour apart, and the new
    price is at most 0.95 of the prior one. *)
Definition price_drop_per_spec (db : products) (now : datetime) (p : SneakerProduct) : Prop :=
  exists prev pn pp, In prev db /\ key prev = key p /\
    price p = Some pn /\ price prev = Some pp /\
    last_checked prev <= now - hours 1 /\ (pn <= pp * (95 # 100))%Q.

(** Flip: at least 3 samples and a margin of at least 25 percent, in
    exact arithmetic. *)
Definition flip_per_spec (resell_data : list ResellData) (p : SneakerProduct) : Prop :=
  (3 <= length resell_data)%nat /\
  exists pn, price p = Some pn /\
    (25 <= (fold_right Qplus 0 (List.map resell_price resell_data)
            / inject_Z (Z.of_nat (length resell_data)) - pn)
           / pn * 100)%Q.

(** *** Sample data *)

Definition shoe (in_stock : bool) (q : Q) (t : datetime) : SneakerProduct :=
  {| name := "Dunk Low Panda"; sku := "DD1391-100"; retailer := NIKE;
     price := Some q; is_in_stock := in_stock; last_checked := t |}.

Definition sale (q : Q) (t : datetime) : ResellData :=
  {| sneaker_name := "Dunk Low Panda"; resell_price := q; created_at := t |}.

End Detector.

(** ** Traces of timed events *)

Module Trace.
Local Open Scope Z_scope.

Section Spaced.
Context {A : Type} (same : A -> A -> Prop) (time : A -> datetime).

(** In a list of events, the latest first, any two events that are the
    same in the sense of [same] are at least [gap] apart. *)
Fixpoint spaced (gap : Z) (l : list A) : Prop :=
  match l with
  | [] => True
  | b :: older =>
      (forall a, In a older -> same a b -> gap <= time b - time a)
      /\ spaced gap older
  end.

End Spaced.

End Trace.

(** ** Health alerts ([Latest Code/scrapers/scraper_health_monitor.py]) *)

Module Health.
Local Open Scope Z_scope.

Inductive HealthStatus := HEALTHY | WARNING | CRITICAL | DOWN.

(** The fields of [ScraperHealthMetrics] that [_check_for_alerts] reads. *)
Record ScraperHealthMetrics := {
  retailer : string;
  status : HealthStatus;
  error_patterns : list string
}.

Record HealthAlert := {
  alert_retailer : string;
  alert_type : string;
  severity : HealthStatus;
  timestamp : datetime
}.

(** [ScraperHealthMonitor]: the cooldown, the time of the last alert per
    retailer, and the alerts handed to [_send_alert] so far, the latest
    first. *)
Record monitor := {
  alert_cooldown : Z;
  last_alerts : gmap string datetime;
  sent : list HealthAlert
}.

(** [__init__] *)
Definition init : monitor :=
  {| alert_cooldown := 300; last_alerts := ∅; sent := [] |}.

(** [pattern in metrics.error_patterns] *)
Definition has_pattern (pattern : string) (metrics : ScraperHealthMetrics) : bool :=
  existsb (String.eqb pattern) (error_patterns metrics).

(** [metrics.status in [HealthStatus.CRITICAL, HealthStatus.DOWN]] *)
Definition is_severe (s : HealthStatus) : bool :=
  match s with
  | CRITICAL | DOWN => true
  | _ => false
  end.

(** The list [alerts_to_send] that [_check_for_alerts] builds. *)
Definition alerts_to_send (metrics : ScraperHealthMetrics) (now : datetime)
    : list HealthAlert :=
  (if is_severe (status metrics) then
     [{| alert_retailer := retailer metrics; alert_type := "status_critical";
         severity := status metrics; timestamp := now |}]
   else [])
  ++ (if has_pattern "site_changes" metrics then
        [{| alert_retailer := retailer metrics; alert_type := "site_changes";
            severity := WARNING; timestamp := now |}]
      else [])
  ++ (if has_pattern "rate_limiting" metrics then
        [{| alert_retailer := retailer metrics; alert_type := "rate_limiting";
            severity := WARNING; timestamp := now |}]
      else []).

(** The test that opens [_check_for_alerts]. *)
Definition in_cooldown (self : monitor) (retailer' : string) (now : datetime) : bool :=
  match last_alerts self !! retailer' with
  | Some last_alert => now - last_alert <? seconds (alert_cooldown self)
  | None => false
  end.

(** [_check_for_alerts]; [now] is [datetime.now()].  Each alert of the
    list is sent and the time of the last alert of the retailer is set;
    with an empty list nothing is written. *)
Definition _check_for_alerts (self : monitor) (metrics : ScraperHealthMetrics)
    (now : datetime) : monitor :=
  if in_cooldown self (retailer metrics) now then self
  else
    match alerts_to_send metrics now with
    | [] => self
    | alerts =>
        {| alert_cooldown := alert_cooldown self;
           last_alerts := <[retailer metrics := now]> (last_alerts self);
           sent := rev alerts ++ sent self |}
    end.

(** A series of checks, each with the reading of the clock. *)
Fixpoint checks (self : monitor) (runs : list (ScraperHealthMetrics * datetime))
    : monitor :=
  match runs with
  | [] => self
  | (metrics, now) :: rest => checks (_check_for_alerts self metrics now) rest
  end.

(** Two alerts of the same source and type. *)
Definition same_alert (a b : HealthAlert) : Prop :=
  alert_retailer a = alert_retailer b /\ alert_type a = alert_type b.

(** Invariants of the monitor: every alert sent for a retailer is no
    later than the time recorded as the last alert of that retailer, and
    alerts of one source and type keep a gap between them. *)
Definition covered (m : monitor) : Prop :=
  forall a, In a (sent m) ->
    exists t, last_alerts m !! alert_retailer a = Some t /\ timestamp a <= t.

Definition spaced (gap : Z) (l : list HealthAlert) : Prop :=
  Trace.spaced same_alert timestamp gap l.

(** A source in critical state. *)
Definition nike_critical : ScraperHealthMetrics :=
  {| retailer := "nike"; status := CRITICAL; error_patterns := [] |}.

End Health.

(** ** Alert sender ([Sneaker Bot/bot/alert_sender.py]) *)

Module Sender.
Local Open Scope Z_scope.

Inductive AlertType :=
| RESTOCK | PRICE_DROP | RESELL_DEAL | FLIP_OPPORTUNITY | EARLY_ACCESS.

#[global] Instance AlertType_eq_dec : EqDecision AlertType.
Proof. solve_decision. Defined.

(** The fields of [AlertHistory] that identify an alert and date it. *)
Record AlertHistory := {
  user_id : Z;
  sneaker_name : string;
  alert_type : AlertType;
  created_at : datetime
}.

(** The key an alert is logged under. *)
Definition under_key (user : Z) (name : string) (kind : AlertType)
    (a : AlertHistory) : bool :=
  bool_decide (user_id a = user) && bool_decide (sneaker_name a = name)
  && bool_decide (alert_type a = kind).

Definition same_key (a b : AlertHistory) : Prop :=
  user_id a = user_id b /\ sneaker_name a = sneaker_name b
  /\ alert_type a = alert_type b.

(** Modelled from the spec: [db_manager.add_alert_history] and
    [db_manager.get_last_alert_for_sneaker], of a database module that is
    not among the sources ([AppendAlertHistory] and [GetAlertHistory] of
    the persistence interface).  The history is the list of the alerts
    logged, the latest first; the last alert for a sneaker is the latest
    one logged under the key. *)
Definition add_alert_history (history : list AlertHistory) (alert : AlertHistory)
    : list AlertHistory :=
  alert :: history.

Definition get_last_alert_for_sneaker (history : list AlertHistory)
    (user : Z) (name : string) (kind : AlertType) : option AlertHistory :=
  List.find (under_key user name kind) history.

(** [AlertSender]: the cooldown of [__init__] and the history behind
    [db_manager]. *)
Record sender := {
  alert_cooldown : Z;
  history : list AlertHistory
}.

(** [__init__] *)
Definition init : sender := {| alert_cooldown := 300; history := [] |}.

(** [_is_in_cooldown]; [now] is [datetime.utcnow()].  [lookup_ok] says
    whether [db_manager.get_last_alert_for_sneaker] returns; when it
    raises, the error is logged and the answer is [False]. *)
Definition _is_in_cooldown (self : sender) (lookup_ok : bool) (now : datetime)
    (user : Z) (name : string) (kind : AlertType) : bool :=
  if lookup_ok then
    match get_last_alert_for_sneaker (history self) user name kind with
    | None => false
    | Some last_alert => now - created_at last_alert <? seconds (alert_cooldown self)
    end
  else false.

(** [_log_alert]; [now] is [datetime.utcnow()].  [log_ok] says whether
    [db_manager.add_alert_history] returns; when it raises, the error is
    logged, nothing is written and [_log_alert] returns all the same. *)
Definition _log_alert (self : sender) (log_ok : bool) (now : datetime)
    (user : Z) (name : string) (kind : AlertType) : sender :=
  if log_ok then
    {| alert_cooldown := alert_cooldown self;
       history := add_alert_history (history self)
                    {| user_id := user; sneaker_name := name;
                       alert_type := kind; created_at := now |} |}
  else self.

(** What the world decides for one user of the loop: whether the user is
    premium, what [_can_send_alert] answers, whether the lookup of the
    last alert returns or raises, whether [bot.send_message] returns or
    raises, whether the write of the alert to the history returns or
    raises, and the clock at the cooldown check and at the log. *)
Record recipient := {
  user : Z;
  is_premium : bool;
  can_send : bool;
  lookup_ok : bool;
  delivered : bool;
  log_ok : bool;
  t_check : datetime;
  t_log : datetime
}.

(** One turn of the loop over [users], shared by [send_restock_alert],
    [send_price_drop_alert] and [send_resell_deal_alert]; [premium_only]
    is set for the last of them.  The result says whether the alert went
    out. *)
Definition send_to (premium_only : bool) (kind : AlertType) (name : string)
    (self : sender) (r : recipient) : sender * bool :=
  if premium_only && negb (is_premium r) then (self, false)
  else if negb (can_send r) then (self, false)
  else if _is_in_cooldown self (lookup_ok r) (t_check r) (user r) name kind
       then (self, false)
  else if negb (delivered r) then (self, false)
  else (_log_alert self (log_ok r) (t_log r) (user r) name kind, true).

Fixpoint send_loop (premium_only : bool) (kind : AlertType) (name : string)
    (self : sender) (users : list recipient) (sent_count : nat) : sender * nat :=
  match users with
  | [] => (self, sent_count)
  | r :: rest =>
      let '(self', went) := send_to premium_only kind name self r in
      send_loop premium_only kind name self' rest
                (if went then S sent_count else sent_count)
  end.

(** [send_restock_alert], [send_price_drop_alert], [send_resell_deal_alert] *)
Definition send_restock_alert (self : sender) (name : string) (users : list recipient) :=
  send_loop false RESTOCK name self users 0.

Definition send_price_drop_alert (self : sender) (name : string) (users : list recipient) :=
  send_loop false PRICE_DROP name self users 0.

Definition send_resell_deal_alert (self : sender) (name : string) (users : list recipient) :=
  send_loop true RESELL_DEAL name self users 0.

(** A call of one of the three. *)
Inductive call :=
| Restock (name : string) (users : list recipient)
| PriceDrop (name : string) (users : list recipient)
| ResellDeal (name : string) (users : list recipient).

Definition users_of (c : call) : list recipient :=
  match c with
  | Restock _ users | PriceDrop _ users | ResellDeal _ users => users
  end.

Definition do_call (self : sender) (c : call) : sender :=
  match c with
  | Restock name users => (send_restock_alert self name users).1
  | PriceDrop name users => (send_price_drop_alert self name users).1
  | ResellDeal name users => (send_resell_deal_alert self name users).1
  end.

Definition calls (self : sender) (cs : list call) : sender :=
  fold_left do_call cs self.

(** The clock does not run backwards between the check and the log. *)
Definition clock_ok (r : recipient) : Prop := t_check r <= t_log r.

(** The clock does not run backwards and the lookup of the last alert
    returns. *)
Definition check_ok (r : recipient) : Prop := clock_ok r /\ lookup_ok r = true.

Definition spaced (gap : Z) (l : list AlertHistory) : Prop :=
  Trace.spaced same_key created_at gap l.

(** A restock alert for user 42 logged at [t]. *)
Definition logged (t : datetime) : AlertHistory :=
  {| user_id := 42; sneaker_name := "Dunk Low Panda";
     alert_type := RESTOCK; created_at := t |}.

(** A free user who can be sent an alert, checked and logged at [t]. *)
Definition reader (t : datetime) : recipient :=
  {| user := 42; is_premium := false; can_send := true; lookup_ok := true;
     delivered := true; log_ok := true; t_check := t; t_log := t |}.

(** The same user at a time when the lookup of the last alert raises. *)
Definition unchecked_reader (t : datetime) : recipient :=
  {| user := 42; is_premium := false; can_send := true; lookup_ok := false;
     delivered := true; log_ok := true; t_check := t; t_log := t |}.

(** The same user at a time when the write to the history raises. *)
Definition unlogged_reader (t : datetime) : recipient :=
  {| user := 42; is_premium := false; can_send := true; lookup_ok := true;
     delivered := true; log_ok := false; t_check := t; t_log := t |}.

End Sender.

(** ** Alert queue and dispatch ([Latest Code/app/monitoring_engine.py]) *)

Module Engine.
Local Open Scope Z_scope.

(** [asyncio.Queue(maxsize)], as the library documents it: with
    [maxsize <= 0] the queue is never full; otherwise it is full when it
    holds [maxsize] items, and [put] waits while it is full. *)
Record Queue (A : Type) := {
  maxsize : Z;
  items : list A
}.
Arguments maxsize {A}.
Arguments items {A}.

Definition full {A} (q : Queue A) : bool :=
  (0 <? maxsize q) && (maxsize q <=? Z.of_nat (length (items q))).

(** [put]: [None] when the producer has to wait. *)
Definition put {A} (q : Queue A) (x : A) : option (Queue A) :=
  if full q then None
  else Some {| maxsize := maxsize q; items := items q ++ [x] |}.

(** [get]: [None] when the consumer has to wait. *)
Definition get {A} (q : Queue A) : option (A * Queue A) :=
  match items q with
  | [] => None
  | x :: rest => Some (x, {| maxsize := maxsize q; items := rest |})
  end.

(** The dict an alert travels in: its type, its user and its product. *)
Record alert_data := {
  type : string;
  user_telegram_id : Z;
  product_name : string
}.

(** [MonitoringEngine]: the queue, the alerts handed to [_send_alert] in
    the order they were taken, and the alerts given to the bot with the
    time they went out. *)
Record engine := {
  alert_queue : Queue alert_data;
  taken : list alert_data;
  dispatched : list (alert_data * datetime)
}.

(** [__init__]: [asyncio.Queue()], whose [maxsize] is 0. *)
Definition init : engine :=
  {| alert_queue := {| maxsize := 0; items := [] |}; taken := []; dispatched := [] |}.

(** [_send_alert]: the user is looked up and asked [can_send_alert];
    then the message goes to the bot; an exception is logged. *)
Definition _send_alert (out : list (alert_data * datetime)) (a : alert_data)
    (user_can_receive went_out : bool) (now : datetime)
    : list (alert_data * datetime) :=
  if negb user_can_receive then out
  else if went_out then out ++ [(a, now)]
  else out.

(** What happens to the engine: [monitor_sneakers] or [add_manual_alert]
    puts alerts on the queue, one after the other; the worker of
    [process_alerts] takes one alert and sends it. *)
Inductive event :=
| Produce (alerts : list alert_data)
| Consume (user_can_receive went_out : bool) (now : datetime).

(** [for alert_data in alerts: await self.alert_queue.put(alert_data)] *)
Fixpoint put_all {A} (q : Queue A) (l : list A) : option (Queue A) :=
  match l with
  | [] => Some q
  | x :: rest =>
      match put q x with
      | Some q' => put_all q' rest
      | None => None
      end
  end.

(** One event; [None] when a producer has to wait.  A worker that finds
    the queue empty waits, and nothing changes. *)
Definition step (e : engine) (ev : event) : option engine :=
  match ev with
  | Produce alerts =>
      match put_all (alert_queue e) alerts with
      | Some q => Some {| alert_queue := q; taken := taken e; dispatched := dispatched e |}
      | None => None
      end
  | Consume user_can_receive went_out now =>
      match get (alert_queue e) with
      | Some (a, q) =>
          Some {| alert_queue := q; taken := taken e ++ [a];
                  dispatched := _send_alert (dispatched e) a user_can_receive went_out now |}
      | None => Some e
      end
  end.

Fixpoint run (e : engine) (evs : list event) : option engine :=
  match evs with
  | [] => Some e
  | ev :: rest =>
      match step e ev with
      | Some e' => run e' rest
      | None => None
      end
  end.

(** The alerts put on the queue by a series of events, in order. *)
Fixpoint produced (evs : list event) : list alert_data :=
  match evs with
  | [] => []
  | Produce alerts :: rest => alerts ++ produced rest
  | Consume _ _ _ :: rest => produced rest
  end.

(** The queue as the specification words it: some finite capacity bounds
    what the queue of the engine can hold. *)
Definition bounded_per_spec : Prop :=
  exists capacity : nat, forall evs e,
    run init evs = Some e -> (length (items (alert_queue e)) <= capacity)%nat.

Definition restock_for (user' : Z) : alert_data :=
  {| type := "restock"; user_telegram_id := user'; product_name := "Dunk Low Panda" |}.

End Engine.

(** ** Health check and classification
    ([Sneaker Bot/scrapers/enhanced_base_scraper.py],
     [Latest Code/scrapers/scraper_health_monitor.py]) *)

Module Classifier.
Import Breaker.
Local Open Scope Z_scope.

(** A series of requests, each with what the network does and the two
    readings of the clock. *)
Fixpoint requests (self : scraper)
    (rs : list ((nat -> attempt) * datetime * datetime)) : scraper :=
  match rs with
  | [] => self
  | (net, t_start, t_end) :: rest =>
      requests (after (_make_robust_request self net t_start t_end)) rest
  end.

(** The dict [health_check] of the enhanced scraper returns, without the
    name of the retailer and the per-method table. *)
Record health_report := {
  connectivity : bool;
  success_rate : Q;
  report_total_requests : Z;
  report_successful_requests : Z;
  report_consecutive_failures : Z;
  circuit_breaker_open : bool;
  recently_successful : bool
}.

(** [health_check]: the request goes out at [t_start] and is recorded at
    [t_end]; [t_recent] and [t_open] are the clock read afterwards, for
    the last success and for the breaker. *)
Definition health_check (self : scraper) (net : nat -> attempt)
    (t_start t_end t_recent t_open : datetime) : scraper * health_report :=
  let r := _make_robust_request self net t_start t_end in
  let self := after r in
  let total := total_requests (stats self) in
  let successful := successful_requests (stats self) in
  (self,
   {| connectivity := bool_decide (is_Some (returned r));
      success_rate := if 0 <? total then (inject_Z successful / inject_Z total)%Q else 0%Q;
      report_total_requests := total;
      report_successful_requests := successful;
      report_consecutive_failures := consecutive_failures (stats self);
      circuit_breaker_open := is_circuit_breaker_open self t_open;
      recently_successful :=
        match last_successful_scrape (stats self) with
        | Some last_success => t_recent - last_success <? hours 1
        | None => false
        end |}).

(** The dict [_analyze_health_data] reads with [.get]: a key that is not
    there is [None]. *)
Record health_data := {
  hd_success_rate : option Q;
  hd_total_requests : option Z;
  hd_successful_requests : option Z;
  hd_consecutive_failures : option Z;
  hd_last_successful_scrape : option datetime;
  hd_circuit_breaker_open : option bool;
  hd_response_time_avg : option Q;
  hd_connectivity : option bool;
  hd_recent_errors : option (list string)
}.

(** The keys the report of [health_check] has, and those it has not. *)
Definition as_health_data (r : health_report) : health_data :=
  {| hd_success_rate := Some (success_rate r);
     hd_total_requests := Some (report_total_requests r);
     hd_successful_requests := Some (report_successful_requests r);
     hd_consecutive_failures := Some (report_consecutive_failures r);
     hd_last_successful_scrape := None;
     hd_circuit_breaker_open := Some (circuit_breaker_open r);
     hd_response_time_avg := None;
     hd_connectivity := Some (connectivity r);
     hd_recent_errors := None |}.

(** The issues [_analyze_health_data] words, with the figure each one
    quotes. *)
Inductive issue :=
| NoConnectivity
| BreakerOpen
| RateCriticallyLow (rate : Q)
| RateLow (rate : Q)
| TooManyFailures (n : Z)
| MultipleFailures (n : Z)
| Stale (since : Z)
| NoSuccessRecorded
| VerySlow (t : Q)
| Slow (t : Q).

(** [s.lower()] on ASCII. *)
Definition lower_char (c : ascii) : ascii :=
  let n := nat_of_ascii c in
  if (65 <=? n)%nat && (n <=? 90)%nat then ascii_of_nat (n + 32) else c.

Definition lower (l : list ascii) : list ascii := List.map lower_char l.

(** [needle in hay] *)
Fixpoint substring (needle hay : list ascii) : bool :=
  Py.starts_with needle hay ||
  match hay with
  | [] => false
  | _ :: hay' => substring needle hay'
  end.

(** The table of [_extract_error_patterns], in the order it is written. *)
Definition patterns : list (string * list string) :=
  [ ("rate_limiting", ["429"; "rate limit"; "too many requests"]);
    ("blocking", ["403"; "forbidden"; "blocked"; "captcha"]);
    ("site_changes", ["not found"; "404"; "element not found"; "selector"]);
    ("network", ["timeout"; "connection"; "network"; "dns"]);
    ("parsing", ["json"; "parse"; "decode"; "invalid"]) ]%string.

(** [any(keyword in error_lower for keyword in keywords)] *)
Definition mentions (keywords : list string) (error : string) : bool :=
  existsb (fun keyword => substring (Py.chars keyword) (lower (Py.chars error))) keywords.

(** [_extract_error_patterns].  The code returns [list(set(...))], whose
    order is not fixed; the names are listed here in the order of the
    table. *)
Definition _extract_error_patterns (recent_errors : list string) : list string :=
  List.map fst
    (List.filter (fun p => existsb (mentions (snd p)) recent_errors) patterns).

Definition worsen_to_warning (s : Health.HealthStatus) : Health.HealthStatus :=
  match s with
  | Health.HEALTHY => Health.WARNING
  | _ => s
  end.

Record analysis := {
  a_status : Health.HealthStatus;
  a_issues : list issue;
  a_error_patterns : list string
}.

(** [_analyze_health_data]; [now] is [datetime.now()]. *)
Definition _analyze_health_data (d : health_data) (now : datetime) : analysis :=
  let success_rate := default 0%Q (hd_success_rate d) in
  let total_requests := default 0 (hd_total_requests d) in
  let consecutive_failures := default 0 (hd_consecutive_failures d) in
  let circuit_breaker_open := default false (hd_circuit_breaker_open d) in
  let response_time_avg := default 0%Q (hd_response_time_avg d) in
  (* connectivity, breaker, success rate *)
  let '(status, issues) :=
    if negb (default false (hd_connectivity d)) then (Health.DOWN, [NoConnectivity])
    else if circuit_breaker_open then (Health.CRITICAL, [BreakerOpen])
    else if Qlt_le_dec success_rate (5 # 10)
         then (Health.CRITICAL, [RateCriticallyLow success_rate])
    else if Qlt_le_dec success_rate (7 # 10)
         then (Health.WARNING, [RateLow success_rate])
    else (Health.HEALTHY, []) in
  (* consecutive failures *)
  let '(status, issues) :=
    if 10 <=? consecutive_failures
    then (Health.CRITICAL, issues ++ [TooManyFailures consecutive_failures])
    else if 5 <=? consecutive_failures
    then (worsen_to_warning status, issues ++ [MultipleFailures consecutive_failures])
    else (status, issues) in
  (* stale data *)
  let '(status, issues) :=
    match hd_last_successful_scrape d with
    | Some last =>
        if hours 2 <? now - last
        then (worsen_to_warning status, issues ++ [Stale (now - last)])
        else (status, issues)
    | None =>
        if 0 <? total_requests then (Health.CRITICAL, issues ++ [NoSuccessRecorded])
        else (status, issues)
    end in
  (* response times *)
  let '(status, issues) :=
    if Qlt_le_dec (10 # 1) response_time_avg
    then (worsen_to_warning status, issues ++ [VerySlow response_time_avg])
    else if Qlt_le_dec (5 # 1) response_time_avg
    then (worsen_to_warning status, issues ++ [Slow response_time_avg])
    else (status, issues) in
  {| a_status := status; a_issues := issues;
     a_error_patterns := _extract_error_patterns (default [] (hd_recent_errors d)) |}.

(** The invariants of a scraper that only requests have touched. *)
Definition sound (s : scraper) : Prop :=
  0 <= failure_count s /\
  consecutive_failures (stats s) = failure_count s /\
  0 <= successful_requests (stats s) /\
  successful_requests (stats s) + failure_count s <= total_requests (stats s) /\
  (failure_count s = 0 <-> last_failure_time s = None) /\
  default_settings s.

End Classifier.

(** ** The product store with its index
    ([Latest Code/database/connection.py],
     [Latest Code/scrapers/scraper_manager.py]) *)

Module Store.
Import Detector.
Local Open Scope Z_scope.

(** [upsert_product] on a collection that carries the unique index on
    [sku] that [_create_indexes] sets up.  A product whose key is stored
    overwrites that document; a product of a new key is inserted, unless
    its [sku] is already stored, under another retailer, in which case
    the database raises [DuplicateKeyError], here [None]. *)
Definition upsert_product_indexed (db : products) (now : datetime)
    (product : SneakerProduct) : option (products * SneakerProduct) :=
  let product := checked_at product now in
  if existsb (same_key product) db then
    Some (find_one_and_update db product, product)
  else if existsb (fun d => String.eqb (sku d) (sku product)) db then None
  else Some (find_one_and_update db product, product).

(** The loop of [_search_retailer] over the products found, each written
    at its own reading of the clock; [None] when a write raises.  The
    store keeps what was written before. *)
Fixpoint store_all (db : products) (found : list (SneakerProduct * datetime))
    : products * option (list SneakerProduct) :=
  match found with
  | [] => (db, Some [])
  | (product, now) :: rest =>
      match upsert_product_indexed db now product with
      | Some (db', product') =>
          let '(db'', written) := store_all db' rest in
          (db'', option_map (cons product') written)
      | None => (db, None)
      end
  end.

(** [_search_retailer]: [found] is what [search_products] returned, or
    [None] when it raised; any exception ends in the empty list. *)
Definition _search_retailer (db : products)
    (found : option (list (SneakerProduct * datetime)))
    : products * list SneakerProduct :=
  match found with
  | None => (db, [])
  | Some l =>
      match store_all db l with
      | (db', Some products) => (db', products)
      | (db', None) => (db', [])
      end
  end.

(** The index holds: no two documents share a [sku]. *)
Definition distinct_skus (db : products) : Prop := List.NoDup (List.map sku db).

(** The search of the database for a pattern that has no special
    character, whatever the case: the text contains the pattern. *)
Definition plain_search (pattern text : string) : bool :=
  Classifier.substring (Classifier.lower (Py.chars pattern))
                       (Classifier.lower (Py.chars text)).

(** A product as [upsert_product] leaves it after the write at [now]. *)
Definition stamped (w : SneakerProduct * datetime) : SneakerProduct :=
  checked_at w.1 w.2.

(** The writes that reach the store during [search_all_retailers], one
    [upsert_product] after the other, in the order they arrive from the
    retailer tasks. *)
Definition write_all (db : products) (writes : list (SneakerProduct * datetime))
    : products :=
  fold_left (fun db w => (upsert_product db w.2 w.1).1) writes db.

End Store.

(** ** Tracked sneakers and the products that match them
    ([Latest Code/scrapers/scraper_manager.py],
     [Latest Code/database/models.py]) *)

Module Tracking.
Local Open Scope Z_scope.

(** [SneakerSize], the fields read here. *)
Record SneakerSize := {
  us_size : option Q;
  is_all_sizes : bool
}.

(** [TrackedSneaker], the fields read here. *)
Record TrackedSneaker := {
  user_telegram_id : Z;
  keyword : string;
  sizes : list SneakerSize;
  max_price : option Q;
  is_active : bool
}.

(** A [SneakerProduct] with the sizes on offer, which the checks of the
    detector do not read. *)
Record SneakerProduct := {
  details : Detector.SneakerProduct;
  sizes_available : list SneakerSize
}.

Definition name (product : SneakerProduct) : string := Detector.name (details product).

Definition price (product : SneakerProduct) : option Q := Detector.price (details product).

(** [s.split()]: the runs of characters between white space; [word] is
    the run being read, its last character first. *)
Fixpoint split_from (word l : list ascii) : list (list ascii) :=
  match l with
  | [] =>
      match word with
      | [] => []
      | _ => [rev word]
      end
  | c :: l' =>
      if Py.is_space c then
        match word with
        | [] => split_from [] l'
        | _ => rev word :: split_from [] l'
        end
      else split_from (c :: word) l'
  end.

Definition split (l : list ascii) : list (list ascii) := split_from [] l.

(** [tracked_sneaker.keyword.lower().split()] *)
Definition keyword_words (tracked_sneaker : TrackedSneaker) : list (list ascii) :=
  split (Classifier.lower (Py.chars (keyword tracked_sneaker))).

(** [all(word in product_name for word in keyword_words)] *)
Definition name_matches (tracked_sneaker : TrackedSneaker) (product : SneakerProduct)
    : bool :=
  let product_name := Classifier.lower (Py.chars (name product)) in
  forallb (fun word => Classifier.substring word product_name)
          (keyword_words tracked_sneaker).

(** [tracked_size.us_size == available_size.us_size], of two optional
    numbers: [None] equals [None] only. *)
Definition same_size (a b : option Q) : bool :=
  match a, b with
  | None, None => true
  | Some x, Some y => Qeq_bool x y
  | _, _ => false
  end.

(** The loop over [tracked_sneaker.sizes] that sets [size_match], with
    its inner loop over [product.sizes_available]. *)
Fixpoint size_match (sizes' available : list SneakerSize) : bool :=
  match sizes' with
  | [] => false
  | tracked_size :: rest =>
      if is_all_sizes tracked_size then true
      else if existsb (fun available_size =>
                         same_size (us_size tracked_size) (us_size available_size))
                      available then true
      else size_match rest available
  end.

(** [tracked_sneaker.max_price and product.price] and
    [product.price > tracked_sneaker.max_price] *)
Definition over_price_limit (tracked_sneaker : TrackedSneaker) (product : SneakerProduct)
    : bool :=
  match Detector.priced (max_price tracked_sneaker), Detector.priced (price product) with
  | Some limit, Some p => if Qlt_le_dec limit p then true else false
  | _, _ => false
  end.

(** [_find_matching_products] *)
Fixpoint _find_matching_products (tracked_sneaker : TrackedSneaker)
    (products : list SneakerProduct) : list SneakerProduct :=
  match products with
  | [] => []
  | product :: rest =>
      let matching := _find_matching_products tracked_sneaker rest in
      if negb (name_matches tracked_sneaker product) then matching
      else if match sizes tracked_sneaker with
              | [] => false
              | _ => negb (size_match (sizes tracked_sneaker) (sizes_available product))
              end then matching
      else if over_price_limit tracked_sneaker product then matching
      else product :: matching
  end.

(** [s.lower()] of a string. *)
Definition lower_string (s : string) : string :=
  string_of_list_ascii (Classifier.lower (Py.chars s)).

(** One turn of the loop of [_get_grouped_tracked_sneakers]. *)
Definition add_to_group (grouped : gmap string (list TrackedSneaker))
    (sneaker : TrackedSneaker) : gmap string (list TrackedSneaker) :=
  let keyword' := lower_string (keyword sneaker) in
  <[keyword' := default [] (grouped !! keyword') ++ [sneaker]]> grouped.

(** [_get_grouped_tracked_sneakers], from the documents of the
    collection in the order of the cursor. *)
Definition _get_grouped_tracked_sneakers (tracked_sneakers : list TrackedSneaker)
    : gmap string (list TrackedSneaker) :=
  fold_left add_to_group (List.filter is_active tracked_sneakers) ∅.

(** A tracked sneaker and a product on offer. *)
Definition panda_tracker : TrackedSneaker :=
  {| user_telegram_id := 42; keyword := "Dunk  PANDA";
     sizes := [{| us_size := Some (21 # 2); is_all_sizes := false |}];
     max_price := Some 120%Q; is_active := true |}.

Definition panda_offer : SneakerProduct :=
  {| details := Detector.shoe true 110 0;
     sizes_available := [{| us_size := Some 9%Q; is_all_sizes := false |};
                         {| us_size := Some (21 # 2); is_all_sizes := false |}] |}.

End Tracking.

(** ** Users and the monthly quota of alerts
    ([Latest Code/database/models.py], [Latest Code/database/connection.py],
     [Latest Code/app/monitoring_engine.py]) *)

Module Quota.
Local Open Scope Z_scope.

Inductive UserTier := FREE | PREMIUM.

(** [User], the fields the quota reads. *)
Record User := {
  telegram_id : Z;
  tier : UserTier;
  subscription_expires_at : option datetime;
  alerts_sent_this_month : Z;
  alerts_reset_date : datetime;
  tracked_sneakers : list Z
}.

(** [is_premium]; [now] is [datetime.utcnow()]. *)
Definition is_premium (self : User) (now : datetime) : bool :=
  match tier self with
  | PREMIUM =>
      match subscription_expires_at self with
      | None => true
      | Some expires => now <? expires
      end
  | FREE => false
  end.

(** [can_send_alert]; [now] is the clock [is_premium] reads and
    [current_month] is [datetime.utcnow().replace(day=1)], the first day
    of the month at the time of day of the reading.  The user comes back
    as the method leaves it. *)
Definition can_send_alert (self : User) (now current_month : datetime)
    (max_free_alerts : Z) : User * bool :=
  if is_premium self now then (self, true)
  else
    let self :=
      if alerts_reset_date self <? current_month then
        {| telegram_id := telegram_id self; tier := tier self;
           subscription_expires_at := subscription_expires_at self;
           alerts_sent_this_month := 0;
           alerts_reset_date := current_month;
           tracked_sneakers := tracked_sneakers self |}
      else self in
    (self, alerts_sent_this_month self <? max_free_alerts).

(** [can_track_more_sneakers] *)
Definition can_track_more_sneakers (self : User) (now : datetime)
    (max_free_tracked : Z) : bool :=
  if is_premium self now then true
  else Z.of_nat (length (tracked_sneakers self)) <? max_free_tracked.

(** The [users] collection, with its unique index on [telegram_id], and
    the [alerts] collection. *)
Record store := {
  users : gmap Z User;
  alerts : list Engine.alert_data
}.

(** [get_user] *)
Definition get_user (db : store) (telegram_id' : Z) : option User :=
  users db !! telegram_id'.

(** [create_user]; [current_month] is the default of [alerts_reset_date],
    [datetime.utcnow().replace(day=1)].  On a duplicate key the stored
    user is returned. *)
Definition create_user (db : store) (telegram_id' : Z) (current_month : datetime)
    : store * option User :=
  match get_user db telegram_id' with
  | Some user => (db, Some user)
  | None =>
      let user := {| telegram_id := telegram_id'; tier := FREE;
                     subscription_expires_at := None;
                     alerts_sent_this_month := 0;
                     alerts_reset_date := current_month;
                     tracked_sneakers := [] |} in
      ({| users := <[telegram_id' := user]> (users db); alerts := alerts db |},
       Some user)
  end.

(** [{"$inc": {"alerts_sent_this_month": 1}}] *)
Definition count_alert (user : User) : User :=
  {| telegram_id := telegram_id user; tier := tier user;
     subscription_expires_at := subscription_expires_at user;
     alerts_sent_this_month := alerts_sent_this_month user + 1;
     alerts_reset_date := alerts_reset_date user;
     tracked_sneakers := tracked_sneakers user |}.

(** [create_alert] *)
Definition create_alert (db : store) (alert : Engine.alert_data) : store :=
  {| users := alter count_alert (Engine.user_telegram_id alert) (users db);
     alerts := alerts db ++ [alert] |}.

(** [upgrade_user_to_premium], through [update_user]; [now] is
    [datetime.utcnow()].  The answer says whether a user was there. *)
Definition upgrade_user_to_premium (db : store) (telegram_id' : Z) (months : Z)
    (now : datetime) : store * bool :=
  let expires_at := now + hours 24 * (30 * months) in
  ({| users := alter (fun user =>
                 {| telegram_id := telegram_id user; tier := PREMIUM;
                    subscription_expires_at := Some expires_at;
                    alerts_sent_this_month := alerts_sent_this_month user;
                    alerts_reset_date := alerts_reset_date user;
                    tracked_sneakers := tracked_sneakers user |})
                 telegram_id' (users db);
      alerts := alerts db |},
   bool_decide (is_Some (get_user db telegram_id'))).

(** [AlertType(alert_data["type"])] raises on any other type. *)
Definition is_alert_type (type' : string) : bool :=
  String.eqb type' "restock" || String.eqb type' "price_drop"
  || String.eqb type' "flip_opportunity".

(** What the world decides when an alert is taken from the queue: the
    two readings of the clock for [can_send_alert] and whether the
    message is handed to the bot without an exception. *)
Record delivery := {
  alert : Engine.alert_data;
  now : datetime;
  current_month : datetime;
  went_out : bool
}.

(** [_send_alert] of the monitoring engine, on the store: the user is
    read afresh, asked [can_send_alert] with the default limit of 5, and
    what the method writes to the user object is not saved; after the
    message the alert is recorded, which counts it.  The answer says
    whether the message went to the bot. *)
Definition _send_alert (db : store) (d : delivery) : store * bool :=
  match get_user db (Engine.user_telegram_id (alert d)) with
  | None => (db, false)
  | Some user =>
      if negb (can_send_alert user (now d) (current_month d) 5).2 then (db, false)
      else if negb (went_out d) then (db, false)
      else if is_alert_type (Engine.type (alert d)) then (create_alert db (alert d), true)
      else (db, true)
  end.

(** The worker of [process_alerts] on a series of alerts; the messages
    that went to the bot come back in order. *)
Fixpoint process_alerts (db : store) (ds : list delivery)
    : store * list Engine.alert_data :=
  match ds with
  | [] => (db, [])
  | d :: rest =>
      let '(db', sent) := _send_alert db d in
      let '(db'', out) := process_alerts db' rest in
      (db'', if sent then alert d :: out else out)
  end.

End Quota.

(** ** Request counters and scraping intervals of the manager
    ([Latest Code/scrapers/scraper_manager.py]) *)

Module Manager.
Import Detector.
Local Open Scope Z_scope.

Definition retailer_index (r : Retailer) : nat :=
  match r with
  | NIKE => 0 | ADIDAS => 1 | FOOTLOCKER => 2 | FINISH_LINE => 3
  | STOCKX => 4 | GOAT => 5 | STADIUM_GOODS => 6
  end.

Definition retailer_of_index (n : nat) : option Retailer :=
  match n with
  | 0%nat => Some NIKE | 1%nat => Some ADIDAS | 2%nat => Some FOOTLOCKER
  | 3%nat => Some FINISH_LINE | 4%nat => Some STOCKX | 5%nat => Some GOAT
  | 6%nat => Some STADIUM_GOODS | _ => None
  end.

#[global] Instance Retailer_countable : Countable Retailer.
Proof.
  apply (inj_countable retailer_index retailer_of_index). by intros [].
Defined.

(** The keys of [self.scrapers], in the order of [__init__]. *)
Definition scrapers : list Retailer :=
  [NIKE; ADIDAS; FOOTLOCKER; FINISH_LINE; STOCKX; GOAT; STADIUM_GOODS].

(** [ScraperManager]: the intervals, in minutes, and the two counters. *)
Record manager := {
  scrape_intervals : gmap Retailer Z;
  total_requests : gmap Retailer Z;
  successful_requests : gmap Retailer Z
}.

(** [__init__] *)
Definition init : manager :=
  {| scrape_intervals :=
       list_to_map [(NIKE, 8); (ADIDAS, 8); (FOOTLOCKER, 12); (FINISH_LINE, 12);
                    (STOCKX, 15); (GOAT, 15); (STADIUM_GOODS, 20)];
     total_requests := ∅;
     successful_requests := ∅ |}.

(** [_update_scraper_metrics], the counters. *)
Definition _update_scraper_metrics (self : manager) (retailer' : Retailer)
    (success : bool) : manager :=
  let total := default 0 (total_requests self !! retailer') in
  let successful := default 0 (successful_requests self !! retailer') in
  {| scrape_intervals := scrape_intervals self;
     total_requests := <[retailer' := total + 1]> (total_requests self);
     successful_requests :=
       <[retailer' := if success then successful + 1 else successful]>
         (successful_requests self) |}.

(** [int(x)] of a number: what follows the point is dropped. *)
Definition py_int (x : Q) : Z := Z.quot (Qnum x) (Z.pos (Qden x)).

Definition with_interval (self : manager) (retailer' : Retailer) (minutes' : Z)
    : manager :=
  {| scrape_intervals := <[retailer' := minutes']> (scrape_intervals self);
     total_requests := total_requests self;
     successful_requests := successful_requests self |}.

(** One turn of the loop of [optimize_scraping_intervals]; [None] is the
    [KeyError] of [self.scrape_intervals[retailer]]. *)
Definition optimize_one (self : manager) (retailer' : Retailer) : option manager :=
  let total_reqs := default 0 (total_requests self !! retailer') in
  let successful_reqs := default 0 (successful_requests self !! retailer') in
  if 10 <? total_reqs then
    let success_rate := (inject_Z successful_reqs / inject_Z total_reqs)%Q in
    match scrape_intervals self !! retailer' with
    | None => None
    | Some current_interval =>
        if Qlt_le_dec success_rate (7 # 10) then
          let grown := (inject_Z current_interval * (15 # 10))%Q in
          let new_interval := if Qlt_le_dec 60 grown then 60%Q else grown in
          Some (with_interval self retailer' (py_int new_interval))
        else if Qlt_le_dec (95 # 100) success_rate then
          let shrunk := (inject_Z current_interval * (8 # 10))%Q in
          let new_interval := if Qlt_le_dec shrunk 5 then 5%Q else shrunk in
          Some (with_interval self retailer' (py_int new_interval))
        else Some self
    end
  else Some self.

(** The loop; an exception ends it and is logged. *)
Fixpoint optimize_loop (self : manager) (retailers : list Retailer) : manager :=
  match retailers with
  | [] => self
  | retailer' :: rest =>
      match optimize_one self retailer' with
      | Some self' => optimize_loop self' rest
      | None => self
      end
  end.

(** [optimize_scraping_intervals] *)
Definition optimize_scraping_intervals (self : manager) : manager :=
  optimize_loop self scrapers.

(** What happens to the manager: a search ends and is counted, or the
    intervals are optimized. *)
Inductive action :=
| Counted (retailer' : Retailer) (success : bool)
| Optimized.

Definition act (self : manager) (a : action) : manager :=
  match a with
  | Counted retailer' success => _update_scraper_metrics self retailer' success
  | Optimized => optimize_scraping_intervals self
  end.

(** The successes of a retailer are among its requests, and its interval
    lies between 5 and 60 minutes. *)
Definition within_bounds (self : manager) : Prop :=
  forall retailer',
    0 <= default 0 (successful_requests self !! retailer')
      <= default 0 (total_requests self !! retailer') /\
    exists interval, scrape_intervals self !! retailer' = Some interval /\
                     5 <= interval <= 60.

End Manager.

(** ** The summary of the health of the scrapers
    ([Latest Code/scrapers/scraper_health_monitor.py]) *)

Module Summary.
Import Health.
Local Open Scope Z_scope.

Definition has_status (s : HealthStatus) (m : ScraperHealthMetrics) : bool :=
  match s, status m with
  | HEALTHY, HEALTHY | WARNING, WARNING | CRITICAL, CRITICAL | DOWN, DOWN => true
  | _, _ => false
  end.

(** [sum(1 for m in self.health_metrics.values() if m.status == s)] *)
Definition count (s : HealthStatus) (values : list ScraperHealthMetrics) : Z :=
  Z.of_nat (length (List.filter (has_status s) values)).

(** The dict [get_health_summary] returns, its status and its counts. *)
Record summary := {
  overall_status : HealthStatus;
  total_scrapers : Z;
  healthy : Z;
  warning : Z;
  critical : Z;
  down : Z
}.

(** [get_health_summary] on [self.health_metrics]; [None] is the answer
    [{"status": "no_data", ...}] when there are no metrics. *)
Definition get_health_summary (health_metrics : gmap string ScraperHealthMetrics)
    : option summary :=
  let values := (map_to_list health_metrics).*2 in
  match values with
  | [] => None
  | _ =>
      let total_scrapers := Z.of_nat (length values) in
      let healthy := count HEALTHY values in
      let warning := count WARNING values in
      let critical := count CRITICAL values in
      let down := count DOWN values in
      let overall_status :=
        if (0 <? down) || (total_scrapers <? 2 * critical) then CRITICAL
        else if (0 <? critical) || (total_scrapers <? 2 * warning) then WARNING
        else HEALTHY in
      Some {| overall_status := overall_status; total_scrapers := total_scrapers;
              healthy := healthy; warning := warning; critical := critical;
              down := down |}
  end.

End Summary.

(** ** What an alert loop logs ([Sneaker Bot/bot/alert_sender.py]) *)

Module Logged.
Import Sender.
Local Open Scope Z_scope.

(** What a logged alert says about the user it went to: the alert names
    the sneaker and the type of the call, and among the users of the
    call is one it was logged for who passed the tests of the loop and
    for whom the write to the history returned. *)
Definition logged_for (premium_only : bool) (kind : AlertType) (name : string)
    (users : list recipient) (a : AlertHistory) : Prop :=
  sneaker_name a = name /\ alert_type a = kind /\
  exists r, In r users /\ user r = user_id a /\ created_at a = t_log r /\
            can_send r = true /\ delivered r = true /\ log_ok r = true /\
            (premium_only = true -> is_premium r = true).

End Logged.

(** * Properties *)

(** ** Double-precision arithmetic *)

Section FloatFacts.
Import Float64.
Local Open Scope Z_scope.

Lemma digits_bounds m :
  2 ^ (Z.pos (digits2_pos m) - 1) <= Z.pos m < 2 ^ Z.pos (digits2_pos m).
Proof.
  induction m as [p IH|p IH|]; cbn [digits2_pos].
  - rewrite Pos2Z.inj_succ, Z.pow_succ_r by lia.
    replace (Z.succ (Z.pos (digits2_pos p)) - 1) with (Z.succ (Z.pos (digits2_pos p) - 1)) by lia.
    rewrite Z.pow_succ_r by lia. lia.
  - rewrite Pos2Z.inj_succ, Z.pow_succ_r by lia.
    replace (Z.succ (Z.pos (digits2_pos p)) - 1) with (Z.succ (Z.pos (digits2_pos p) - 1)) by lia.
    rewrite Z.pow_succ_r by lia. lia.
  - simpl. lia.
Qed.

Lemma digits_le k m : 0 <= k -> Z.pos m < 2 ^ k -> Z.pos (digits2_pos m) <= k.
Proof.
  intros Hk Hm. destruct (Z_le_gt_dec (Z.pos (digits2_pos m)) k) as [|Hgt]; [done|].
  pose proof (digits_bounds m) as [Hlo _].
  assert (2 ^ k <= 2 ^ (Z.pos (digits2_pos m) - 1)) by (apply Z.pow_le_mono_r; lia).
  lia.
Qed.

Lemma digits_ge k m : 0 <= k -> 2 ^ k <= Z.pos m -> k + 1 <= Z.pos (digits2_pos m).
Proof.
  intros Hk Hm. destruct (Z_le_gt_dec (k + 1) (Z.pos (digits2_pos m))) as [|Hgt]; [done|].
  pose proof (digits_bounds m) as [_ Hhi].
  assert (2 ^ Z.pos (digits2_pos m) <= 2 ^ k) by (apply Z.pow_le_mono_r; lia).
  lia.
Qed.

Lemma shr_1_m mrs : 0 <= shr_m mrs ->
  shr_m (shr_1 mrs) = shr_m mrs / 2 /\ 0 <= shr_m (shr_1 mrs).
Proof.
  destruct mrs as [m r s]. cbn [shr_m]. intros Hm.
  rewrite <- Z.div2_div.
  destruct m as [|[p|p|]|]; cbn; try lia.
Qed.

Lemma pow2_xO n : 2 ^ Z.pos n~0 = 2 ^ Z.pos n * 2 ^ Z.pos n.
Proof. rewrite Pos2Z.inj_xO, <- Z.pow_add_r by lia. f_equal. lia. Qed.

Lemma pow2_xI n : 2 ^ Z.pos n~1 = 2 * (2 ^ Z.pos n * 2 ^ Z.pos n).
Proof.
  rewrite Pos2Z.inj_xI, <- Z.pow_add_r by lia.
  replace (2 * Z.pos n + 1) with (Z.succ (Z.pos n + Z.pos n)) by lia.
  by rewrite Z.pow_succ_r by lia.
Qed.

Lemma iter_shr_m n : forall mrs, 0 <= shr_m mrs ->
  shr_m (SpecFloat.iter_pos shr_1 n mrs) = shr_m mrs / 2 ^ Z.pos n /\
  0 <= shr_m (SpecFloat.iter_pos shr_1 n mrs).
Proof.
  induction n as [n IH|n IH|]; intros mrs Hm; cbn [SpecFloat.iter_pos].
  - destruct (shr_1_m mrs Hm) as [H1 H1'].
    destruct (IH _ H1') as [H2 H2']. destruct (IH _ H2') as [H3 H3'].
    split; [|done]. rewrite H3, H2, H1, pow2_xI.
    assert (0 < 2 ^ Z.pos n) by (apply Z.pow_pos_nonneg; lia).
    rewrite !Z.div_div by lia. done.
  - destruct (IH _ Hm) as [H2 H2']. destruct (IH _ H2') as [H3 H3'].
    split; [|done]. rewrite H3, H2, pow2_xO.
    assert (0 < 2 ^ Z.pos n) by (apply Z.pow_pos_nonneg; lia).
    rewrite !Z.div_div by lia. done.
  - destruct (shr_1_m mrs Hm) as [H1 H1']. split; [|done]. by rewrite H1.
Qed.

(** [shr]: the mantissa and the exponent. *)
Lemma shr_m_e mrs e n : 0 <= shr_m mrs ->
  shr_m (shr mrs e n).1 = shr_m mrs / 2 ^ Z.max n 0 /\
  (shr mrs e n).2 = e + Z.max n 0 /\
  0 <= shr_m (shr mrs e n).1.
Proof.
  intros Hm. destruct n as [|p|p]; cbn [shr fst snd].
  - rewrite Z.div_1_r. split; [done|]. split; [lia|done].
  - destruct (iter_shr_m p mrs Hm) as [H1 H2].
    replace (Z.max (Z.pos p) 0) with (Z.pos p) by lia. done.
  - replace (Z.max (Z.neg p) 0) with 0 by lia.
    rewrite Z.div_1_r. split; [done|]. split; [lia|done].
Qed.

Lemma rne_bounds m l : m <= round_nearest_even m l <= m + 1.
Proof.
  destruct l as [|[]]; cbn; [lia|destruct (Z.even m); lia|lia|lia].
Qed.

Lemma shr_record_m m l : shr_m (shr_record_of_loc m l) = m.
Proof. by destruct l as [|[]]. Qed.

Lemma fexp_eq e : fexp prec emax e = Z.max (e - 53) (-1074).
Proof. reflexivity. Qed.

(** The result of [binary_round_aux] by its two shifts. *)
Lemma round_aux_shape s mx ex lx :
  0 <= mx ->
  let n1 := Z.max (fexp prec emax (Zdigits2 mx + ex) - ex) 0 in
  let e1 := ex + n1 in
  exists m2, mx / 2 ^ n1 <= m2 <= mx / 2 ^ n1 + 1 /\
    let n2 := Z.max (fexp prec emax (Zdigits2 m2 + e1) - e1) 0 in
    binary_round_aux prec emax s mx ex lx =
    match m2 / 2 ^ n2 with
    | Z0 => S754_zero s
    | Z.pos m => if e1 + n2 <=? emax - prec then S754_finite s m (e1 + n2)
                 else S754_infinity s
    | Z.neg _ => S754_nan
    end.
Proof.
  intros Hmx n1 e1. unfold binary_round_aux, shr_fexp.
  pose proof (shr_m_e (shr_record_of_loc mx lx) ex
                (fexp prec emax (Zdigits2 mx + ex) - ex)) as H1.
  rewrite shr_record_m in H1. destruct (H1 Hmx) as (Hm1 & He1 & Hp1). clear H1.
  destruct (shr (shr_record_of_loc mx lx) ex _) as [mrs' e'].
  cbn [fst snd] in *. fold n1 in Hm1, He1. fold e1 in He1. subst e'.
  set (m2 := round_nearest_even (shr_m mrs') (loc_of_shr_record mrs')).
  pose proof (rne_bounds (shr_m mrs') (loc_of_shr_record mrs')) as Hm2.
  fold m2 in Hm2. rewrite Hm1 in Hm2.
  exists m2. split; [done|]. cbv zeta.
  assert (Hm2' : 0 <= m2) by lia.
  pose proof (shr_m_e (shr_record_of_loc m2 loc_Exact) e1
                (fexp prec emax (Zdigits2 m2 + e1) - e1)) as H2.
  rewrite shr_record_m in H2. destruct (H2 Hm2') as (Hm3 & He3 & Hp3). clear H2.
  destruct (shr (shr_record_of_loc m2 loc_Exact) e1 _) as [mrs'' e''].
  cbn [fst snd] in *. by rewrite Hm3, He3.
Qed.

Lemma Zdigits2_pos m : Zdigits2 (Z.pos m) = Z.pos (digits2_pos m).
Proof. reflexivity. Qed.

Lemma pow2_pos k : 0 <= k -> 0 < 2 ^ k.
Proof. intros. apply Z.pow_pos_nonneg; lia. Qed.

(** A result of [binary_round_aux] is a valid number, when the mantissa
    is long enough for the exponent. *)
Lemma round_aux_valid s mx ex lx :
  0 <= mx ->
  ex <= fexp prec emax (Zdigits2 mx + ex) ->
  valid_binary prec emax (binary_round_aux prec emax s mx ex lx) = true.
Proof.
  intros Hmx Hpre.
  destruct (round_aux_shape s mx ex lx Hmx) as (m2 & Hm2 & ->).
  set (n1 := Z.max (fexp prec emax (Zdigits2 mx + ex) - ex) 0) in *.
  assert (Hn1 : n1 = fexp prec emax (Zdigits2 mx + ex) - ex) by lia.
  set (e1 := ex + n1).
  assert (He1 : e1 = fexp prec emax (Zdigits2 mx + ex)) by (unfold e1; lia).
  rewrite fexp_eq in He1, Hn1.
  assert (Hn1' : 0 <= n1) by lia.
  pose proof (pow2_pos n1 Hn1') as Hpow.
  (* the bounds on the first quotient *)
  assert (Hm1 : mx / 2 ^ n1 < 2 ^ 53 /\
                (-1074 < e1 -> 2 ^ 52 <= mx / 2 ^ n1) /\ 0 <= mx / 2 ^ n1).
  { destruct mx as [|p|p]; [|clear Hmx|lia].
    - rewrite Z.div_0_l by lia. cbn [Zdigits2] in *. split; [done|]. split; [lia|done].
    - rewrite Zdigits2_pos in *. pose proof (digits_bounds p) as [Hlo Hhi].
      set (d := Z.pos (digits2_pos p)) in *. assert (1 <= d) by (unfold d; lia).
      split; [|split].
      + apply Z.div_lt_upper_bound; [done|].
        assert (2 ^ d <= 2 ^ (n1 + 53)) by (apply Z.pow_le_mono_r; lia).
        rewrite <- Z.pow_add_r by lia. lia.
      + intros He. assert (n1 = d - 53) as Hn by lia.
        apply Z.div_le_lower_bound; [done|].
        rewrite Hn, <- Z.pow_add_r by lia. by replace (d - 53 + 52) with (d - 1) by lia.
      + apply Z.div_pos; lia. }
  destruct Hm1 as (Hhi & Hlo & Hpos).
  set (m1 := mx / 2 ^ n1) in *.
  destruct m2 as [|m2|m2]; [|clear Hmx|lia].
  - (* the rounded mantissa is zero *)
    cbn [Zdigits2]. rewrite fexp_eq.
    replace (Z.max (Z.max (0 + e1 - 53) (-1074) - e1) 0) with 0 by lia.
    by rewrite Z.div_1_r.
  - rewrite Zdigits2_pos, fexp_eq.
    destruct (Z_lt_le_dec (Z.pos m2) (2 ^ 53)) as [Hlt|Hge].
    + (* no carry *)
      assert (Hd2 : Z.pos (digits2_pos m2) <= 53) by (apply digits_le; lia).
      replace (Z.max (Z.max (Z.pos (digits2_pos m2) + e1 - 53) (-1074) - e1) 0)
        with 0 by lia.
      rewrite Z.div_1_r, Z.add_0_r.
      destruct (e1 <=? emax - prec) eqn:Hb; [|done].
      cbn [valid_binary]. unfold bounded, canonical_mantissa.
      rewrite Hb, andb_true_r. apply Z.eqb_eq. rewrite fexp_eq.
      destruct (Z_le_gt_dec e1 (-1074)) as [|Hgt]; [lia|].
      assert (53 <= Z.pos (digits2_pos m2)); [|lia].
      apply (digits_ge 52); [lia|]. assert (2 ^ 52 <= m1) by (apply Hlo; lia). lia.
    + (* the carry: the mantissa is 2^53 *)
      assert (Hm2eq : Z.pos m2 = 2 ^ 53) by lia.
      assert (Hd2 : Z.pos (digits2_pos m2) = 54).
      { apply Z.le_antisymm.
        - apply digits_le; [lia|]. rewrite Hm2eq. reflexivity.
        - apply (digits_ge 53); lia. }
      rewrite Hd2.
      replace (Z.max (Z.max (54 + e1 - 53) (-1074) - e1) 0) with 1 by lia.
      rewrite Hm2eq. change (2 ^ 53 / 2 ^ 1) with (Z.pos (2 ^ 52)).
      destruct (e1 + 1 <=? emax - prec) eqn:Hb; [|done].
      cbn [valid_binary]. unfold bounded, canonical_mantissa.
      rewrite Hb, andb_true_r. apply Z.eqb_eq. rewrite fexp_eq.
      change (Z.pos (digits2_pos (2 ^ 52))) with 53. lia.
Qed.

Lemma round_aux_cases s mx ex lx :
  0 <= mx ->
  binary_round_aux prec emax s mx ex lx = S754_zero s \/
  binary_round_aux prec emax s mx ex lx = S754_infinity s \/
  exists m e, binary_round_aux prec emax s mx ex lx = S754_finite s m e.
Proof.
  intros Hmx. destruct (round_aux_shape s mx ex lx Hmx) as (m2 & Hm2 & ->).
  set (n1 := Z.max _ 0) in *. set (n2 := Z.max _ 0).
  assert (0 <= mx / 2 ^ n1) by (apply Z.div_pos; [done|apply pow2_pos; lia]).
  assert (0 <= m2 / 2 ^ n2) by (apply Z.div_pos; [lia|apply pow2_pos; lia]).
  destruct (m2 / 2 ^ n2) as [|m|m]; [by left| |lia].
  destruct (_ <=? _); [right; right; by eexists _, _|right; by left].
Qed.

(** The quotient [SFdiv] hands to the rounding is long enough. *)
Lemma div_core_pre n d :
  let '(mz, ez, lz) := SFdiv_core_binary prec emax (Z.pos n) 0 (Z.pos d) 0 in
  0 <= mz /\ ez <= fexp prec emax (Zdigits2 mz + ez).
Proof.
  unfold SFdiv_core_binary. rewrite !Zdigits2_pos.
  set (d1 := Z.pos (digits2_pos n)). set (d2 := Z.pos (digits2_pos d)).
  pose proof (digits_bounds n) as [Hn1 Hn2]. pose proof (digits_bounds d) as [Hd1 Hd2].
  fold d1 in Hn1, Hn2. fold d2 in Hd1, Hd2.
  assert (1 <= d1) by (unfold d1; lia). assert (1 <= d2) by (unfold d2; lia).
  rewrite fexp_eq.
  set (e' := Z.min (Z.max (d1 + 0 - (d2 + 0) - 53) (-1074)) (0 - 0)).
  set (s := 0 - 0 - e'). assert (Hs : 0 <= s) by (unfold s, e'; lia).
  set (m' := match s with Z.pos _ => Z.shiftl (Z.pos n) s | 0 => Z.pos n | Z.neg _ => 0 end).
  assert (Hm' : m' = Z.pos n * 2 ^ s).
  { unfold m'. destruct s as [|p|p] eqn:Hsp; [by rewrite Z.mul_1_r| |lia].
    by rewrite Z.shiftl_mul_pow2. }
  pose proof (pow2_pos s Hs) as Hpow.
  assert (Hq : fst (Z.div_eucl m' (Z.pos d)) = m' / Z.pos d) by reflexivity.
  destruct (Z.div_eucl m' (Z.pos d)) as [q r]. cbn [fst] in Hq. subst q.
  assert (Hq0 : 0 <= m' / Z.pos d) by (apply Z.div_pos; lia).
  split; [done|]. rewrite fexp_eq.
  destruct (Z_le_gt_dec 1074 s) as [Hbig|Hsmall]; [unfold s in *; lia|].
  (* the quotient has 53 digits at least *)
  assert (Hlong : 2 ^ 52 <= m' / Z.pos d).
  { apply Z.div_le_lower_bound; [lia|].
    assert (Hexp : d2 + 52 <= d1 - 1 + s) by (unfold s, e' in *; lia).
    assert (Hmono : 2 ^ (d2 + 52) <= 2 ^ (d1 - 1 + s)) by (apply Z.pow_le_mono_r; lia).
    rewrite !Z.pow_add_r in Hmono by lia. rewrite Hm'.
    pose proof (pow2_pos 52 ltac:(lia)).
    apply Z.le_trans with (2 ^ d2 * 2 ^ 52); [nia|].
    apply Z.le_trans with (2 ^ (d1 - 1) * 2 ^ s); [done|nia]. }
  destruct (m' / Z.pos d) as [|q|q] eqn:Hq; [lia| |lia].
  rewrite Zdigits2_pos.
  assert (53 <= Z.pos (digits2_pos q)) by (apply (digits_ge 52); lia).
  unfold s in *. lia.
Qed.

Lemma of_Q_valid q : valid_binary prec emax (of_Q q) = true.
Proof.
  unfold of_Q. destruct (Qnum q) as [|n|n]; [done| |]; cbn [SFdiv];
    pose proof (div_core_pre n (Qden q)) as Hpre;
    destruct (SFdiv_core_binary prec emax (Z.pos n) 0 (Z.pos (Qden q)) 0)
      as [[mz ez] lz]; destruct Hpre; by apply round_aux_valid.
Qed.

Lemma of_Q_nonneg q :
  (0 <= q)%Q ->
  of_Q q = S754_zero false \/ of_Q q = S754_infinity false \/
  exists m e, of_Q q = S754_finite false m e.
Proof.
  intros Hq. unfold of_Q. unfold Qle in Hq. simpl in Hq.
  destruct (Qnum q) as [|n|n]; [by left| |lia]. cbn [SFdiv].
  pose proof (div_core_pre n (Qden q)) as Hpre.
  destruct (SFdiv_core_binary prec emax (Z.pos n) 0 (Z.pos (Qden q)) 0)
    as [[mz ez] lz]. destruct Hpre as [Hmz _].
  apply (round_aux_cases (xorb false false) mz ez lz Hmz).
Qed.

Lemma ltb_same_exp mx m e :
  (m <= mx)%positive ->
  SFltb (S754_finite false mx e) (S754_finite false m e) = false.
Proof.
  intros Hle. unfold SFltb. cbn [SFcompare]. rewrite Z.compare_refl.
  change (Pos.compare_cont Eq mx m) with (mx ?= m)%positive.
  destruct (mx ?= m)%positive eqn:Hc; try done.
  apply Pos.compare_lt_iff in Hc. apply Pos.lt_nle in Hc. done.
Qed.

(** A number that is not negative is not below 0.95 times itself. *)
Lemma mul_095_not_above mx ex :
  bounded prec emax mx ex = true ->
  SFltb (S754_finite false mx ex)
        (SFmul prec emax (S754_finite false mx ex) c095) = false.
Proof.
  unfold bounded, canonical_mantissa. rewrite andb_true_iff, Z.eqb_eq, Z.leb_le.
  rewrite fexp_eq. intros [Hcan Hmax]. unfold emax, prec in Hmax.
  unfold c095. cbn [SFmul xorb].
  pose proof (digits_bounds mx) as [Hlo Hhi].
  pose proof (digits_bounds (mx * 8556839292003942)) as [HMlo HMhi].
  destruct (round_aux_shape false (Z.pos (mx * 8556839292003942)) (ex + -53) loc_Exact)
    as (m2 & Hm2 & ->); [lia|].
  rewrite !Zdigits2_pos in *. rewrite !fexp_eq in *.
  set (M := Z.pos (mx * 8556839292003942)) in *.
  assert (HM : M = Z.pos mx * 8556839292003942) by (unfold M; lia).
  set (dx := Z.pos (digits2_pos mx)) in *.
  set (dM := Z.pos (digits2_pos (mx * 8556839292003942))) in *.
  assert (Hdx : 1 <= dx) by (unfold dx; lia).
  assert (HdM : dx + 52 <= dM <= dx + 53).
  { split.
    - replace (dx + 52) with (dx + 51 + 1) by lia. apply digits_ge; [lia|]. fold M.
      replace (dx + 51) with (dx - 1 + 52) by lia. rewrite Z.pow_add_r by lia.
      rewrite HM. change (2 ^ 52) with 4503599627370496. nia.
    - apply digits_le; [lia|]. fold M. rewrite Z.pow_add_r by lia.
      rewrite HM. change (2 ^ 53) with 9007199254740992. nia. }
  unfold emax, prec.
  set (n1 := Z.max (Z.max (dM + (ex + -53) - 53) (-1074) - (ex + -53)) 0) in *.
  assert (Hn1 : n1 = 53 \/ (n1 = 52 /\ dx = 53 /\ dM = 105 /\ -1073 <= ex)) by lia.
  clearbody n1.
  destruct Hn1 as [->|(-> & Hdx53 & HdM105 & Hex)].
  - (* the product is cut by 53 bits: the exponent is that of the number *)
    replace (ex + -53 + 53) with ex by lia.
    assert (Hm1 : 0 <= M / 2 ^ 53 < Z.pos mx).
    { split; [apply Z.div_pos; lia|].
      apply Z.div_lt_upper_bound; [lia|]. rewrite HM.
      change (2 ^ 53) with 9007199254740992. nia. }
    set (m1 := M / 2 ^ 53) in *. clearbody m1.
    destruct m2 as [|p|p]; [| |lia].
    + cbn [Zdigits2]. replace (Z.max (Z.max (0 + ex - 53) (-1074) - ex) 0) with 0 by lia.
      by rewrite Z.div_1_r.
    + rewrite Zdigits2_pos.
      assert (Hp : Z.pos (digits2_pos p) <= dx) by (apply digits_le; lia).
      replace (Z.max (Z.max (Z.pos (digits2_pos p) + ex - 53) (-1074) - ex) 0)
        with 0 by lia.
      rewrite Z.div_1_r, Z.add_0_r.
      assert ((ex <=? 1024 - 53) = true) as -> by (apply Z.leb_le; lia).
      apply ltb_same_exp. lia.
  - (* the product is cut by 52 bits: the exponent is one less *)
    replace (ex + -53 + 52) with (ex - 1) by lia.
    rewrite HdM105 in HMlo, HMhi.
    assert (Hm1 : 2 ^ 52 <= M / 2 ^ 52 < 2 ^ 53).
    { split.
      - apply Z.div_le_lower_bound; [lia|]. by rewrite <- Z.pow_add_r by lia.
      - apply Z.div_lt_upper_bound; [lia|]. by rewrite <- Z.pow_add_r by lia. }
    set (m1 := M / 2 ^ 52) in *. clearbody m1.
    change (2 ^ 52) with 4503599627370496 in Hm1.
    change (2 ^ 53) with 9007199254740992 in Hm1.
    destruct m2 as [|p|p]; [lia| |lia]. rewrite Zdigits2_pos.
    destruct (Z_lt_le_dec (Z.pos p) 9007199254740992) as [Hlt|Hge].
    + assert (Hp : Z.pos (digits2_pos p) = 53).
      { apply Z.le_antisymm; [apply digits_le; [lia|done]|].
        apply (digits_ge 52); [lia|]. change (2 ^ 52) with 4503599627370496. lia. }
      rewrite Hp.
      replace (Z.max (Z.max (53 + (ex - 1) - 53) (-1074) - (ex - 1)) 0) with 0 by lia.
      rewrite Z.div_1_r, Z.add_0_r.
      assert ((ex - 1 <=? 1024 - 53) = true) as -> by (apply Z.leb_le; lia).
      unfold SFltb. cbn [SFcompare].
      assert ((ex ?= ex - 1) = Gt) as -> by (apply Z.compare_gt_iff; lia). done.
    + assert (Hpeq : p = 9007199254740992%positive) by lia. subst p.
      change (Z.pos (digits2_pos 9007199254740992)) with 54.
      replace (Z.max (Z.max (54 + (ex - 1) - 53) (-1074) - (ex - 1)) 0) with 1 by lia.
      change (9007199254740992 / 2 ^ 1) with 4503599627370496.
      replace (ex - 1 + 1) with ex by lia.
      assert ((ex <=? 1024 - 53) = true) as -> by (apply Z.leb_le; lia).
      apply ltb_same_exp.
      rewrite Hdx53 in Hlo. change (2 ^ (53 - 1)) with 4503599627370496 in Hlo. lia.
Qed.

(** [x < x * 0.95] is false of every price that is not negative. *)
Lemma not_below_own_95_percent q :
  (0 <= q)%Q ->
  SFltb (of_Q q) (SFmul prec emax (of_Q q) (of_Q (95 # 100))) = false.
Proof.
  intros Hq. change (of_Q (95 # 100)) with c095.
  pose proof (of_Q_valid q) as Hv.
  destruct (of_Q_nonneg q Hq) as [->|[->|(m & e & Heq)]]; [done|done|].
  rewrite Heq in *. by apply mul_095_not_above.
Qed.

(** *** Signs

    What is above zero: a finite number or an infinity of positive
    sign. *)
Lemma positive_cases x :
  positive x = true <->
  x = S754_infinity false \/ exists m e, x = S754_finite false m e.
Proof.
  unfold positive, ltb, SFltb. split.
  - destruct x as [s|[]| |[] m e]; cbn; try discriminate; eauto.
  - intros [->|(m & e & ->)]; reflexivity.
Qed.

Lemma of_Q_25 : of_Q 25 = S754_finite false 7036874417766400 (-48).
Proof. vm_compute. reflexivity. Qed.

Lemma of_Q_100 : of_Q 100 = S754_finite false 7036874417766400 (-46).
Proof. vm_compute. reflexivity. Qed.

Lemma at_least_25_positive x : leb (of_Q 25) x = true -> positive x = true.
Proof.
  rewrite of_Q_25. unfold leb, SFleb. intros H. apply positive_cases.
  destruct x as [s|[]| |[] m e]; cbn in H; try discriminate; eauto.
Qed.

Lemma mul_positive x m e :
  positive (mul x (S754_finite false m e)) = true -> positive x = true.
Proof.
  rewrite !positive_cases. unfold mul.
  destruct x as [s|s| |s mx ex]; cbn [SFmul].
  - intros [H|(? & ? & H)]; discriminate.
  - rewrite xorb_false_r. intros [[= ->]|(? & ? & H)]; [by left|discriminate].
  - intros [H|(? & ? & H)]; discriminate.
  - rewrite xorb_false_r.
    destruct (round_aux_cases s (Z.pos (mx * m)) (ex + e) loc_Exact ltac:(lia))
      as [->|[->|(m' & e' & ->)]].
    + intros [H|(? & ? & H)]; discriminate.
    + intros [[= ->]|(? & ? & H)]; [|discriminate]. right. by eexists _, _.
    + intros [H|(? & ? & [= -> _ _])]; [discriminate|]. right. by eexists _, _.
Qed.

Lemma div_core_nonneg m1 e1 m2 e2 :
  0 <= (SFdiv_core_binary prec emax (Z.pos m1) e1 (Z.pos m2) e2).1.1.
Proof.
  unfold SFdiv_core_binary.
  set (s := e1 - e2 - _).
  set (m' := match s with Z.pos _ => Z.shiftl (Z.pos m1) s | 0 => Z.pos m1 | Z.neg _ => 0 end).
  assert (Hm' : 0 <= m').
  { unfold m'. destruct s as [|k|k]; [lia| |lia]. apply Z.shiftl_nonneg. lia. }
  assert (Hq : fst (Z.div_eucl m' (Z.pos m2)) = m' / Z.pos m2) by reflexivity.
  destruct (Z.div_eucl m' (Z.pos m2)) as [q r]. cbn [fst] in *. subst q.
  apply Z.div_pos; lia.
Qed.

Lemma div_positive x y :
  positive y = true -> positive (div x y) = true -> positive x = true.
Proof.
  rewrite !positive_cases. unfold div. intros [->|(my & ey & ->)].
  - destruct x as [s|s| |s mx ex]; cbn [SFdiv];
      intros [H|(? & ? & H)]; discriminate.
  - destruct x as [s|s| |s mx ex]; cbn [SFdiv].
    + intros [H|(? & ? & H)]; discriminate.
    + rewrite xorb_false_r. intros [[= ->]|(? & ? & H)]; [by left|discriminate].
    + intros [H|(? & ? & H)]; discriminate.
    + rewrite xorb_false_r.
      pose proof (div_core_nonneg mx ex my ey) as Hq.
      destruct (SFdiv_core_binary prec emax (Z.pos mx) ex (Z.pos my) ey)
        as [[mz ez] lz]. cbn [fst] in Hq.
      destruct (round_aux_cases s mz ez lz Hq) as [->|[->|(m' & e' & ->)]].
      * intros [H|(? & ? & H)]; discriminate.
      * intros [[= ->]|(? & ? & H)]; [|discriminate]. right. by eexists _, _.
      * intros [H|(? & ? & [= -> _ _])]; [discriminate|]. right. by eexists _, _.
Qed.

(** The float of a positive number is positive unless it is zero. *)
Lemma of_Q_positive q :
  (0 < q)%Q -> (forall s, of_Q q <> S754_zero s) -> positive (of_Q q) = true.
Proof.
  intros Hq Hz. apply positive_cases.
  destruct (of_Q_nonneg q) as [H|[H|H]]; [by apply Qlt_le_weak| |by left|by right].
  by destruct (Hz false).
Qed.

Lemma py_div_some x y z :
  py_div x y = Some z <-> (forall s, y <> S754_zero s) /\ z = div x y.
Proof.
  unfold py_div. destruct y as [s| | |]; split.
  - discriminate.
  - intros [H _]. by destruct (H s).
  - intros [= <-]. done.
  - intros [_ ->]. done.
  - intros [= <-]. done.
  - intros [_ ->]. done.
  - intros [= <-]. done.
  - intros [_ ->]. done.
Qed.

End FloatFacts.

(** ** The circuit breaker *)

Section BreakerFacts.
Import Breaker.
Local Open Scope Z_scope.

Lemma attempts_all_fail s net t_end todo i done :
  (forall j, (i <= j < i + todo)%nat -> is_200 (net j) = false) ->
  attempts s net t_end todo i done =
  {| after := record_failure s t_end; returned := None;
     fetches := (done + todo)%nat |}.
Proof.
  revert i done.
  induction todo as [|todo IH]; intros i done Hfail; simpl.
  - by rewrite Nat.add_0_r.
  - rewrite Hfail by lia.
    rewrite (IH (S i) (S done)) by (intros j Hj; apply Hfail; lia).
    f_equal. lia.
Qed.

Lemma attempts_some_ok s net t_end todo i done :
  (exists j, (i <= j < i + todo)%nat /\ is_200 (net j) = true) ->
  exists k, (i <= k < i + todo)%nat /\
    attempts s net t_end todo i done =
    {| after := record_success s t_end;
       returned := Some {| resp_attempt := k |};
       fetches := (done + (k - i) + 1)%nat |}.
Proof.
  revert i done.
  induction todo as [|todo IH]; intros i done (j & Hj & Hok); [lia|].
  simpl. destruct (is_200 (net i)) eqn:Hi.
  - exists i. split; [lia|]. f_equal. lia.
  - assert (Hj' : (S i <= j < S i + todo)%nat).
    { destruct (decide (j = i)) as [->|]; [congruence|lia]. }
    destruct (IH (S i) (S done)) as (k & Hk & Heq); [by exists j|].
    exists k. split; [lia|]. rewrite Heq. f_equal. lia.
Qed.

Lemma closed_below_threshold s now :
  failure_count s < circuit_breaker_threshold s ->
  is_circuit_breaker_open s now = false.
Proof.
  intros H. unfold is_circuit_breaker_open.
  by apply Z.ltb_lt in H as ->.
Qed.

Lemma open_iff s t now :
  circuit_breaker_threshold s <= failure_count s ->
  last_failure_time s = Some t ->
  is_circuit_breaker_open s now = true <->
  now - t < seconds (circuit_breaker_timeout s).
Proof.
  intros Hc Ht. unfold is_circuit_breaker_open.
  apply Z.ltb_ge in Hc as ->. rewrite Ht. apply Z.ltb_lt.
Qed.

(** A request that goes out while every attempt fails records one failure
    and makes [max_retries] fetches. *)
Lemma request_all_fail s net t_start t_end :
  is_circuit_breaker_open s t_start = false ->
  all_fail net ->
  _make_robust_request s net t_start t_end =
  {| after := record_failure
                (with_total_requests s (total_requests (stats s) + 1)) t_end;
     returned := None; fetches := max_retries |}.
Proof.
  intros Hclosed Hfail. unfold _make_robust_request. rewrite Hclosed.
  rewrite attempts_all_fail; [done|].
  intros j Hj. apply Hfail. lia.
Qed.

(** A request that goes out and meets a 200 records the success. *)
Lemma request_some_ok s net t_start t_end :
  is_circuit_breaker_open s t_start = false ->
  some_ok net ->
  exists k, (k < max_retries)%nat /\
    _make_robust_request s net t_start t_end =
    {| after := record_success
                  (with_total_requests s (total_requests (stats s) + 1)) t_end;
       returned := Some {| resp_attempt := k |}; fetches := S k |}.
Proof.
  intros Hclosed (j & Hj & Hok). unfold _make_robust_request. rewrite Hclosed.
  destruct (attempts_some_ok
              (with_total_requests s (total_requests (stats s) + 1))
              net t_end max_retries 0 0) as (k & Hk & Heq).
  { exists j. split; [lia|done]. }
  exists k. split; [lia|]. rewrite Heq. f_equal. lia.
Qed.

(** An open breaker answers at once: no fetch, no change of state. *)
Lemma request_short_circuit s net t_start t_end :
  is_circuit_breaker_open s t_start = true ->
  _make_robust_request s net t_start t_end =
  {| after := s; returned := None; fetches := 0 |}.
Proof. intros Hopen. unfold _make_robust_request. by rewrite Hopen. Qed.

Lemma attempts_fetches s net t_end todo i done :
  (0 < todo)%nat -> (done < fetches (attempts s net t_end todo i done))%nat.
Proof.
  revert i done. induction todo as [|todo IH]; intros i done Hpos; [lia|].
  simpl. destruct (is_200 (net i)); simpl; [lia|].
  destruct todo as [|todo]; [simpl; lia|].
  specialize (IH (S i) (S done)). lia.
Qed.

(** C2. The breaker is closed while fewer than 5 consecutive request
    failures are recorded.  With 5 or more it is open, and a request
    returns at once without a fetch and without touching the state, as
    long as less than 300 seconds have passed since the last failure.
    From 300 seconds on a request goes out again; every request that goes
    out makes at least one fetch; if one of its attempts is answered with
    200 the failure count is back at 0 and the breaker stays closed; if
    all of them fail the count grows by one, the time of the last failure
    is the time of this one, and a breaker at or over the threshold is
    open again for the 300 seconds that follow. *)
Theorem circuit_breaker_lifecycle
    (s : scraper) (net : nat -> attempt) (t_start t_end : datetime) :
  default_settings s ->
  let r := _make_robust_request s net t_start t_end in
  (failure_count s < 5 -> is_circuit_breaker_open s t_start = false) /\
  (forall t, 5 <= failure_count s -> last_failure_time s = Some t ->
     t_start - t < seconds 300 ->
     is_circuit_breaker_open s t_start = true /\
     fetches r = 0%nat /\ returned r = None /\ after r = s) /\
  (forall t, 5 <= failure_count s -> last_failure_time s = Some t ->
     seconds 300 <= t_start - t ->
     is_circuit_breaker_open s t_start = false) /\
  (is_circuit_breaker_open s t_start = false ->
     (1 <= fetches r)%nat /\
     (some_ok net ->
        failure_count (after r) = 0 /\
        forall now, is_circuit_breaker_open (after r) now = false) /\
     (all_fail net ->
        failure_count (after r) = failure_count s + 1 /\
        last_failure_time (after r) = Some t_end /\
        (5 <= failure_count s + 1 ->
         forall now, now - t_end < seconds 300 ->
           is_circuit_breaker_open (after r) now = true))).
Proof.
  intros [Hthr Htmo] r.
  assert (Hopen : forall t, 5 <= failure_count s -> last_failure_time s = Some t ->
            t_start - t < seconds 300 -> is_circuit_breaker_open s t_start = true).
  { intros t Hge Hlast Hsoon. apply (open_iff s t); [lia|done|]. by rewrite Htmo. }
  split; [|split; [|split]].
  - intros Hlt. apply closed_below_threshold. lia.
  - intros t Hge Hlast Hsoon. split; [by apply (Hopen t)|].
    subst r. rewrite request_short_circuit by (by apply (Hopen t)). done.
  - intros t Hge Hlast Hwait.
    apply not_true_is_false. intros Hcontra.
    apply (open_iff s t) in Hcontra; [|lia|done]. rewrite Htmo in Hcontra. lia.
  - intros Hclosed. split; [|split].
    + subst r. unfold _make_robust_request. rewrite Hclosed.
      pose proof (attempts_fetches
        (with_total_requests s (total_requests (stats s) + 1))
        net t_end max_retries 0 0) as Hf. unfold max_retries in *. lia.
    + intros Hok.
      destruct (request_some_ok s net t_start t_end Hclosed Hok) as (k & _ & Heq).
      subst r. rewrite Heq. cbn [after]. split; [done|].
      intros now. apply closed_below_threshold. simpl. lia.
    + intros Hfail. subst r. rewrite request_all_fail by done. cbn [after].
      split; [done|]. split; [done|].
      intros Hge now Hnow. unfold is_circuit_breaker_open. simpl.
      rewrite Hthr, Htmo.
      assert (Hc : (failure_count s + 1 <? 5) = false) by (apply Z.ltb_ge; lia).
      rewrite Hc. by apply Z.ltb_lt.
Qed.

(** The theorem at the scraper [tripped]: ten seconds after the fifth
    failure a request is cut short, and 300 seconds after it a request
    answered with 200 closes the breaker again. *)
Lemma circuit_breaker_lifecycle_witness :
  (fetches (_make_robust_request tripped net_up (seconds 10) (seconds 11)) = 0%nat) /\
  (is_circuit_breaker_open tripped (seconds 300) = false) /\
  (failure_count
     (after (_make_robust_request tripped net_up (seconds 300) (seconds 301))) = 0).
Proof.
  assert (Hd : default_settings tripped) by (split; reflexivity).
  split; [|split].
  - pose proof (circuit_breaker_lifecycle tripped net_up (seconds 10) (seconds 11) Hd)
      as (_ & Hopen & _).
    destruct (Hopen 0) as (_ & Hf & _); [simpl; lia|reflexivity|reflexivity|].
    exact Hf.
  - pose proof (circuit_breaker_lifecycle tripped net_up (seconds 300) (seconds 301) Hd)
      as (_ & _ & Hcool & _).
    apply (Hcool 0); [simpl; lia|reflexivity|vm_compute; discriminate].
  - pose proof (circuit_breaker_lifecycle tripped net_up (seconds 300) (seconds 301) Hd)
      as (_ & _ & _ & Htrial).
    destruct Htrial as (_ & Hok & _); [reflexivity|].
    destruct Hok as [Hz _]; [exists 0%nat; split; [unfold max_retries; lia|reflexivity]|].
    exact Hz.
Defined.

(** The scenario of a source going down: three failed requests leave the
    breaker closed, two more open it, the next call makes no fetch, and
    after the cooldown one successful call closes it with the count at 0. *)
Lemma breaker_scenario :
  let s3 := fail_requests init 0 3 in
  let s5 := fail_requests s3 (seconds 3) 2 in
  let cut := _make_robust_request s5 net_up (seconds 5) (seconds 5) in
  let trial := _make_robust_request s5 net_up (seconds 304) (seconds 305) in
  failure_count s3 = 3 /\ is_circuit_breaker_open s3 (seconds 3) = false /\
  failure_count s5 = 5 /\ is_circuit_breaker_open s5 (seconds 5) = true /\
  fetches cut = 0%nat /\ returned cut = None /\
  fetches trial = 1%nat /\ failure_count (after trial) = 0 /\
  is_circuit_breaker_open (after trial) (seconds 305) = false.
Proof. vm_compute. repeat split; reflexivity. Qed.

End BreakerFacts.

(** ** The confidence score *)

Section ScoreFacts.
Import Py Parsing.
Local Open Scope Q_scope.

Lemma count_of_le (n m : nat) : (n <= m)%nat -> count_of n <= count_of m.
Proof.
  intros H. unfold count_of. rewrite <- Zle_Qle. lia.
Qed.

Lemma count_of_nonneg (n : nat) : 0 <= count_of n.
Proof. apply (count_of_le 0 n). lia. Qed.

Lemma max0_nonneg x : 0 <= max0 x.
Proof.
  unfold max0. destruct (Qle_bool x 0) eqn:E; [lra|].
  destruct (Qlt_le_dec 0 x) as [Hlt|Hle]; [lra|].
  apply Qle_bool_iff in Hle. congruence.
Qed.

Lemma max0_le x b : 0 <= b -> x <= b -> max0 x <= b.
Proof. intros Hb Hx. unfold max0. by destruct (Qle_bool x 0). Qed.

(** The score stays within 0 and 33/70 whatever the counts, as long as
    they count fields of the two lists. *)
Lemma score_of_range (vr vi inv : nat) :
  (vr <= 3)%nat -> (vi <= 4)%nat ->
  0 <= score_of vr vi inv <= 33 # 70.
Proof.
  intros Hr Hi. unfold score_of. split; [apply max0_nonneg|].
  apply max0_le; [lra|].
  pose proof (count_of_le vr 3 Hr) as Hr'.
  pose proof (count_of_le vi 4 Hi) as Hi'.
  pose proof (count_of_nonneg inv) as Hinv.
  change (count_of (length required_fields + length important_fields)) with 7.
  change (count_of 3) with 3 in Hr'. change (count_of 4) with 4 in Hi'.
  set (a := count_of vr) in *. set (b := count_of vi) in *.
  set (c := count_of inv) in *.
  unfold Qdiv. change (/ 7) with (1 # 7). lra.
Qed.

Lemma validated_range data v :
  _validate_product_data data = Some v ->
  0 <= confidence_score v <= 33 # 70.
Proof.
  unfold _validate_product_data.
  set (miss := List.filter (is_missing data) required_fields).
  set (present := List.filter (fun f => negb (is_missing data f)) important_fields).
  assert (Hp : (length present <= 4)%nat)
    by exact (List.filter_length_le _ important_fields).
  clearbody miss present.
  destruct (name_check data); [|discriminate].
  destruct (url_check data); [|discriminate].
  intros [= <-]. cbn [confidence_score]. apply score_of_range; [|done].
  change (length required_fields) with 3%nat. lia.
Qed.

Lemma scan_patterns_no_success found r :
  scan_patterns found = Some r -> success r = false.
Proof.
  induction found as [|[[|v]|] rest IH]; simpl; try done.
  destruct (_extract_product_from_json v) as [product_data|]; [|done].
  destruct (bool_decide (product_data = ∅)); [done|].
  destruct (_validate_product_data product_data) as [validated|] eqn:Hv.
  - destruct (Qlt_le_dec (5 # 10) (confidence_score validated)) as [Hlt|]; [|done].
    apply validated_range in Hv. lra.
  - by intros [= <-].
Qed.

(** C10. Whatever record it is given, [_validate_product_data] returns a
    score between 0 and 33/70; the record with all seven fields present
    and sound gets exactly 33/70; and since that is below 0.5, the
    script-JSON strategy returns a failed result on every input. *)
Theorem script_json_never_succeeds :
  (forall data v, _validate_product_data data = Some v ->
     0 <= confidence_score v <= 33 # 70) /\
  (exists v, _validate_product_data complete_record = Some v /\
     is_valid v = true /\ confidence_score v == 33 # 70) /\
  (forall scripts, success (_try_script_json_parsing scripts) = false).
Proof.
  split; [exact validated_range|split].
  - eexists. split; [vm_compute; reflexivity|]. split; reflexivity.
  - intros scripts. induction scripts as [|[found|] rest IH]; simpl; try done.
    destruct (scan_patterns found) as [r|] eqn:Hr; [|done].
    by apply scan_patterns_no_success in Hr.
Qed.

(** The bound at the record that has only an address. *)
Lemma script_json_never_succeeds_witness :
  exists v, _validate_product_data {[ "url"%string := PStr "https://a.b" ]} = Some v /\
    0 <= confidence_score v <= 33 # 70.
Proof.
  destruct script_json_never_succeeds as [Hrange _].
  destruct (_validate_product_data {[ "url"%string := PStr "https://a.b" ]})
    as [v|] eqn:Hv; [|vm_compute in Hv; discriminate].
  exists v. split; [reflexivity|]. exact (Hrange _ v Hv).
Defined.

(** C4. On the record with every required and important field present
    and sound the code scores 33/70, where the weights of the
    specification add up to 1: the code divides the weighted counts by
    the number of fields, 7, so a required field is worth 0.1 and an
    important one 0.3/7. *)
Theorem confidence_weights_diverge :
  exists v, _validate_product_data complete_record = Some v /\
    invalid_fields v = [] /\ missing_fields v = [] /\
    confidence_score v == 33 # 70 /\
    confidence_per_spec complete_record == 1 /\
    ~ confidence_score v == confidence_per_spec complete_record.
Proof.
  eexists. split; [vm_compute; reflexivity|].
  split; [reflexivity|]. split; [reflexivity|].
  split; [vm_compute; reflexivity|].
  split; [vm_compute; reflexivity|].
  vm_compute. discriminate.
Qed.

End ScoreFacts.

(** ** Parse exhaustion and transport failure *)

Section ExtractionFacts.
Import Breaker Py Parsing Extraction.
Local Open Scope Z_scope.

(** C5. For a search whose request goes out: when a fetch is answered
    but no strategy accepts the page, the search returns the empty list,
    the scraper is left as the request left it and the failure counter
    stands at 0, nothing being added for the page; when every attempt of
    the request fails, the search returns the empty list and the failure
    counter has grown by exactly one. *)
Theorem parse_exhaustion_is_not_a_failure
    (product : Type)
    (convert : gmap string pyval -> ScrapingMethod -> option (list product))
    (self : scraper) (net : nat -> attempt) (t_start t_end : datetime)
    (body : option page) (url : string) :
  is_circuit_breaker_open self t_start = false ->
  let r := _make_robust_request self net t_start t_end in
  let out := _try_nike_web_search product convert self net t_start t_end body url in
  (some_ok net ->
   (forall html, body = Some html ->
      success (_try_multiple_parsing_methods html url) = false) ->
   out.2 = [] /\ out.1 = after r /\
   failure_count out.1 = 0 /\ consecutive_failures (stats out.1) = 0) /\
  (all_fail net ->
   out.2 = [] /\
   failure_count out.1 = failure_count self + 1 /\
   consecutive_failures (stats out.1) = consecutive_failures (stats self) + 1).
Proof.
  intros Hclosed r out. split.
  - intros Hok Hparse.
    destruct (request_some_ok self net t_start t_end Hclosed Hok) as (k & _ & Heq).
    subst out r. unfold _try_nike_web_search. rewrite Heq. cbn [returned after].
    destruct body as [html|]; [|done].
    rewrite (Hparse html eq_refl). cbn [andb].
    by destruct (data (_try_multiple_parsing_methods html url)).
  - intros Hfail. subst out. unfold _try_nike_web_search.
    rewrite (request_all_fail self net t_start t_end Hclosed Hfail).
    cbn [returned after]. done.
Qed.

(** The theorem at a fresh scraper: a page with nothing in it behind a
    server that answers, and a server that is down. *)
Lemma parse_exhaustion_is_not_a_failure_witness :
  (_try_nike_web_search unit (fun _ _ => Some [tt]) init net_up 0 (seconds 1)
     (Some blank_page) "https://www.nike.com/w/shoes-y7ok?q=dunk").2 = [] /\
  failure_count
    (_try_nike_web_search unit (fun _ _ => Some [tt]) init net_up 0 (seconds 1)
       (Some blank_page) "https://www.nike.com/w/shoes-y7ok?q=dunk").1 = 0 /\
  failure_count
    (_try_nike_web_search unit (fun _ _ => Some [tt]) init net_down 0 (seconds 1)
       (Some blank_page) "https://www.nike.com/w/shoes-y7ok?q=dunk").1 = 1.
Proof.
  assert (Hclosed : is_circuit_breaker_open init 0 = false) by reflexivity.
  pose proof (parse_exhaustion_is_not_a_failure unit (fun _ _ => Some [tt])
                init net_up 0 (seconds 1) (Some blank_page)
                "https://www.nike.com/w/shoes-y7ok?q=dunk" Hclosed) as [Hparse _].
  pose proof (parse_exhaustion_is_not_a_failure unit (fun _ _ => Some [tt])
                init net_down 0 (seconds 1) (Some blank_page)
                "https://www.nike.com/w/shoes-y7ok?q=dunk" Hclosed) as [_ Hdown].
  destruct Hparse as (He & _ & Hc & _).
  { exists 0%nat. split; [unfold max_retries; lia|reflexivity]. }
  { intros html [= <-]. vm_compute. reflexivity. }
  destruct Hdown as (_ & Hc' & _).
  { intros i _. reflexivity. }
  split; [exact He|]. split; [exact Hc|exact Hc'].
Defined.

End ExtractionFacts.

(** ** The change detector *)

Section DetectorFacts.
Import Detector.
Local Open Scope Z_scope.

Lemma same_key_true p d : same_key p d = true <-> key d = key p.
Proof. unfold same_key. apply bool_decide_eq_true. Qed.

Lemma unique_keys_eq db d1 d2 :
  unique_keys db -> In d1 db -> In d2 db -> key d1 = key d2 -> d1 = d2.
Proof.
  unfold unique_keys. induction db as [|d db IH]; simpl; [done|].
  intros Hnd [<-|H1] [<-|H2] Hk; inversion Hnd as [|? ? Hnotin Hnd']; subst.
  - done.
  - exfalso. apply Hnotin. rewrite Hk. by apply in_map.
  - exfalso. apply Hnotin. rewrite <- Hk. by apply in_map.
  - by apply IH.
Qed.

(** No document of the key: the query finds nothing. *)
Lemma find_no_key db p extra :
  (forall d, In d db -> key d <> key p) ->
  find_one (fun d => same_key p d && extra d) db = None.
Proof.
  intros Hno. induction db as [|d db IH]; simpl; [done|].
  assert (Hd : same_key p d = false).
  { apply not_true_is_false. rewrite same_key_true. apply Hno. by left. }
  rewrite Hd. simpl. apply IH. intros d' Hd'. apply Hno. by right.
Qed.

(** With one document per key, a query on the key sees that document. *)
Lemma find_by_key db p prev extra :
  unique_keys db -> In prev db -> key prev = key p ->
  find_one (fun d => same_key p d && extra d) db =
  if extra prev then Some prev else None.
Proof.
  intros Hu Hin Hk. induction db as [|d db IH]; simpl; [done|].
  assert (Hu' : unique_keys db) by (by inversion Hu).
  inversion Hu as [|? ? Hnotin _]; subst.
  destruct Hin as [->|Hin].
  - assert (Hs : same_key p prev = true) by (by apply same_key_true).
    rewrite Hs. simpl. destruct (extra prev); [done|].
    apply find_no_key. intros d' Hd' Hk'.
    apply Hnotin. rewrite Hk, <- Hk'. by apply in_map.
  - assert (Hs : same_key p d = false).
    { apply not_true_is_false. rewrite same_key_true. intros Hk'.
      apply Hnotin. rewrite Hk', <- Hk. by apply in_map. }
    rewrite Hs. simpl. by apply IH.
Qed.

Lemma upsert_keys db doc k :
  In k (List.map key (find_one_and_update db doc)) ->
  In k (List.map key db) \/ k = key doc.
Proof.
  induction db as [|d db IH]; simpl.
  - intros [<-|[]]. by right.
  - destruct (same_key doc d) eqn:Hs; simpl.
    + apply same_key_true in Hs. intros [<-|H]; [left; left; done|left; by right].
    + intros [<-|H]; [left; by left|]. destruct (IH H); [left; by right|by right].
Qed.

(** [upsert_product] keeps one document per key, and the document of the
    key is then the product just written. *)
Lemma upsert_unique db doc :
  unique_keys db -> unique_keys (find_one_and_update db doc).
Proof.
  unfold unique_keys. induction db as [|d db IH]; simpl; intros Hnd.
  - constructor; [by intros []|constructor].
  - inversion Hnd as [|? ? Hnotin Hnd']; subst.
    destruct (same_key doc d) eqn:Hs; simpl.
    + apply same_key_true in Hs. rewrite <- Hs. by constructor.
    + constructor; [|by apply IH].
      intros Hin. destruct (upsert_keys _ _ _ Hin) as [H|H]; [done|].
      apply not_true_iff_false in Hs. apply Hs. by apply same_key_true.
Qed.

Lemma upsert_in db doc : In doc (find_one_and_update db doc).
Proof.
  induction db as [|d db IH]; simpl; [by left|].
  destruct (same_key doc d); [by left|by right].
Qed.

(** The check that follows the write of the same product never fires:
    the only document of the key is the product itself. *)
Lemma restock_after_upsert db t t' product :
  unique_keys db ->
  _is_restock (upsert_product db t product).1 t' (upsert_product db t product).2 = false.
Proof.
  intros Hu. unfold upsert_product, _is_restock. cbn [fst snd].
  set (p := checked_at product t).
  destruct (is_in_stock p) eqn:Hstock; [|done]. cbn [negb].
  rewrite (find_by_key _ p p); [|by apply upsert_unique|apply upsert_in|done].
  destruct (checked_before (t' - minutes 30) p); [|done]. by rewrite Hstock.
Qed.

(** Dates that differ at the millisecond differ, and dates a millisecond
    apart differ at the millisecond. *)
Lemma millis_lt a b : millis a < millis b -> a < b.
Proof.
  unfold millis. intros H. destruct (Z_lt_le_dec a b) as [|Hle]; [done|].
  apply (Z.div_le_mono _ _ 1000) in Hle; lia.
Qed.

Lemma millis_apart a b : a + 1000 <= b -> millis a < millis b.
Proof.
  unfold millis. intros H. apply (Z.div_le_mono _ _ 1000) in H; [|lia].
  replace (a + 1000) with (a + 1 * 1000) in H by lia.
  rewrite Z.div_add in H by lia. lia.
Qed.

Lemma checked_before_true bound d :
  checked_before bound d = true <-> millis (last_checked d) < millis bound.
Proof. unfold checked_before. apply Z.ltb_lt. Qed.

Lemma checked_before_late bound d :
  bound <= last_checked d -> checked_before bound d = false.
Proof.
  intros H. apply not_true_is_false. rewrite checked_before_true.
  intros Hlt. apply millis_lt in Hlt. lia.
Qed.




Lemma priced_some o q : priced o = Some q <-> o = Some q /\ ~ (q == 0)%Q.
Proof.
  unfold priced. destruct o as [q'|]; [|split; [done|by intros [? _]]].
  destruct (Qeq_bool q' 0) eqn:E.
  - apply Qeq_bool_iff in E. split; [done|]. intros [[= ->] Hne]. done.
  - apply Qeq_bool_neq in E. split; [by intros [= ->]|by intros [[= ->] _]].
Qed.

(** A price is never below 0.95 of itself, whatever the rounding of the
    product. *)
Lemma same_price_is_no_drop q : (0 <= q)%Q -> below_95_percent q q = false.
Proof. intros Hq. unfold below_95_percent. by apply not_below_own_95_percent. Qed.






End DetectorFacts.

(** ** Spaced traces *)

Section TraceFacts.
Context {A : Type} (same : A -> A -> Prop) (time : A -> datetime).
Local Open Scope Z_scope.

Lemma spaced_app gap (new old : list A) :
  Trace.spaced same time gap new -> Trace.spaced same time gap old ->
  (forall b a, In b new -> In a old -> same a b -> gap <= time b - time a) ->
  Trace.spaced same time gap (new ++ old).
Proof.
  induction new as [|b new IH]; simpl; [done|].
  intros [Hb Hnew] Hold Hcross. split.
  - intros a Ha Hsame. apply in_app_iff in Ha as [Ha|Ha]; [by apply Hb|].
    apply Hcross; [by left|done..].
  - apply IH; [done..|]. intros b' a Hb' Ha. apply Hcross; [by right|done].
Qed.

Lemma spaced_split gap (l1 l2 l3 : list A) a b :
  Trace.spaced same time gap (l1 ++ b :: l2 ++ a :: l3) -> same a b ->
  gap <= time b - time a.
Proof.
  induction l1 as [|x l1 IH]; simpl.
  - intros [Hb _] Hsame. apply Hb; [|done].
    apply in_app_iff. right. by left.
  - intros [_ Hrest]. by apply IH.
Qed.

End TraceFacts.

(** ** Health alerts *)

Section HealthFacts.
Import Health.
Local Open Scope Z_scope.

Lemma alerts_to_send_shape metrics now a :
  In a (alerts_to_send metrics now) ->
  alert_retailer a = retailer metrics /\ timestamp a = now.
Proof.
  unfold alerts_to_send. rewrite !in_app_iff.
  destruct (is_severe _), (has_pattern "site_changes" _),
    (has_pattern "rate_limiting" _); simpl; intros H;
    repeat (destruct H as [H|H]); subst; try done.
Qed.

(** The alerts of one check are of distinct types. *)
Lemma alerts_to_send_types metrics now :
  List.NoDup (List.map alert_type (alerts_to_send metrics now)).
Proof.
  unfold alerts_to_send.
  destruct (is_severe _), (has_pattern "site_changes" _),
    (has_pattern "rate_limiting" _); simpl;
    repeat constructor; simpl; intuition discriminate.
Qed.

(** A batch of alerts of distinct types, in any order. *)
Lemma spaced_distinct gap (l : list HealthAlert) :
  List.NoDup (List.map alert_type l) -> spaced gap l.
Proof.
  induction l as [|b l IH]; simpl; [done|].
  intros Hnd. inversion Hnd as [|? ? Hnotin Hnd']; subst. split; [|by apply IH].
  intros a Ha [_ Hty]. exfalso. apply Hnotin. rewrite <- Hty. by apply in_map.
Qed.

Lemma check_keeps m metrics now :
  alert_cooldown m = 300 -> covered m -> spaced (seconds 300) (sent m) ->
  let m' := _check_for_alerts m metrics now in
  alert_cooldown m' = 300 /\ covered m' /\ spaced (seconds 300) (sent m').
Proof.
  intros Hcd Hcov Hsp. cbn zeta. unfold _check_for_alerts.
  destruct (in_cooldown m (retailer metrics) now) eqn:Hin; [done|].
  destruct (alerts_to_send metrics now) as [|a0 rest] eqn:Hal; [done|].
  rewrite <- Hal. clear a0 rest Hal. cbn [alert_cooldown sent last_alerts].
  split; [done|]. split.
  - intros a Ha. cbn [sent last_alerts] in *.
    apply in_app_iff in Ha as [Ha|Ha].
    + apply in_rev in Ha. apply alerts_to_send_shape in Ha as [-> ->].
      exists now. by rewrite lookup_insert_eq.
    + destruct (Hcov a Ha) as (t & Ht & Hle).
      destruct (decide (retailer metrics = alert_retailer a)) as [He|Hne].
      * exists now. rewrite He, lookup_insert_eq. split; [done|].
        unfold in_cooldown in Hin. rewrite He, Ht in Hin.
        apply Z.ltb_ge in Hin. rewrite Hcd in Hin. unfold seconds in *. lia.
      * exists t. by rewrite lookup_insert_ne.
  - apply spaced_app; [|done|].
    + apply spaced_distinct.
      rewrite map_rev. apply NoDup_rev. apply alerts_to_send_types.
    + intros b a Hb Ha [Hr _].
      apply in_rev in Hb. apply alerts_to_send_shape in Hb as [Hbr ->].
      destruct (Hcov a Ha) as (t & Ht & Hle).
      unfold in_cooldown in Hin. rewrite <- Hbr, <- Hr, Ht in Hin.
      apply Z.ltb_ge in Hin. rewrite Hcd in Hin. lia.
Qed.

Lemma checks_keep runs : forall m,
  alert_cooldown m = 300 -> covered m -> spaced (seconds 300) (sent m) ->
  spaced (seconds 300) (sent (checks m runs)).
Proof.
  induction runs as [|[metrics now] runs IH]; intros m Hcd Hcov Hsp; simpl; [done|].
  destruct (check_keeps m metrics now Hcd Hcov Hsp) as (Hcd' & Hcov' & Hsp').
  by apply IH.
Qed.

(** Outside the cooldown the alerts of the list are all raised, and the
    time of the last alert of the retailer is set when there is one. *)
Lemma check_raises m metrics now :
  in_cooldown m (retailer metrics) now = false ->
  sent (_check_for_alerts m metrics now)
  = rev (alerts_to_send metrics now) ++ sent m /\
  (forall a, In a (alerts_to_send metrics now) ->
     In a (sent (_check_for_alerts m metrics now)) /\
     last_alerts (_check_for_alerts m metrics now) !! retailer metrics = Some now).
Proof.
  intros Hout. unfold _check_for_alerts. rewrite Hout.
  destruct (alerts_to_send metrics now) as [|a0 rest] eqn:Hal; [by split|].
  cbn [sent last_alerts]. split; [done|].
  intros a Ha. split; [|by rewrite lookup_insert_eq].
  apply in_app_iff. left. by apply -> in_rev.
Qed.

Lemma not_in_cooldown m metrics now :
  alert_cooldown m = 300 ->
  (forall last, last_alerts m !! retailer metrics = Some last ->
                seconds 300 <= now - last) ->
  in_cooldown m (retailer metrics) now = false.
Proof.
  intros Hcd Hold. unfold in_cooldown.
  destruct (last_alerts m !! retailer metrics) as [last|]; [|done].
  rewrite Hcd. apply Z.ltb_ge. by apply Hold.
Qed.

(** C9, as the code has it.  A check of a source that has no alert yet,
    or whose last alert is 300 seconds old or more, raises an alert of
    type status_critical, with the status as severity, when the status
    is Critical or Down, one of type site_changes and one of type
    rate_limiting when that pattern is among the error patterns, each
    dated at the check, and no other, and records the check as the time
    of the last alert of the source when it raised one; a check within
    300 seconds of the last alert of the source raises none and changes
    nothing; hence in any series of checks two alerts of the same source
    and type are at least 300 seconds apart. *)
Theorem health_alert_cooldown :
  (forall metrics now ty,
     (exists a, In a (alerts_to_send metrics now) /\ alert_type a = ty) <->
     (ty = "status_critical"%string /\
        (status metrics = CRITICAL \/ status metrics = DOWN)) \/
     (ty = "site_changes"%string /\ has_pattern "site_changes" metrics = true) \/
     (ty = "rate_limiting"%string /\ has_pattern "rate_limiting" metrics = true)) /\
  (forall m metrics now last,
     alert_cooldown m = 300 ->
     last_alerts m !! retailer metrics = Some last ->
     now - last < seconds 300 ->
     _check_for_alerts m metrics now = m) /\
  (forall m metrics now,
     alert_cooldown m = 300 ->
     (forall last, last_alerts m !! retailer metrics = Some last ->
                   seconds 300 <= now - last) ->
     let m' := _check_for_alerts m metrics now in
     (forall a, In a (sent m') <->
        In a (sent m) \/
        a = {| alert_retailer := retailer metrics; alert_type := "status_critical";
               severity := status metrics; timestamp := now |} /\
          (status metrics = CRITICAL \/ status metrics = DOWN) \/
        a = {| alert_retailer := retailer metrics; alert_type := "site_changes";
               severity := WARNING; timestamp := now |} /\
          has_pattern "site_changes" metrics = true \/
        a = {| alert_retailer := retailer metrics; alert_type := "rate_limiting";
               severity := WARNING; timestamp := now |} /\
          has_pattern "rate_limiting" metrics = true) /\
     (length (sent m') = length (alerts_to_send metrics now) + length (sent m))%nat /\
     (status metrics = CRITICAL \/ status metrics = DOWN \/
      has_pattern "site_changes" metrics = true \/
      has_pattern "rate_limiting" metrics = true ->
      last_alerts m' !! retailer metrics = Some now)) /\
  (forall runs l1 l2 l3 a b,
     sent (checks init runs) = l1 ++ b :: l2 ++ a :: l3 ->
     same_alert a b ->
     seconds 300 <= timestamp b - timestamp a).
Proof.
  split; [|split; [|split]].
  - intros metrics now ty. unfold alerts_to_send. split.
    + intros (a & Ha & <-). rewrite !in_app_iff in Ha.
      destruct (status metrics) eqn:Hs, (has_pattern "site_changes" metrics),
        (has_pattern "rate_limiting" metrics); simpl in Ha;
        repeat (destruct Ha as [Ha|Ha]); subst; simpl; try done; auto 6.
    + intros [[-> Hs]|[[-> Hp]|[-> Hp]]].
      * exists {| alert_retailer := retailer metrics;
                  alert_type := "status_critical";
                  severity := status metrics; timestamp := now |}.
        split; [|reflexivity]. apply in_app_iff. left.
        by destruct Hs as [Hs|Hs]; rewrite Hs; left.
      * exists {| alert_retailer := retailer metrics;
                  alert_type := "site_changes";
                  severity := WARNING; timestamp := now |}.
        split; [|reflexivity]. rewrite Hp.
        apply in_app_iff. right. apply in_app_iff. left. by left.
      * exists {| alert_retailer := retailer metrics;
                  alert_type := "rate_limiting";
                  severity := WARNING; timestamp := now |}.
        split; [|reflexivity]. rewrite Hp.
        apply in_app_iff. right. apply in_app_iff. right. by left.
  - intros m metrics now last Hcd Hlast Hnow.
    unfold _check_for_alerts, in_cooldown. rewrite Hlast, Hcd.
    by apply Z.ltb_lt in Hnow as ->.
  - intros m metrics now Hcd Hold. cbn zeta.
    pose proof (not_in_cooldown m metrics now Hcd Hold) as Hout.
    destruct (check_raises m metrics now Hout) as [Hsent Hset].
    assert (Hlist : forall a, In a (alerts_to_send metrics now) <->
      a = {| alert_retailer := retailer metrics; alert_type := "status_critical";
             severity := status metrics; timestamp := now |} /\
        (status metrics = CRITICAL \/ status metrics = DOWN) \/
      a = {| alert_retailer := retailer metrics; alert_type := "site_changes";
             severity := WARNING; timestamp := now |} /\
        has_pattern "site_changes" metrics = true \/
      a = {| alert_retailer := retailer metrics; alert_type := "rate_limiting";
             severity := WARNING; timestamp := now |} /\
        has_pattern "rate_limiting" metrics = true).
    { intros a. unfold alerts_to_send. rewrite !in_app_iff.
      destruct (status metrics) eqn:Hs, (has_pattern "site_changes" metrics),
        (has_pattern "rate_limiting" metrics); simpl;
        intuition (try discriminate; auto). }
    split; [|split].
    + intros a. rewrite Hsent, in_app_iff, <- in_rev, Hlist. tauto.
    + rewrite Hsent, length_app, length_rev. done.
    + intros Hsome.
      assert (exists a, In a (alerts_to_send metrics now)) as [a Ha].
      { destruct Hsome as [Hs|[Hs|[Hp|Hp]]]; eexists; apply Hlist; eauto. }
      by destruct (Hset a Ha).
  - intros runs l1 l2 l3 a b Hsent Hsame.
    apply (spaced_split same_alert timestamp _ l1 l2 l3); [|done]. rewrite <- Hsent.
    apply checks_keep; [done| |done]. by intros a' [].
Qed.

(** The theorem at a source that stays critical: a check 299 seconds
    after an alert raises nothing. *)
Lemma health_alert_cooldown_witness :
  _check_for_alerts (_check_for_alerts init nike_critical 0) nike_critical (seconds 299)
  = _check_for_alerts init nike_critical 0.
Proof.
  destruct health_alert_cooldown as (_ & Hquiet & _).
  apply (Hquiet _ nike_critical (seconds 299) 0).
  - reflexivity.
  - vm_compute. reflexivity.
  - vm_compute. reflexivity.
Defined.

(** C9 as stated fails: a source that stays critical is alerted at time
    0 and again 300 seconds later, two alerts of the same source and
    type less than 15 minutes apart. *)
Lemma health_alert_claim_fails :
  exists a b,
    sent (checks init [(nike_critical, 0); (nike_critical, seconds 300)]) = [b; a] /\
    same_alert a b /\ timestamp b - timestamp a < minutes 15.
Proof.
  eexists _, _. split; [vm_compute; reflexivity|].
  split; [split; reflexivity|]. vm_compute. reflexivity.
Qed.

End HealthFacts.

(** ** The cooldown of the alert sender *)

Section SenderFacts.
Import Sender.
Local Open Scope Z_scope.

Lemma under_key_same a b :
  under_key (user_id b) (sneaker_name b) (alert_type b) a = true <-> same_key a b.
Proof.
  unfold under_key, same_key.
  rewrite !andb_true_iff, !bool_decide_eq_true. tauto.
Qed.

(** In a spaced history the alert found for a key is the latest of it. *)
Lemma last_is_latest gap h u n k last :
  0 <= gap -> spaced gap h ->
  get_last_alert_for_sneaker h u n k = Some last ->
  forall a, In a h -> under_key u n k a = true -> created_at a <= created_at last.
Proof.
  intros Hgap. unfold get_last_alert_for_sneaker.
  induction h as [|x h IH]; simpl; [done|].
  intros [Hx Hsp] Hfind a Hin Ha.
  destruct (under_key u n k x) eqn:Hkx.
  - injection Hfind as <-. destruct Hin as [->|Hin]; [lia|].
    assert (gap <= created_at x - created_at a); [|lia].
    apply Hx; [done|]. apply under_key_same.
    unfold under_key in *. rewrite !andb_true_iff, !bool_decide_eq_true in *.
    destruct Ha as [[-> ->] ->]. destruct Hkx as [[-> ->] ->]. done.
  - destruct Hin as [->|Hin]; [congruence|]. by apply IH.
Qed.

Lemma send_to_keeps premium_only kind name self r :
  alert_cooldown self = 300 -> spaced (seconds 300) (history self) -> check_ok r ->
  alert_cooldown (send_to premium_only kind name self r).1 = 300 /\
  spaced (seconds 300) (history (send_to premium_only kind name self r).1).
Proof.
  intros Hcd Hsp [Hclock Hlookup]. unfold send_to.
  destruct (premium_only && negb (is_premium r)); [done|].
  destruct (negb (can_send r)); [done|].
  destruct (_is_in_cooldown self (lookup_ok r) (t_check r) (user r) name kind)
    eqn:Hin; [done|].
  destruct (negb (delivered r)); [done|].
  unfold _log_alert. destruct (log_ok r); [|done].
  cbn [fst alert_cooldown history add_alert_history].
  split; [done|]. split; [|done].
  intros a Ha Hsame. cbn [created_at].
  apply under_key_same in Hsame. cbn [user_id sneaker_name alert_type] in Hsame.
  unfold _is_in_cooldown in Hin. rewrite Hlookup in Hin.
  destruct (get_last_alert_for_sneaker (history self) (user r) name kind)
    as [last|] eqn:Hlast.
  - apply Z.ltb_ge in Hin. rewrite Hcd in Hin.
    assert (created_at a <= created_at last).
    { apply (last_is_latest (seconds 300) (history self) (user r) name kind);
        [unfold seconds; lia|done..]. }
    unfold clock_ok in Hclock. lia.
  - unfold get_last_alert_for_sneaker in Hlast.
    pose proof (find_none _ _ Hlast a Ha). congruence.
Qed.

Lemma send_loop_keeps premium_only kind name users : forall self n,
  alert_cooldown self = 300 -> spaced (seconds 300) (history self) ->
  Forall check_ok users ->
  alert_cooldown (send_loop premium_only kind name self users n).1 = 300 /\
  spaced (seconds 300) (history (send_loop premium_only kind name self users n).1).
Proof.
  induction users as [|r users IH]; intros self n Hcd Hsp Hclock; simpl; [done|].
  apply Forall_cons in Hclock as [Hr Hrest].
  destruct (send_to_keeps premium_only kind name self r Hcd Hsp Hr) as [Hcd' Hsp'].
  destruct (send_to premium_only kind name self r) as [self' went].
  by apply IH.
Qed.

Lemma calls_keep cs : forall self,
  alert_cooldown self = 300 -> spaced (seconds 300) (history self) ->
  Forall (fun c => Forall check_ok (users_of c)) cs ->
  spaced (seconds 300) (history (calls self cs)).
Proof.
  unfold calls.
  induction cs as [|c cs IH]; intros self Hcd Hsp Hclock; simpl; [done|].
  apply Forall_cons in Hclock as [Hc Hrest].
  assert (alert_cooldown (do_call self c) = 300 /\
          spaced (seconds 300) (history (do_call self c))) as [Hcd' Hsp'].
  { destruct c as [name users|name users|name users]; simpl in *;
      by apply send_loop_keeps. }
  by apply IH.
Qed.



End SenderFacts.

(** ** The alert queue *)

Section EngineFacts.
Import Engine.
Local Open Scope Z_scope.

Lemma put_all_unbounded (q : Queue alert_data) (l : list alert_data) :
  maxsize q = 0 ->
  put_all q l = Some {| maxsize := 0; items := items q ++ l |}.
Proof.
  revert q. induction l as [|x l IH]; intros q Hq; simpl.
  - rewrite app_nil_r. destruct q. simpl in Hq. by subst.
  - unfold put, full. rewrite Hq. cbn. rewrite IH by done.
    cbn [items]. by rewrite <- app_assoc.
Qed.

Lemma run_unbounded evs : forall e,
  maxsize (alert_queue e) = 0 ->
  exists e', run e evs = Some e' /\
    taken e' ++ items (alert_queue e')
    = taken e ++ items (alert_queue e) ++ produced evs.
Proof.
  induction evs as [|ev evs IH]; intros e Hq; simpl.
  - exists e. by rewrite app_nil_r.
  - destruct ev as [alerts|ok out now]; simpl.
    + rewrite put_all_unbounded by done.
      destruct (IH {| alert_queue := {| maxsize := 0;
                                        items := items (alert_queue e) ++ alerts |};
                      taken := taken e; dispatched := dispatched e |})
        as (e' & Hrun & Hfifo); [done|].
      exists e'. split; [done|]. rewrite Hfifo. cbn. by rewrite <- app_assoc.
    + unfold get. destruct (items (alert_queue e)) as [|a rest] eqn:Hitems.
      * destruct (IH e Hq) as (e' & Hrun & Hfifo).
        exists e'. split; [done|]. by rewrite Hfifo, Hitems.
      * destruct (IH {| alert_queue := {| maxsize := maxsize (alert_queue e);
                                          items := rest |};
                        taken := taken e ++ [a];
                        dispatched := _send_alert (dispatched e) a ok out now |})
          as (e' & Hrun & Hfifo); [done|].
        exists e'. split; [done|]. rewrite Hfifo. cbn. by rewrite <- app_assoc.
Qed.

(** C8, as the code has it.  The alert queue is created without a bound:
    whatever the producers and the worker do, no producer ever has to
    wait, and the alerts the worker has taken, followed by those still on
    the queue, are the alerts put on it, in the order they were put; so
    the one worker takes them first in, first out, and none is dropped. *)
Theorem alert_queue_fifo_unbounded (evs : list event) :
  exists e, run init evs = Some e /\
    taken e ++ items (alert_queue e) = produced evs.
Proof.
  destruct (run_unbounded evs init) as (e & Hrun & Hfifo); [done|].
  by exists e.
Qed.

(** C8 as stated fails: no capacity bounds the queue.  Whatever the
    capacity, one more alert than that can be put on the queue with no
    producer waiting. *)
Lemma alert_queue_claim_fails : ~ bounded_per_spec.
Proof.
  intros [capacity Hbound].
  destruct (run_unbounded [Produce (repeat (restock_for 42) (S capacity))] init)
    as (e & Hrun & Hfifo); [done|].
  specialize (Hbound _ e Hrun).
  assert (Hlen : length (taken e ++ items (alert_queue e)) = S capacity).
  { rewrite Hfifo. simpl. rewrite app_nil_r. by rewrite repeat_length. }
  simpl in Hrun. rewrite put_all_unbounded in Hrun by done.
  injection Hrun as <-. simpl in *. rewrite repeat_length in Hbound. lia.
Qed.

End EngineFacts.

(** ** The two-hour cooldown *)

Section CooldownFacts.
Local Open Scope Z_scope.


End CooldownFacts.

(** ** More on validation and the parsing strategies *)

Section ParsingFacts.
Import Py Parsing.
Local Open Scope Q_scope.

(** A bound on the score from bounds on the three counts. *)
Lemma score_of_le_bound (vr vi inv a b c : nat) (B : Q) :
  (vr <= a)%nat -> (vi <= b)%nat -> (c <= inv)%nat -> 0 <= B ->
  (count_of a * (7 # 10) + count_of b * (3 # 10)) / 7 - count_of c * (2 # 10) <= B ->
  score_of vr vi inv <= B.
Proof.
  intros Hr Hi Hc HB Hbound. unfold score_of. apply max0_le; [done|].
  pose proof (count_of_le vr a Hr) as Hr'.
  pose proof (count_of_le vi b Hi) as Hi'.
  pose proof (count_of_le c inv Hc) as Hc'.
  change (count_of (length required_fields + length important_fields)) with 7.
  set (x := count_of vr) in *. set (y := count_of vi) in *.
  set (z := count_of inv) in *. set (a' := count_of a) in *.
  set (b' := count_of b) in *. set (c' := count_of c) in *.
  unfold Qdiv in *. change (/ 7) with (1 # 7) in *. lra.
Qed.

Lemma lookup_put_found_ne key found (d : gmap string pyval) k :
  k <> key -> put_found key found d !! k = d !! k.
Proof.
  intros Hne. unfold put_found. destruct found; [|done].
  by rewrite lookup_insert_ne.
Qed.

Lemma is_missing_absent (d : gmap string pyval) k :
  d !! k = None -> is_missing d k = true.
Proof. intros H. unfold is_missing. by rewrite H. Qed.

(** What the score of a checked record is made of. *)
Lemma validated_score data v :
  _validate_product_data data = Some v ->
  confidence_score v =
  score_of (length required_fields
            - length (List.filter (is_missing data) required_fields))
           (length (List.filter (fun f => negb (is_missing data f)) important_fields))
           (length (invalid_fields v)) /\
  missing_fields v = List.filter (is_missing data) required_fields /\
  invalid_fields v = price_check data ++ invalid_fields_of_name_url data /\
  is_valid v = bool_decide (missing_fields v = []) && bool_decide (invalid_fields v = []).
Proof.
  unfold _validate_product_data, invalid_fields_of_name_url.
  destruct (name_check data); [|discriminate].
  destruct (url_check data); [|discriminate].
  by intros [= <-].
Qed.

(** The record the structured-HTML strategy builds has no name, no
    brand and no model, and scores at most 2/7. *)
Lemma structured_score (sel : selected) (url : string) v :
  _validate_product_data
    (put_found "sku" (sel_sku sel)
      (put_found "image" (sel_image sel)
        (put_found "price" (sel_price sel)
          (put_found "title" (sel_title sel) {[ "url"%string := PStr url ]}))))
  = Some v ->
  confidence_score v <= 2 # 7.
Proof.
  set (d := put_found "sku" _ _). intros Hv.
  apply validated_score in Hv as (Hscore & _).
  assert (Hname : is_missing d "name" = true).
  { apply is_missing_absent. subst d. by rewrite !lookup_put_found_ne. }
  assert (Hbrand : is_missing d "brand" = true).
  { apply is_missing_absent. subst d. by rewrite !lookup_put_found_ne. }
  assert (Hmodel : is_missing d "model" = true).
  { apply is_missing_absent. subst d. by rewrite !lookup_put_found_ne. }
  rewrite Hscore. unfold required_fields, important_fields.
  cbn [List.filter]. rewrite Hname, Hbrand, Hmodel. cbn [negb].
  apply (score_of_le_bound _ _ _ 2 2 0); [| |lia|done|done].
  - destruct (is_missing d "price"), (is_missing d "url"); simpl; lia.
  - destruct (is_missing d "sku"), (is_missing d "image"); simpl; lia.
Qed.

(** X2. The structured-HTML strategy never succeeds.  It stores the
    heading under the key title, so the required field name is always
    missing, and brand and model are never extracted: the score is at
    most 2/7, below the 0.3 the strategy asks for. *)
Theorem structured_html_never_succeeds (sel : selected) (url : string) :
  success (_try_structured_html_parsing sel url) = false.
Proof.
  unfold _try_structured_html_parsing.
  destruct (_validate_product_data _) as [v|] eqn:Hv; [|done].
  destruct (Qlt_le_dec (3 # 10) (confidence_score v)) as [Hlt|]; [|done].
  apply structured_score in Hv. exfalso. lra.
Qed.

Lemma validated_checks data v :
  _validate_product_data data = Some v ->
  exists ln lu, name_check data = Some ln /\ url_check data = Some lu /\
    invalid_fields v = price_check data ++ ln ++ lu.
Proof.
  unfold _validate_product_data.
  destruct (name_check data) as [ln|]; [|discriminate].
  destruct (url_check data) as [lu|]; [|discriminate].
  intros [= <-]. by exists ln, lu.
Qed.

(** X3. The last-resort strategy succeeds only on a page whose address
    starts with http:// or https:// and on which a price or an image with
    a non-empty address was found: with an address alone the score is 0.1,
    not above it, and an unsound address costs more than the rest can
    give. *)
Theorem fallback_needs_price_or_image (fb : scraped) (url : string) :
  success (_try_fallback_html_parsing fb url) = true ->
  starts_with (chars "http://") (chars url)
    || starts_with (chars "https://") (chars url) = true /\
  (fb_price fb <> None \/ exists img, fb_image fb = Some img /\ img <> ""%string).
Proof.
  unfold _try_fallback_html_parsing.
  set (base := match fb_price fb with
               | Some repr => <["price"%string := POther true repr]>
                                {[ "url"%string := PStr url ]}
               | None => {[ "url"%string := PStr url ]}
               end).
  set (d := put_found "image" _ _).
  destruct (_validate_product_data d) as [v|] eqn:Hv; [|done].
  cbn [success]. destruct (Qlt_le_dec (1 # 10) (confidence_score v)) as [Hlt|]; [|done].
  intros _.
  destruct (validated_checks d v Hv) as (ln & lu & Hln & Hlu & Hinv).
  apply validated_score in Hv as (Hscore & _).
  assert (Hurl : d !! "url"%string = Some (PStr url)).
  { subst d base. rewrite !lookup_put_found_ne by done.
    destruct (fb_price fb); [by rewrite lookup_insert_ne|done]. }
  assert (Hname : is_missing d "name" = true).
  { apply is_missing_absent. subst d base. rewrite !lookup_put_found_ne by done.
    destruct (fb_price fb); [by rewrite lookup_insert_ne|done]. }
  assert (Habsent : forall k, k = "brand"%string \/ k = "model"%string \/ k = "sku"%string ->
            is_missing d k = true).
  { intros k Hk. apply is_missing_absent. subst d base.
    rewrite !lookup_put_found_ne by (destruct Hk as [->|[->| ->]]; done).
    destruct (fb_price fb);
      [rewrite lookup_insert_ne by (destruct Hk as [->|[->| ->]]; done)|];
      apply lookup_singleton_ne; destruct Hk as [->|[->| ->]]; done. }
  rewrite Hscore in Hlt. unfold required_fields, important_fields in Hlt.
  cbn [List.filter] in Hlt.
  rewrite Hname, (Habsent "brand"%string), (Habsent "model"%string),
    (Habsent "sku"%string) in Hlt by auto.
  cbn [negb] in Hlt.
  split.
  - destruct (starts_with (chars "http://") (chars url)
              || starts_with (chars "https://") (chars url)) eqn:Hpre; [done|].
    exfalso. unfold url_check in Hlu. rewrite Hurl, Hpre in Hlu.
    injection Hlu as <-. apply (Qlt_not_le _ _ Hlt).
    apply (score_of_le_bound _ _ _ 2 1 1); [| | |done|done].
    + destruct (is_missing d "price"), (is_missing d "url"); simpl; lia.
    + destruct (is_missing d "image"); simpl; lia.
    + rewrite Hinv, !length_app. simpl. lia.
  - destruct (fb_price fb) as [repr|] eqn:Hp; [by left|]. right.
    assert (Hprice : is_missing d "price" = true).
    { apply is_missing_absent. subst d base. by rewrite !lookup_put_found_ne. }
    destruct (fb_image fb) as [img|] eqn:Hi.
    + exists img. split; [done|]. intros ->. apply (Qlt_not_le _ _ Hlt).
      assert (Himage : is_missing d "image" = true).
      { unfold is_missing. subst d. unfold put_found at 1.
        by rewrite lookup_insert_eq. }
      rewrite Hprice, Himage. cbn [negb].
      apply (score_of_le_bound _ _ _ 1 0 0); [| |lia|done|done].
      * destruct (is_missing d "url"); simpl; lia.
      * simpl. lia.
    + exfalso. apply (Qlt_not_le _ _ Hlt).
      assert (Himage : is_missing d "image" = true).
      { apply is_missing_absent. subst d base. unfold put_found at 1.
        by rewrite lookup_put_found_ne. }
      rewrite Hprice, Himage. cbn [negb].
      apply (score_of_le_bound _ _ _ 1 0 0); [| |lia|done|done].
      * destruct (is_missing d "url"); simpl; lia.
      * simpl. lia.
Qed.

(** The theorem at a page with a price of 120 and nothing else. *)
Lemma fallback_needs_price_or_image_witness :
  starts_with (chars "http://") (chars "https://www.nike.com/t/dunk")
    || starts_with (chars "https://") (chars "https://www.nike.com/t/dunk") = true.
Proof.
  apply (fallback_needs_price_or_image
           {| fb_price := Some "120.0"%string; fb_title := None; fb_image := None |}
           "https://www.nike.com/t/dunk").
  vm_compute. reflexivity.
Defined.

Lemma filter_nil_all {A} (f : A -> bool) (l : list A) :
  List.filter f l = [] -> forall x, In x l -> f x = false.
Proof.
  induction l as [|a l IH]; simpl; [done|].
  destruct (f a) eqn:Ha; [done|]. intros Hnil x [<-|Hx]; [done|by apply IH].
Qed.

Lemma valid_score_lower (data : gmap string pyval) (v : ProductValidation) :
  _validate_product_data data = Some v -> is_valid v = true ->
  (forall f, In f required_fields -> is_missing data f = false) /\
  3 # 10 <= confidence_score v.
Proof.
  intros Hv. apply validated_score in Hv as (Hscore & Hmiss & _ & Hvalid).
  rewrite Hvalid, andb_true_iff, !bool_decide_eq_true. intros [Hm Hi].
  rewrite Hmiss in Hm. split; [by apply filter_nil_all|].
  rewrite Hscore, Hm, Hi. unfold score_of, max0.
  change (count_of (length required_fields + length important_fields)) with 7.
  change (count_of (length required_fields - length [])) with 3.
  change (count_of (length (@nil string))) with 0.
  pose proof (count_of_nonneg
    (length (List.filter (fun f => negb (is_missing data f)) important_fields))) as Hp.
  set (y := count_of _) in *.
  unfold Qdiv. change (/ 7) with (1 # 7).
  destruct (Qle_bool _ 0) eqn:Hle; [|lra].
  apply Qle_bool_iff in Hle. lra.
Qed.



Lemma scan_items_success items r :
  scan_items items = Some r ->
  method r = JSON_LD /\
  (success r = true ->
   exists d v, data r = Some d /\ _validate_product_data d = Some v /\
     is_valid v = true /\ confidence r = confidence_score v).
Proof.
  induction items as [|item rest IH]; simpl; [done|].
  destruct item as [s|l rp|fields rp|b rp]; try (by intros [= <-]).
  destruct (str_is _ "Product" || str_is _ "ProductModel"); [|done].
  destruct (_validate_product_data fields) as [v|] eqn:Hv; [|by intros [= <-]].
  destruct (is_valid v) eqn:Hvalid; [|done].
  intros [= <-]. split; [done|]. intros _. by exists fields, v.
Qed.

Lemma json_ld_success scripts :
  method (_try_json_ld_parsing scripts) = JSON_LD /\
  (success (_try_json_ld_parsing scripts) = true ->
   exists d v, data (_try_json_ld_parsing scripts) = Some d /\
     _validate_product_data d = Some v /\ is_valid v = true /\
     confidence (_try_json_ld_parsing scripts) = confidence_score v).
Proof.
  induction scripts as [|[[|v]|] rest IH]; simpl; try done.
  destruct (scan_items _) as [r|] eqn:Hr; [|done].
  by apply scan_items_success in Hr.
Qed.

Lemma script_json_fails scripts :
  success (_try_script_json_parsing scripts) = false.
Proof.
  induction scripts as [|[found|] rest IH]; simpl; try done.
  destruct (scan_patterns found) as [r|] eqn:Hr; [|done].
  by apply scan_patterns_no_success in Hr.
Qed.

(** X5. A success of the chain is a success of the JSON-LD strategy or
    of the last resort, never of the two strategies in between; it
    carries the record and a confidence above 0.1 and at most 33/70.
    A failure of the chain is the failure of the last resort. *)
Theorem chain_result (html : page) (url : string) :
  let r := _try_multiple_parsing_methods html url in
  (success r = true ->
     (method r = JSON_LD \/ method r = HTML_FALLBACK) /\
     data r <> None /\
     1 # 10 < confidence r /\ confidence r <= 33 # 70) /\
  (success r = false -> method r = HTML_FALLBACK).
Proof.
  cbn zeta. unfold _try_multiple_parsing_methods.
  destruct (json_ld_success (json_ld_scripts html)) as [Hm Hld].
  destruct (success (_try_json_ld_parsing (json_ld_scripts html))) eqn:Hs.
  - split; [|by rewrite Hs]. intros _.
    destruct (Hld eq_refl) as (d & v & Hd & Hv & Hvalid & Hc).
    split; [by left|]. split; [by rewrite Hd|]. rewrite Hc.
    pose proof (validated_range d v Hv) as [_ Hhi].
    destruct (valid_score_lower d v Hv Hvalid) as [_ Hlo]. split; [lra|done].
  - rewrite script_json_fails.
    assert (Hst : success (_try_structured_html_parsing (by_selector html) url) = false).
    { unfold _try_structured_html_parsing.
      destruct (_validate_product_data _) as [v|] eqn:Hv; [|done].
      destruct (Qlt_le_dec (3 # 10) (confidence_score v)) as [Hlt|]; [|done].
      apply structured_score in Hv. exfalso. lra. }
    rewrite Hst. unfold _try_fallback_html_parsing.
    destruct (_validate_product_data _) as [v|] eqn:Hv; [|by split].
    cbn [success method data confidence].
    destruct (Qlt_le_dec (1 # 10) (confidence_score v)) as [Hlt|]; [|by split].
    split; [|done]. intros _. split; [by right|]. split; [done|].
    split; [done|]. by apply validated_range in Hv as [_ Hhi].
Qed.

(** The theorem at a page where only a price of 120 was found. *)
Lemma chain_result_witness :
  method (_try_multiple_parsing_methods
            {| json_ld_scripts := []; scripts := [];
               by_selector := by_selector blank_page;
               by_text := {| fb_price := Some "120.0"%string;
                             fb_title := None; fb_image := None |} |}
            "https://www.nike.com/t/dunk") = JSON_LD
  \/ method (_try_multiple_parsing_methods
               {| json_ld_scripts := []; scripts := [];
                  by_selector := by_selector blank_page;
                  by_text := {| fb_price := Some "120.0"%string;
                                fb_title := None; fb_image := None |} |}
               "https://www.nike.com/t/dunk") = HTML_FALLBACK.
Proof.
  apply (chain_result
           {| json_ld_scripts := []; scripts := [];
              by_selector := by_selector blank_page;
              by_text := {| fb_price := Some "120.0"%string;
                            fb_title := None; fb_image := None |} |}
           "https://www.nike.com/t/dunk").
  vm_compute. reflexivity.
Defined.

(** X6. What [_extract_product_from_json] returns is a dict found at
    the end of one of the six paths and holding at least one of the keys
    name, price and url, so it is never empty; and data that is not a
    dict yields nothing. *)
Theorem extracted_product_has_a_required_field :
  (forall data d, _extract_product_from_json data = Some d ->
     (exists f, In f required_fields /\ is_Some (d !! f)) /\ d <> ∅ /\
     exists path repr, In path paths /\ navigate path data = Some (PDict d repr)) /\
  (forall data, (forall items repr, data <> PDict items repr) ->
     _extract_product_from_json data = None).
Proof.
  split.
  - intros data d. unfold _extract_product_from_json.
    generalize paths as ps. induction ps as [|path ps IH]; cbn [first_product In];
      [done|].
    destruct (navigate path data) as [[s|l r|fields r|b r]|] eqn:Hnav;
      try (intros H; destruct (IH H) as (Hf & Hne & p' & r' & Hin & Hp);
           split; [done|]; split; [done|]; exists p', r'; by split; [right|]).
    destruct (existsb (has_key fields) required_fields) eqn:Hex.
    + intros [= <-]. apply existsb_exists in Hex as (f & Hf & Hkey).
      apply bool_decide_eq_true in Hkey.
      split; [by exists f|]. split.
      * intros ->. rewrite lookup_empty in Hkey. by destruct Hkey.
      * exists path, r. split; [by left|done].
    + intros H. destruct (IH H) as (Hf & Hne & p' & r' & Hin & Hp).
      split; [done|]. split; [done|]. exists p', r'. by split; [right|].
  - intros data Hnot. destruct data as [s|l r|fields r|b r]; try reflexivity.
    by destruct (Hnot fields r).
Qed.

(** The theorem at a state with a product that has only a price. *)
Lemma extracted_product_has_a_required_field_witness :
  {[ "price"%string := PStr "170" ]} <> (∅ : gmap string pyval).
Proof.
  destruct extracted_product_has_a_required_field as [Hsome _].
  apply (Hsome (PDict {[ "product"%string :=
                          PDict {[ "price"%string := PStr "170" ]} "" ]} "")).
  vm_compute. reflexivity.
Defined.

End ParsingFacts.

(** ** Prices in text *)

Section PriceFacts.
Import Py Parsing.
Local Open Scope Q_scope.

Lemma space_not_digit c : is_space c = true -> is_digit c = false.
Proof.
  unfold is_space, is_digit. cbn zeta.
  rewrite orb_true_iff, !andb_true_iff, andb_false_iff, !Nat.leb_le, !Nat.leb_gt.
  lia.
Qed.

Lemma has_digit_lstrip l : has_digit (lstrip l) = has_digit l.
Proof.
  induction l as [|c l IH]; simpl; [done|].
  destruct (is_space c) eqn:Hs; [|done].
  by rewrite (space_not_digit c Hs).
Qed.

Lemma has_digit_rev l : has_digit (rev l) = has_digit l.
Proof.
  unfold has_digit. induction l as [|c l IH]; simpl; [done|].
  rewrite existsb_app, IH. simpl. rewrite orb_false_r. apply orb_comm.
Qed.

Lemma has_digit_strip l : has_digit (strip l) = has_digit l.
Proof.
  unfold strip.
  by rewrite has_digit_rev, has_digit_lstrip, has_digit_rev, has_digit_lstrip.
Qed.

Lemma has_digit_filter (keep : ascii -> bool) l :
  (forall c, is_digit c = true -> keep c = true) ->
  has_digit (List.filter keep l) = has_digit l.
Proof.
  intros Hkeep. induction l as [|c l IH]; simpl; [done|].
  destruct (keep c) eqn:Hk; simpl; rewrite IH; [done|].
  destruct (is_digit c) eqn:Hd; [|done]. rewrite Hkeep in Hk; done.
Qed.

Lemma has_digit_remove c l :
  is_digit c = false -> has_digit (remove_char c l) = has_digit l.
Proof.
  intros Hc. apply has_digit_filter. intros x Hx.
  destruct (Ascii.eqb c x) eqn:He; [|done].
  apply Ascii.eqb_eq in He as ->. congruence.
Qed.

Lemma has_digit_replace c d l :
  is_digit c = false -> is_digit d = false ->
  has_digit (replace_char c d l) = has_digit l.
Proof.
  intros Hc Hd. unfold replace_char. induction l as [|x l IH]; simpl; [done|].
  rewrite IH. destruct (Ascii.eqb c x) eqn:He; [|done].
  apply Ascii.eqb_eq in He as ->. by rewrite Hc, Hd.
Qed.

Lemma no_digit_take l : has_digit l = false -> take_digits l = [] /\ drop_digits l = l.
Proof.
  destruct l as [|c l]; simpl; [done|].
  rewrite orb_false_iff. by intros [-> _].
Qed.

Lemma no_digit_parse_float l : has_digit l = false -> parse_float l = None.
Proof.
  intros Hl. unfold parse_float.
  destruct (no_digit_take l Hl) as [-> ->].
  destruct l as [|c rest]; [done|].
  destruct (Ascii.eqb c ".") eqn:Hc; [|done].
  simpl in Hl. apply orb_false_iff in Hl as [_ Hrest].
  destruct (no_digit_take rest Hrest) as [-> ->]. by destruct rest.
Qed.

Lemma first_number_none l : first_number l = None <-> has_digit l = false.
Proof.
  unfold first_number.
  assert (Hd : drop_non_digits l = [] <-> has_digit l = false).
  { induction l as [|c l IH]; simpl; [done|].
    destruct (is_digit c); simpl; [split; discriminate|done]. }
  destruct (drop_non_digits l) as [|x l'] eqn:Hl.
  - split; [intros _; by apply Hd|done].
  - split.
    + destruct (drop_digits (x :: l')) as [|c rest]; [done|].
      by destruct (Ascii.eqb c ".").
    + intros Hno. apply Hd in Hno. discriminate.
Qed.

Lemma take_digits_all l : Forall (fun c => is_digit c = true) (take_digits l).
Proof.
  induction l as [|c l IH]; simpl; [constructor|].
  destruct (is_digit c) eqn:Hc; by constructor.
Qed.

Lemma digits_value_nonneg l :
  Forall (fun c => is_digit c = true) l -> (0 <= digits_value l)%Z.
Proof.
  unfold digits_value.
  assert (H : forall l acc, Forall (fun c => is_digit c = true) l -> (0 <= acc)%Z ->
            (0 <= fold_left (fun a c => a * 10 + (Z.of_nat (nat_of_ascii c) - 48)) l acc)%Z).
  { clear l. induction l as [|c l IH]; simpl; intros acc Hall Hacc; [done|].
    apply Forall_cons in Hall as [Hc Hl]. apply IH; [done|].
    unfold is_digit in Hc. apply andb_true_iff in Hc as [Hlo _].
    apply Nat.leb_le in Hlo. lia. }
  intros Hall. apply H; [done|lia].
Qed.

Lemma decimal_nonneg l1 l2 : 0 <= decimal (take_digits l1) (take_digits l2).
Proof.
  unfold decimal, Qle. cbn [Qnum Qden].
  pose proof (digits_value_nonneg _ (take_digits_all l1)).
  pose proof (digits_value_nonneg _ (take_digits_all l2)).
  assert (0 <= 10 ^ Z.of_nat (length (take_digits l2)))%Z by (apply Z.pow_nonneg; lia).
  nia.
Qed.

Lemma parse_float_nonneg l q : parse_float l = Some q -> 0 <= q.
Proof.
  unfold parse_float.
  destruct (drop_digits l) as [|c rest].
  - destruct (bool_decide _); [done|]. intros [= <-].
    exact (decimal_nonneg l []).
  - destruct (Ascii.eqb c "."); [|done].
    destruct (drop_digits rest); [|done].
    destruct (_ && _); [done|]. intros [= <-]. exact (decimal_nonneg l rest).
Qed.

Lemma first_number_nonneg l q : first_number l = Some q -> 0 <= q.
Proof.
  unfold first_number.
  destruct (drop_non_digits l) as [|x l']; [done|].
  destruct (drop_digits (x :: l')) as [|c rest].
  - intros [= <-]. exact (decimal_nonneg (x :: l') []).
  - destruct (Ascii.eqb c "."); intros [= <-];
      [exact (decimal_nonneg (x :: l') rest)|exact (decimal_nonneg (x :: l') [])].
Qed.


End PriceFacts.

(** ** Requests in series and the health report *)

Section RequestFacts.
Import Breaker Classifier.
Local Open Scope Z_scope.

Lemma net_cases (net : nat -> attempt) : some_ok net \/ all_fail net.
Proof.
  unfold some_ok, all_fail, max_retries.
  destruct (is_200 (net 0%nat)) eqn:H0; [left; exists 0%nat; split; [lia|done]|].
  destruct (is_200 (net 1%nat)) eqn:H1; [left; exists 1%nat; split; [lia|done]|].
  destruct (is_200 (net 2%nat)) eqn:H2; [left; exists 2%nat; split; [lia|done]|].
  right. intros i Hi.
  destruct i as [|[|[|i]]]; [done..|lia].
Qed.

Lemma request_keeps_sound s net t_start t_end :
  sound s -> sound (after (_make_robust_request s net t_start t_end)).
Proof.
  intros Hsound.
  destruct (is_circuit_breaker_open s t_start) eqn:Hopen.
  { by rewrite request_short_circuit. }
  destruct Hsound as (Hc & Hcons & Hs & Htot & Hlast & Hd).
  destruct (net_cases net) as [Hok|Hfail].
  - destruct (request_some_ok s net t_start t_end Hopen Hok) as (k & _ & ->).
    unfold sound, default_settings in *. cbn. destruct Hd.
    repeat split; try done; lia.
  - rewrite (request_all_fail s net t_start t_end Hopen Hfail).
    unfold sound, default_settings in *. cbn. destruct Hd.
    repeat split; try done; lia.
Qed.

Lemma requests_sound rs : forall s, sound s -> sound (requests s rs).
Proof.
  induction rs as [|[[net t_start] t_end] rs IH]; intros s Hs; simpl; [done|].
  apply IH. by apply request_keeps_sound.
Qed.

Lemma init_sound : sound init.
Proof. repeat split; try done; cbn; lia. Qed.

(** X7. Whatever requests a fresh scraper has made, with whatever
    outcomes: the failure count is the number of consecutive failures and
    is not negative; successes and current failures together never exceed
    the total of requests; the time of the last failure is set exactly
    when the failure count is not zero; and the success rate that
    [health_check] then reports lies between 0 and 1. *)
Theorem request_counters
    (rs : list ((nat -> attempt) * datetime * datetime))
    (net : nat -> attempt) (t_start t_end t_recent t_open : datetime) :
  let s := requests init rs in
  let report := (health_check s net t_start t_end t_recent t_open).2 in
  0 <= failure_count s /\
  consecutive_failures (stats s) = failure_count s /\
  0 <= successful_requests (stats s) /\
  successful_requests (stats s) + failure_count s <= total_requests (stats s) /\
  (failure_count s = 0 <-> last_failure_time s = None) /\
  (0 <= success_rate report /\ success_rate report <= 1)%Q.
Proof.
  cbn zeta.
  destruct (requests_sound rs init init_sound) as (Hc & Hcons & Hs & Htot & Hlast & Hd).
  do 5 (split; [done|]).
  pose proof (request_keeps_sound (requests init rs) net t_start t_end
                (requests_sound rs init init_sound))
    as (Hc' & _ & Hs' & Htot' & _).
  unfold health_check. cbn [snd success_rate].
  set (s' := after _) in *.
  destruct (0 <? total_requests (stats s')) eqn:Hpos; [|split; discriminate].
  apply Z.ltb_lt in Hpos.
  assert (Hq : (0 < inject_Z (total_requests (stats s')))%Q).
  { change 0%Q with (inject_Z 0). by rewrite <- Zlt_Qlt. }
  split.
  - apply Qle_shift_div_l; [done|]. rewrite Qmult_0_l.
    change 0%Q with (inject_Z 0). rewrite <- Zle_Qle. done.
  - apply Qle_shift_div_r; [done|]. rewrite Qmult_1_l.
    rewrite <- Zle_Qle. lia.
Qed.

Lemma attempts_result s net t_end todo : forall i done,
  let r := attempts s net t_end todo i done in
  (fetches r <= done + todo)%nat /\
  (forall resp, returned r = Some resp ->
     (i <= resp_attempt resp < i + todo)%nat /\
     is_200 (net (resp_attempt resp)) = true /\
     (forall j, (i <= j < resp_attempt resp)%nat -> is_200 (net j) = false) /\
     fetches r = (done + (resp_attempt resp - i) + 1)%nat) /\
  (returned r = None ->
     (forall j, (i <= j < i + todo)%nat -> is_200 (net j) = false) /\
     fetches r = (done + todo)%nat).
Proof.
  induction todo as [|todo IH]; intros i done; cbn zeta; simpl.
  - split; [lia|]. split; [done|]. intros _. split; [lia|lia].
  - destruct (is_200 (net i)) eqn:Hi; simpl.
    + split; [lia|]. split; [|done]. intros resp [= <-]. simpl.
      split; [lia|]. split; [done|]. split; [lia|lia].
    + destruct (IH (S i) (S done)) as (Hle & Hsome & Hnone). cbn zeta in *.
      split; [lia|]. split.
      * intros resp Hresp. destruct (Hsome resp Hresp) as (Hr & H200 & Hbefore & Hf).
        split; [lia|]. split; [done|]. split; [|lia].
        intros j Hj. destruct (decide (j = i)) as [->|]; [done|]. apply Hbefore. lia.
      * intros Hret. destruct (Hnone Hret) as [Hall Hf]. split; [|lia].
        intros j Hj. destruct (decide (j = i)) as [->|]; [done|]. apply Hall. lia.
Qed.

(** X8. A request never makes more than 3 fetches.  The response it
    returns is that of the first attempt answered with 200, reached after
    one fetch per attempt; and when it returns nothing, either the
    breaker was open and no fetch was made, or all 3 attempts were made
    and failed. *)
Theorem request_fetches (s : scraper) (net : nat -> attempt) (t_start t_end : datetime) :
  let r := _make_robust_request s net t_start t_end in
  (fetches r <= 3)%nat /\
  (forall resp, returned r = Some resp ->
     is_circuit_breaker_open s t_start = false /\
     (resp_attempt resp < 3)%nat /\
     is_200 (net (resp_attempt resp)) = true /\
     (forall j, (j < resp_attempt resp)%nat -> is_200 (net j) = false) /\
     fetches r = S (resp_attempt resp)) /\
  (returned r = None ->
     (is_circuit_breaker_open s t_start = true /\ fetches r = 0%nat) \/
     (is_circuit_breaker_open s t_start = false /\ all_fail net /\ fetches r = 3%nat)).
Proof.
  cbn zeta. unfold _make_robust_request.
  destruct (is_circuit_breaker_open s t_start) eqn:Hopen.
  - cbn [fetches returned]. split; [lia|]. split; [done|]. intros _. by left.
  - destruct (attempts_result
                (with_total_requests s (total_requests (stats s) + 1))
                net t_end max_retries 0 0) as (Hle & Hsome & Hnone).
    cbn zeta in *. unfold max_retries in *.
    split; [lia|]. split.
    + intros resp Hresp. destruct (Hsome resp Hresp) as (Hr & H200 & Hbefore & Hf).
      split; [done|]. split; [lia|]. split; [done|]. split; [|lia].
      intros j Hj. apply Hbefore. lia.
    + intros Hret. right. destruct (Hnone Hret) as [Hall Hf].
      split; [done|]. split; [|lia]. intros j Hj. apply Hall. unfold max_retries in Hj. lia.
Qed.

(** The theorem at a server that answers the third attempt. *)
Lemma request_fetches_witness :
  fetches (_make_robust_request init
             (fun i => if (i <? 2)%nat then TimeoutError else Status 200) 0 1) = 3%nat.
Proof.
  destruct (request_fetches init
              (fun i => if (i <? 2)%nat then TimeoutError else Status 200) 0 1)
    as (_ & Hsome & _).
  destruct (Hsome {| resp_attempt := 2 |}) as (_ & _ & _ & _ & Hf); [reflexivity|].
  exact Hf.
Defined.

End RequestFacts.

(** ** Classification of health *)

Section ClassifierFacts.
Import Breaker Classifier.
Local Open Scope Z_scope.

(** Case analysis on every test of [_analyze_health_data]. *)
Ltac analysis_cases :=
  repeat match goal with
    | |- context [match ?o with Some _ => _ | None => _ end] =>
        is_var o; destruct o
    | |- context [if ?c then _ else _] =>
        lazymatch type of c with
        | bool => let E := fresh "E" in destruct c eqn:E
        | _ => destruct c
        end
    end;
  cbn [a_status a_issues worsen_to_warning app] in *.

Ltac arith_facts :=
  repeat match goal with
    | H : (_ <=? _) = true |- _ => apply Z.leb_le in H
    | H : (_ <=? _) = false |- _ => apply Z.leb_gt in H
    | H : (_ <? _) = true |- _ => apply Z.ltb_lt in H
    | H : (_ <? _) = false |- _ => apply Z.ltb_ge in H
    | H : negb _ = true |- _ => apply negb_true_iff in H
    | H : negb _ = false |- _ => apply negb_false_iff in H
    end.

(** X10. [_analyze_health_data] records an issue for every reason it
    finds, and only then lowers the status: the list of issues is empty
    exactly when the status is healthy. *)
Theorem issues_iff_unhealthy (d : health_data) (now : datetime) :
  a_issues (_analyze_health_data d now) = [] <->
  a_status (_analyze_health_data d now) = Health.HEALTHY.
Proof.
  unfold _analyze_health_data.
  set (conn := default false (hd_connectivity d)).
  set (open := default false (hd_circuit_breaker_open d)).
  set (rate := default 0%Q (hd_success_rate d)).
  set (fails := default 0 (hd_consecutive_failures d)).
  set (total := default 0 (hd_total_requests d)).
  set (slow := default 0%Q (hd_response_time_avg d)).
  set (last := hd_last_successful_scrape d).
  clearbody conn open rate fails total slow last.
  analysis_cases; split; intros H; try discriminate H; try done.
Qed.

(** X11. The status is Down exactly when there is no connectivity,
    fewer than 10 consecutive failures, and either a last success on
    record or no request counted: a source without connectivity that has
    10 failures in a row, or requests and no success on record, is
    reported Critical instead.  And the status is Critical exactly when
    there is connectivity with an open breaker or a success rate below
    0.5, or 10 or more consecutive failures, or requests counted and no
    success on record. *)
Theorem down_and_critical (d : health_data) (now : datetime) :
  let status := a_status (_analyze_health_data d now) in
  let conn := default false (hd_connectivity d) in
  let open := default false (hd_circuit_breaker_open d) in
  let rate := default 0%Q (hd_success_rate d) in
  let fails := default 0 (hd_consecutive_failures d) in
  let total := default 0 (hd_total_requests d) in
  (status = Health.DOWN <->
   conn = false /\ fails < 10 /\
   (is_Some (hd_last_successful_scrape d) \/ total <= 0)) /\
  (status = Health.CRITICAL <->
   (conn = true /\ (open = true \/ (rate < 5 # 10)%Q)) \/
   10 <= fails \/
   (hd_last_successful_scrape d = None /\ 0 < total)).
Proof.
  cbn zeta. unfold _analyze_health_data.
  set (conn := default false (hd_connectivity d)).
  set (open := default false (hd_circuit_breaker_open d)).
  set (rate := default 0%Q (hd_success_rate d)).
  set (fails := default 0 (hd_consecutive_failures d)).
  set (total := default 0 (hd_total_requests d)).
  set (slow := default 0%Q (hd_response_time_avg d)).
  set (last := hd_last_successful_scrape d).
  clearbody conn open rate fails total slow last.
  analysis_cases; arith_facts; subst;
    (split; split; intros H;
     [ try discriminate H; try (repeat split; try done; try lia; eauto)
     | try (destruct H as (? & ? & [[? ?]|?]); done || lia)
     | try discriminate H;
       try (left; split; [done|]; (by left) || (by right));
       try (right; left; lia); try (right; right; split; [done|lia])
     | try done;
       try (destruct H as [[? [?|?]]|[?|[? ?]]];
            try done; try lia; try (exfalso; eapply Qlt_not_le; eauto)) ]).
Qed.

Lemma report_facts s net t_start t_end t_recent t_open :
  sound s ->
  let report := (health_check s net t_start t_end t_recent t_open).2 in
  0 < report_total_requests report /\
  (connectivity report = true -> circuit_breaker_open report = false).
Proof.
  intros Hsound. cbn zeta. unfold health_check.
  cbn [snd report_total_requests connectivity circuit_breaker_open].
  pose proof Hsound as (Hc & Hcons & Hs & Htot & Hlast & [Hthr Htmo]).
  destruct (is_circuit_breaker_open s t_start) eqn:Hopen.
  - rewrite request_short_circuit by done. cbn [after returned]. split.
    + unfold is_circuit_breaker_open in Hopen. rewrite Hthr in Hopen.
      destruct (failure_count s <? 5) eqn:Hlt; [done|].
      apply Z.ltb_ge in Hlt. lia.
    + intros Hconn. discriminate Hconn.
  - destruct (net_cases net) as [Hok|Hfail].
    + destruct (request_some_ok s net t_start t_end Hopen Hok) as (k & _ & ->).
      cbn. split; [lia|]. intros _. apply closed_below_threshold. cbn. lia.
    + rewrite (request_all_fail s net t_start t_end Hopen Hfail).
      cbn. split; [lia|]. intros Hconn. discriminate Hconn.
Qed.

(** X9. Fed with the report of [health_check], the classifier always
    answers Critical, whatever the scraper has been through: the report
    has no key last_successful_scrape, the check itself counts as a
    request, and requests without a success on record are Critical.  The
    issue of the open breaker is never raised from such a report, which
    shows connectivity only after a success has closed the breaker. *)
Theorem health_check_is_always_critical
    (rs : list ((nat -> attempt) * datetime * datetime))
    (net : nat -> attempt) (t_start t_end t_recent t_open now : datetime) :
  let report := (health_check (requests init rs) net t_start t_end t_recent t_open).2 in
  let a := _analyze_health_data (as_health_data report) now in
  a_status a = Health.CRITICAL /\
  In NoSuccessRecorded (a_issues a) /\
  ~ In BreakerOpen (a_issues a) /\
  connectivity report && circuit_breaker_open report = false.
Proof.
  cbn zeta.
  destruct (report_facts (requests init rs) net t_start t_end t_recent t_open
              (requests_sound rs init init_sound)) as [Htotal Hconn].
  cbn zeta in *.
  set (report := (health_check _ net t_start t_end t_recent t_open).2) in *.
  clearbody report.
  assert (Hboth : connectivity report && circuit_breaker_open report = false).
  { destruct (connectivity report); [|done]. by rewrite Hconn. }
  unfold _analyze_health_data, as_health_data.
  cbn [hd_success_rate hd_total_requests hd_consecutive_failures
       hd_last_successful_scrape hd_circuit_breaker_open hd_response_time_avg
       hd_connectivity hd_recent_errors from_option id].
  apply Z.ltb_lt in Htotal. rewrite Htotal.
  destruct (Qlt_le_dec (10 # 1) 0) as [Habs|_]; [by vm_compute in Habs|].
  destruct (Qlt_le_dec (5 # 1) 0) as [Habs|_]; [by vm_compute in Habs|].
  destruct (connectivity report) eqn:Hc, (circuit_breaker_open report) eqn:Ho;
    try discriminate Hboth; cbn [negb];
    analysis_cases; repeat split; try done;
    rewrite ?in_app_iff; cbn [In]; intuition discriminate.
Qed.

End ClassifierFacts.

(** ** The store and the checks that follow a write *)

Section StoreFacts.
Import Detector Store.
Local Open Scope Z_scope.

Lemma existsb_same_key p db :
  existsb (same_key p) db = true <-> exists d, In d db /\ key d = key p.
Proof.
  rewrite existsb_exists. split; intros (d & Hin & Hk); exists d;
    (split; [done|]); by apply same_key_true.
Qed.

Lemma update_skus db doc :
  existsb (same_key doc) db = true ->
  List.map sku (find_one_and_update db doc) = List.map sku db.
Proof.
  induction db as [|d db IH]; simpl; [done|].
  destruct (same_key doc d) eqn:Hs; simpl.
  - intros _. apply same_key_true in Hs. by injection Hs as -> _.
  - intros H. by rewrite IH.
Qed.

Lemma insert_appends db doc :
  existsb (same_key doc) db = false ->
  find_one_and_update db doc = db ++ [doc].
Proof.
  induction db as [|d db IH]; simpl; [done|].
  destruct (same_key doc d); simpl; [done|]. intros H. by rewrite IH.
Qed.

Lemma distinct_skus_keys db : distinct_skus db -> unique_keys db.
Proof.
  unfold distinct_skus, unique_keys.
  induction db as [|d db IH]; simpl; intros Hnd; [constructor|].
  inversion Hnd as [|? ? Hnotin Hnd']; subst.
  constructor; [|by apply IH].
  intros Hin. apply Hnotin. apply in_map_iff in Hin as (d' & Hk & Hd').
  apply in_map_iff. exists d'. split; [|done]. by injection Hk.
Qed.

Lemma find_one_ext (f g : SneakerProduct -> bool) db :
  (forall d, f d = g d) -> find_one f db = find_one g db.
Proof.
  intros Hfg. unfold find_one. induction db as [|d db IH]; simpl; [done|].
  by rewrite Hfg, IH.
Qed.

Lemma find_after_upsert db doc :
  unique_keys db -> find_one (same_key doc) (find_one_and_update db doc) = Some doc.
Proof.
  intros Hu.
  pose proof (find_by_key (find_one_and_update db doc) doc doc (fun _ => true)
                (upsert_unique db doc Hu) (upsert_in db doc) eq_refl) as H.
  cbn beta in H. rewrite <- H. apply find_one_ext.
  intros d. by rewrite andb_true_r.
Qed.

Lemma find_other_key db doc q :
  key q <> key doc ->
  find_one (same_key q) (find_one_and_update db doc) = find_one (same_key q) db.
Proof.
  intros Hne. induction db as [|d db IH]; simpl.
  - destruct (same_key q doc) eqn:Hs; [|done].
    apply same_key_true in Hs. congruence.
  - destruct (same_key doc d) eqn:Hs; simpl.
    + apply same_key_true in Hs.
      assert (same_key q doc = false) as ->.
      { apply not_true_is_false. rewrite same_key_true. congruence. }
      assert (same_key q d = false) as ->; [|done].
      apply not_true_is_false. rewrite same_key_true. congruence.
    + destruct (same_key q d); [done|apply IH].
Qed.

Lemma NoDup_snoc {A} (l : list A) (a : A) :
  List.NoDup l -> ~ In a l -> List.NoDup (l ++ [a]).
Proof.
  induction l as [|x l IH]; simpl; intros Hnd Hnotin.
  - constructor; [intros []|constructor].
  - inversion Hnd as [|? ? Hx Hl]; subst. constructor.
    + rewrite in_app_iff. simpl. intros [Hin|[Heq|[]]]; [done|].
      apply Hnotin. by left.
    + apply IH; [done|]. intros Hin. apply Hnotin. by right.
Qed.

Lemma distinct_skus_inj db d1 d2 :
  distinct_skus db -> In d1 db -> In d2 db -> sku d1 = sku d2 -> d1 = d2.
Proof.
  unfold distinct_skus. induction db as [|d db IH]; simpl; [done|].
  intros Hnd H1 H2 Heq. inversion Hnd as [|? ? Hnotin Hnd']; subst.
  destruct H1 as [->|H1], H2 as [->|H2]; [done| | |by apply IH].
  - exfalso. apply Hnotin. rewrite Heq. by apply in_map.
  - exfalso. apply Hnotin. rewrite <- Heq. by apply in_map.
Qed.

Lemma upsert_keeps_keys db doc d :
  In d db -> exists d', In d' (find_one_and_update db doc) /\ key d' = key d.
Proof.
  induction db as [|x db IH]; simpl; [done|].
  destruct (same_key doc x) eqn:Hs; intros [->|Hin].
  - exists doc. split; [by left|]. by apply same_key_true in Hs.
  - exists d. split; [by right|done].
  - exists d. split; [by left|done].
  - destruct (IH Hin) as (d' & Hin' & Hk). exists d'. split; [by right|done].
Qed.

Lemma upsert_length db doc :
  (length db <= length (find_one_and_update db doc) <= S (length db))%nat.
Proof.
  induction db as [|x db IH]; simpl; [lia|].
  destruct (same_key doc x); simpl; lia.
Qed.

(** What a write that the index lets through leaves behind. *)
Lemma upsert_indexed_some db now product db' product' :
  distinct_skus db ->
  upsert_product_indexed db now product = Some (db', product') ->
  product' = checked_at product now /\
  db' = find_one_and_update db product' /\
  distinct_skus db' /\
  (forall d, In d db -> sku d = sku product -> retailer d = retailer product).
Proof.
  intros Hsku. unfold upsert_product_indexed.
  set (p := checked_at product now).
  assert (Hkey : key p = key product) by done.
  destruct (existsb (same_key p) db) eqn:Hex.
  - intros [= <- <-]. split; [done|]. split; [done|]. split.
    + unfold distinct_skus. by rewrite update_skus.
    + apply existsb_same_key in Hex as (d0 & Hin0 & Hk0).
      rewrite Hkey in Hk0. injection Hk0 as Hs0 Hr0.
      intros d Hin Hs.
      assert (d = d0) as -> by (apply (distinct_skus_inj db); congruence).
      done.
  - destruct (existsb (fun d => String.eqb (sku d) (sku p)) db) eqn:Hs; [done|].
    intros [= <- <-].
    assert (Hnone : forall d, In d db -> sku d <> sku product).
    { intros d Hin Heq.
      assert (existsb (fun d => String.eqb (sku d) (sku p)) db = true);
        [|congruence].
      apply existsb_exists. exists d. split; [done|]. by apply String.eqb_eq. }
    split; [done|]. split; [done|]. split.
    + rewrite insert_appends by done.
      unfold distinct_skus. rewrite map_app. simpl.
      apply NoDup_snoc; [done|].
      intros Hin. apply in_map_iff in Hin as (d & Heq & Hin).
      by apply (Hnone d Hin).
    + intros d Hin Heq. by destruct (Hnone d Hin).
Qed.

Lemma upsert_indexed_none db now product :
  upsert_product_indexed db now product = None ->
  exists d, In d db /\ sku d = sku product /\ retailer d <> retailer product.
Proof.
  unfold upsert_product_indexed.
  set (p := checked_at product now).
  destruct (existsb (same_key p) db) eqn:Hex; [done|].
  destruct (existsb (fun d => String.eqb (sku d) (sku p)) db) eqn:Hs; [|done].
  intros _. apply existsb_exists in Hs as (d & Hin & Heq).
  apply String.eqb_eq in Heq. exists d. split; [done|]. split; [done|].
  intros Hr. assert (existsb (same_key p) db = true); [|congruence].
  apply existsb_same_key. exists d. split; [done|].
  unfold key. rewrite Heq, Hr. done.
Qed.

(** X12. On a store whose documents have distinct SKUs,
    [upsert_product] with the unique index on sku fails exactly when the
    SKU is already stored under another retailer.  Otherwise it writes
    the product with the time of the write: the SKUs stay distinct, a
    query on the key of the product returns what was written, queries on
    other keys return what they returned before, and the store grows by
    one document at most. *)
Theorem upsert_with_sku_index (db : products) (now : datetime) (product : SneakerProduct) :
  distinct_skus db ->
  match upsert_product_indexed db now product with
  | Some (db', product') =>
      (forall d, In d db -> sku d = sku product -> retailer d = retailer product) /\
      product' = checked_at product now /\
      distinct_skus db' /\
      find_one (same_key product') db' = Some product' /\
      (forall q, key q <> key product ->
         find_one (same_key q) db' = find_one (same_key q) db) /\
      (length db <= length db' <= S (length db))%nat
  | None =>
      exists d, In d db /\ sku d = sku product /\ retailer d <> retailer product
  end.
Proof.
  intros Hsku.
  destruct (upsert_product_indexed db now product) as [[db' product']|] eqn:Hup.
  - destruct (upsert_indexed_some _ _ _ _ _ Hsku Hup) as (-> & -> & Hd & Hr).
    split; [done|]. split; [done|]. split; [done|].
    split; [by apply find_after_upsert, distinct_skus_keys|].
    split; [|apply upsert_length].
    intros q Hq. by apply find_other_key.
  - by apply (upsert_indexed_none db now).
Qed.

(** The theorem at a store that holds one product, written again. *)
Lemma upsert_with_sku_index_witness :
  distinct_skus [shoe true 100 0] /\
  match upsert_product_indexed [shoe true 100 0] (minutes 1) (shoe true 90 0) with
  | Some (db', product') =>
      (forall d, In d [shoe true 100 0] -> sku d = sku (shoe true 90 0) ->
         retailer d = retailer (shoe true 90 0)) /\
      product' = checked_at (shoe true 90 0) (minutes 1) /\
      distinct_skus db' /\
      find_one (same_key product') db' = Some product' /\
      (forall q, key q <> key (shoe true 90 0) ->
         find_one (same_key q) db' = find_one (same_key q) [shoe true 100 0]) /\
      (length [shoe true 100 0%Z] <= length db' <= S (length [shoe true 100 0%Z]))%nat
  | None =>
      exists d, In d [shoe true 100 0] /\ sku d = sku (shoe true 90 0) /\
                retailer d <> retailer (shoe true 90 0)
  end.
Proof.
  assert (Hd : distinct_skus [shoe true 100 0]).
  { constructor; [intros []|constructor]. }
  split; [exact Hd|].
  exact (upsert_with_sku_index [shoe true 100 0] (minutes 1) (shoe true 90 0) Hd).
Defined.

Lemma store_all_facts found : forall db db' out,
  distinct_skus db -> store_all db found = (db', out) ->
  distinct_skus db' /\
  (forall d, In d db -> exists d', In d' db' /\ key d' = key d) /\
  (length db <= length db' <= length db + length found)%nat /\
  match out with
  | Some written =>
      written = List.map stamped found /\
      forall p, In p written -> exists d, In d db' /\ key d = key p
  | None => True
  end.
Proof.
  induction found as [|[product now] rest IH]; intros db db' out Hsku; simpl.
  - intros [= <- <-]. split; [done|]. split; [by eauto|]. split; [lia|].
    split; [done|]. by intros p [].
  - destruct (upsert_product_indexed db now product) as [[db1 p1]|] eqn:Hup.
    + destruct (upsert_indexed_some _ _ _ _ _ Hsku Hup) as (Hp1 & Hdb1 & Hd1 & _).
      destruct (store_all db1 rest) as [db2 written] eqn:Hrest.
      intros [= <- <-].
      destruct (IH _ _ _ Hd1 Hrest) as (Hd2 & Hkeep & Hlen & Hout).
      pose proof (upsert_length db p1) as Hl1. rewrite <- Hdb1 in Hl1.
      split; [done|]. split.
      { intros d Hin.
        destruct (upsert_keeps_keys db p1 d Hin) as (d1 & Hin1 & Hk1).
        rewrite <- Hdb1 in Hin1.
        destruct (Hkeep d1 Hin1) as (d2 & Hin2 & Hk2).
        exists d2. split; [done|congruence]. }
      split; [lia|].
      destruct written as [written|]; [|done]. destruct Hout as [-> Hfound].
      cbn [option_map]. split; [by rewrite Hp1|].
      intros p [<-|Hin]; [|by apply Hfound].
      apply Hkeep. rewrite Hdb1. apply upsert_in.
    + intros [= <- <-]. split; [done|]. split; [by eauto|]. split; [lia|done].
Qed.

Lemma store_all_stops written p now rest : forall db db1 ws,
  store_all db written = (db1, Some ws) ->
  upsert_product_indexed db1 now p = None ->
  store_all db (written ++ (p, now) :: rest) = (db1, None).
Proof.
  induction written as [|[product t] written IH]; intros db db1 ws; simpl.
  - intros [= <- _] Hnone. by rewrite Hnone.
  - destruct (upsert_product_indexed db t product) as [[db2 p2]|]; [|done].
    destruct (store_all db2 written) as [db3 [ws3|]] eqn:Hw; [|done].
    intros [= <- _] Hnone. by rewrite (IH _ _ _ Hw Hnone).
Qed.

(** X13. [_search_retailer] on a store whose documents have distinct
    SKUs.  The SKUs stay distinct and no key is lost from the store.
    The list returned is either all the products found, each with the
    time of its write and each with a document under its key, or empty;
    and when the write of a product raises, the list is empty although
    the products before it stay written. *)
Theorem search_retailer_result (db : products) (found : list (SneakerProduct * datetime)) :
  distinct_skus db ->
  let r := _search_retailer db (Some found) in
  distinct_skus r.1 /\
  (forall d, In d db -> exists d', In d' r.1 /\ key d' = key d) /\
  (length db <= length r.1 <= length db + length found)%nat /\
  (r.2 = [] \/ r.2 = List.map stamped found) /\
  (forall p, In p r.2 -> exists d, In d r.1 /\ key d = key p) /\
  (forall written p now rest db1 ws,
     found = written ++ (p, now) :: rest ->
     store_all db written = (db1, Some ws) ->
     upsert_product_indexed db1 now p = None ->
     r = (db1, [])).
Proof.
  intros Hsku r. subst r. unfold _search_retailer.
  destruct (store_all db found) as [db' out] eqn:Hall.
  destruct (store_all_facts _ _ _ _ Hsku Hall) as (Hd & Hkeep & Hlen & Hout).
  assert (Hstop : forall written p now rest db1 ws,
            found = written ++ (p, now) :: rest ->
            store_all db written = (db1, Some ws) ->
            upsert_product_indexed db1 now p = None ->
            (db', out) = (db1, None)).
  { intros written p now rest db1 ws -> Hw Hnone.
    by rewrite <- Hall, (store_all_stops _ _ _ _ _ _ _ Hw Hnone). }
  destruct out as [written|]; cbn [fst snd].
  - destruct Hout as [-> Hfound].
    split; [done|]. split; [done|]. split; [done|]. split; [by right|].
    split; [done|]. intros written p now rest db1 ws Hf Hw Hnone.
    by specialize (Hstop _ _ _ _ _ _ Hf Hw Hnone).
  - split; [done|]. split; [done|]. split; [done|]. split; [by left|].
    split; [by intros p []|]. intros written p now rest db1 ws Hf Hw Hnone.
    specialize (Hstop _ _ _ _ _ _ Hf Hw Hnone). by injection Hstop as ->.
Qed.

(** The theorem at a store that holds the shoe under NIKE, when a search
    finds a new shoe and then the stored SKU under another retailer: the
    first is written, the second raises, and nothing is returned. *)
Lemma search_retailer_result_witness :
  distinct_skus [shoe true 100 0] /\
  _search_retailer [shoe true 100 0]
    (Some [({| name := "Samba OG"; sku := "B75806"; retailer := ADIDAS;
               price := Some 100%Q; is_in_stock := true; last_checked := 0 |},
            minutes 1);
           ({| name := "Dunk Low Panda"; sku := "DD1391-100"; retailer := GOAT;
               price := Some 140%Q; is_in_stock := true; last_checked := 0 |},
            minutes 2)])
  = ([shoe true 100 0;
      {| name := "Samba OG"; sku := "B75806"; retailer := ADIDAS;
         price := Some 100%Q; is_in_stock := true; last_checked := minutes 1 |}],
     []).
Proof.
  assert (Hd : distinct_skus [shoe true 100 0]).
  { constructor; [intros []|constructor]. }
  split; [exact Hd|].
  pose proof (search_retailer_result [shoe true 100 0]
    [({| name := "Samba OG"; sku := "B75806"; retailer := ADIDAS;
         price := Some 100%Q; is_in_stock := true; last_checked := 0 |},
      minutes 1);
     ({| name := "Dunk Low Panda"; sku := "DD1391-100"; retailer := GOAT;
         price := Some 140%Q; is_in_stock := true; last_checked := 0 |},
      minutes 2)] Hd) as (_ & _ & _ & _ & _ & Hstop).
  eapply (Hstop [_] _ _ []); reflexivity.
Defined.

Lemma upsert_other_stays db doc d :
  In d db -> key d <> key doc -> In d (find_one_and_update db doc).
Proof.
  intros Hin Hne. induction db as [|x db IH]; simpl; [done|].
  destruct (same_key doc x) eqn:Hs; destruct Hin as [->|Hin].
  - apply same_key_true in Hs. done.
  - by right.
  - by left.
  - right. by apply IH.
Qed.

Lemma write_all_unique writes : forall db,
  unique_keys db -> unique_keys (write_all db writes).
Proof.
  unfold write_all.
  induction writes as [|w writes IH]; intros db Hu; simpl; [done|].
  apply IH. by apply upsert_unique.
Qed.

Lemma write_all_stays writes : forall db d,
  In d db -> (forall w, In w writes -> key w.1 <> key d) ->
  In d (write_all db writes).
Proof.
  unfold write_all.
  induction writes as [|w writes IH]; intros db d Hin Hne; simpl; [done|].
  apply IH.
  - apply upsert_other_stays; [done|]. intros Hk. apply (Hne w); [by left|].
    by rewrite Hk.
  - intros w' Hin'. apply Hne. by right.
Qed.

Lemma write_all_in writes : forall db w,
  List.NoDup (List.map (fun w => key w.1) writes) -> In w writes ->
  In (stamped w) (write_all db writes).
Proof.
  induction writes as [|x writes IH]; intros db w Hnd Hin; [done|].
  inversion Hnd as [|? ? Hnotin Hnd']; subst.
  destruct Hin as [->|Hin].
  - change (In (stamped w) (write_all (upsert_product db w.2 w.1).1 writes)).
    apply write_all_stays; [apply upsert_in|].
    intros w' Hin' Hk. apply Hnotin. apply in_map_iff. by exists w'.
  - change (In (stamped w) (write_all (upsert_product db x.2 x.1).1 writes)).
    by apply IH.
Qed.

(** X14. The checks that follow the writes of a monitoring pass.  When
    the products found have been written, one document to a key, the
    restock check of a product that was written is negative, whenever it
    is made, and so is the price-drop check if the price is not
    negative: under the key of the product the store holds the product
    itself, and no earlier state of it. *)
Theorem checks_after_writes_are_silent
    (db : products) (writes : list (SneakerProduct * datetime))
    (w : SneakerProduct * datetime) (now : datetime) :
  unique_keys db ->
  List.NoDup (List.map (fun w => key w.1) writes) ->
  In w writes ->
  _is_restock (write_all db writes) now (stamped w) = false /\
  ((forall q, price w.1 = Some q -> (0 <= q)%Q) ->
   _is_price_drop (write_all db writes) now (stamped w) = false).
Proof.
  intros Hu Hnd Hin.
  pose proof (write_all_unique writes db Hu) as Hu'.
  pose proof (write_all_in writes db w Hnd Hin) as Hin'.
  set (db' := write_all db writes) in *. set (p := stamped w) in *.
  split.
  - unfold _is_restock. destruct (is_in_stock p) eqn:Hstock; [|done].
    cbn [negb]. rewrite (find_by_key db' p p _ Hu' Hin' eq_refl).
    destruct (checked_before (now - minutes 30) p); [|done]. by rewrite Hstock.
  - intros Hpos. unfold _is_price_drop.
    destruct (priced (price p)) as [new_price|] eqn:Hnew; [|done].
    rewrite (find_by_key db' p p _ Hu' Hin' eq_refl).
    destruct (bool_decide (is_Some (price p)) && checked_before (now - hours 1) p);
      [|done].
    rewrite Hnew. apply priced_some in Hnew as [Hprice _].
    apply same_price_is_no_drop. by apply Hpos.
Qed.

(** The theorem at a shoe stored out of stock at 100 and found, two
    hours later, in stock at 80. *)
Lemma checks_after_writes_are_silent_witness :
  _is_restock (write_all [shoe false 100 0] [(shoe true 80 0, hours 2)])
    (hours 2 + seconds 1) (stamped (shoe true 80 0, hours 2)) = false /\
  _is_price_drop (write_all [shoe false 100 0] [(shoe true 80 0, hours 2)])
    (hours 2 + seconds 1) (stamped (shoe true 80 0, hours 2)) = false.
Proof.
  destruct (checks_after_writes_are_silent [shoe false 100 0]
              [(shoe true 80 0, hours 2)] (shoe true 80 0, hours 2)
              (hours 2 + seconds 1)) as [Hr Hp].
  - constructor; [intros []|constructor].
  - constructor; [intros []|constructor].
  - by left.
  - split; [exact Hr|]. apply Hp. intros q [= <-]. done.
Defined.

End StoreFacts.

(** ** Resale samples and the flip they report *)

Section ResellFacts.
Import Detector.
Local Open Scope Z_scope.

Variable regex_search : string -> string -> bool.

Lemma newer_first_transitive : Transitive newer_first.
Proof. intros a b c. unfold newer_first. lia. Qed.

Lemma newer_first_total : Total newer_first.
Proof. intros a b. unfold newer_first. lia. Qed.

(** X15. [get_resell_data] with a limit that is not zero (a limit of
    zero asks the database for all matches) returns matches of the
    pattern from the collection, the newest first, as many of them as
    there are up to the limit; every match left out is no newer than
    every one returned. *)
Theorem resell_data_newest_first
    (coll : list ResellData) (sneaker_name' : string) (limit : nat) :
  (0 < limit)%nat ->
  let matches := List.filter (fun r => regex_search sneaker_name' (sneaker_name r)) coll in
  let data := get_resell_data regex_search coll sneaker_name' limit in
  StronglySorted newer_first data /\
  length data = Nat.min limit (length matches) /\
  (forall r, In r data ->
     In r coll /\ regex_search sneaker_name' (sneaker_name r) = true) /\
  exists rest, data ++ rest ≡ₚ matches /\
    forall a b, In a data -> In b rest -> created_at b <= created_at a.
Proof.
  intros _ matches data. subst data. unfold get_resell_data. fold matches.
  pose proof (StronglySorted_merge_sort newer_first
                (Transitive0 := newer_first_transitive)
                (Total0 := newer_first_total) matches) as Hsorted.
  pose proof (merge_sort_Permutation newer_first matches) as Hperm.
  set (sorted := merge_sort newer_first matches) in *.
  rewrite <- (take_drop limit sorted) in Hsorted.
  apply StronglySorted_app in Hsorted as (Hcross & Htake & _).
  split; [done|]. split.
  { rewrite length_take. by rewrite (Permutation_length Hperm). }
  split.
  { intros r Hin.
    assert (In r matches) as Hm.
    { apply list_elem_of_In. rewrite <- Hperm. apply list_elem_of_In.
      rewrite <- (take_drop limit sorted). apply in_app_iff. by left. }
    by apply filter_In in Hm. }
  exists (drop limit sorted). split; [by rewrite take_drop|].
  intros a b Ha Hb. apply (Hcross a b); by apply list_elem_of_In.
Qed.


End ResellFacts.

Section ResellExamples.
Import Detector Store.
Local Open Scope Z_scope.

(** The theorem at three sales of which the two newest are asked for. *)
Lemma resell_data_newest_first_witness :
  (0 < 2)%nat /\
  get_resell_data plain_search
    [sale 150 1; sale 170 3; sale 160 2]
    "dunk low" 2
  = [sale 170 3; sale 160 2] /\
  StronglySorted newer_first
    (get_resell_data plain_search
       [sale 150 1; sale 170 3; sale 160 2]
       "dunk low" 2).
Proof.
  split; [lia|]. split; [vm_compute; reflexivity|].
  apply (resell_data_newest_first plain_search
           [sale 150 1; sale 170 3; sale 160 2]
           "dunk low" 2). lia.
Defined.


End ResellExamples.

(** ** Tracked sneakers against the products found *)

Section TrackingFacts.
Import Tracking.
Local Open Scope Z_scope.

Lemma size_match_true sizes' available :
  size_match sizes' available = true <->
  exists s, In s sizes' /\
    (is_all_sizes s = true \/
     exists a, In a available /\ same_size (us_size s) (us_size a) = true).
Proof.
  induction sizes' as [|s sizes' IH]; simpl.
  - split; [done|]. by intros (s & [] & _).
  - destruct (is_all_sizes s) eqn:Hall.
    { split; [|done]. intros _. exists s. split; [by left|by left]. }
    destruct (existsb _ available) eqn:Hex.
    { split; [|done]. intros _. exists s. split; [by left|]. right.
      apply existsb_exists in Hex as (a & Hin & Heq). by exists a. }
    rewrite IH. split.
    + intros (s' & Hin & Hs'). exists s'. split; [by right|done].
    + intros (s' & [<-|Hin] & Hs'); [|by exists s'].
      destruct Hs' as [Hs'|(a & Hin & Heq)]; [congruence|].
      assert (existsb (fun available_size =>
                same_size (us_size s) (us_size available_size)) available = true);
        [|congruence].
      apply existsb_exists. by exists a.
Qed.

Lemma over_price_limit_false tracked_sneaker product :
  over_price_limit tracked_sneaker product = false <->
  forall limit p, Detector.priced (max_price tracked_sneaker) = Some limit ->
                  Detector.priced (price product) = Some p -> (p <= limit)%Q.
Proof.
  unfold over_price_limit.
  destruct (Detector.priced (max_price tracked_sneaker)) as [limit|];
    [|split; [by intros _ ? ? ?|done]].
  destruct (Detector.priced (price product)) as [p|];
    [|split; [by intros _ ? ? ? ?|done]].
  destruct (Qlt_le_dec limit p) as [Hlt|Hle].
  - split; [done|]. intros H. specialize (H limit p eq_refl eq_refl).
    exfalso. by apply (Qlt_not_le _ _ Hlt).
  - split; [|done]. by intros _ ? ? [= <-] [= <-].
Qed.

(** The test a product has to pass, as [_find_matching_products] makes it. *)
Lemma matching_step tracked_sneaker product rest :
  _find_matching_products tracked_sneaker (product :: rest) =
  if name_matches tracked_sneaker product
     && (bool_decide (sizes tracked_sneaker = [])
         || size_match (sizes tracked_sneaker) (sizes_available product))
     && negb (over_price_limit tracked_sneaker product)
  then product :: _find_matching_products tracked_sneaker rest
  else _find_matching_products tracked_sneaker rest.
Proof.
  simpl. destruct (name_matches tracked_sneaker product); [|done]. cbn [negb andb].
  destruct (sizes tracked_sneaker) as [|s l]; cbn [bool_decide orb andb].
  - rewrite bool_decide_eq_true_2 by done. cbn [orb andb].
    by destruct (over_price_limit tracked_sneaker product).
  - rewrite bool_decide_eq_false_2 by done. cbn [orb].
    destruct (size_match (s :: l) (sizes_available product)); [|done].
    by destruct (over_price_limit tracked_sneaker product).
Qed.

(** X17. [_find_matching_products] keeps the products in the order they
    came, and keeps a product exactly when its name, in lower case,
    contains every word of the keyword in lower case; the tracked
    sneaker names no size, or one of its sizes stands for all sizes or
    has the US size of a size on offer; and its price is not above the
    limit, when there is a limit and a price and neither is zero. *)
Theorem matching_products_rule
    (tracked_sneaker : TrackedSneaker) (products : list SneakerProduct) :
  sublist (_find_matching_products tracked_sneaker products) products /\
  forall product,
    In product (_find_matching_products tracked_sneaker products) <->
    In product products /\
    (forall word, In word (keyword_words tracked_sneaker) ->
       Classifier.substring word (Classifier.lower (Py.chars (name product))) = true) /\
    (sizes tracked_sneaker = [] \/
     exists s, In s (sizes tracked_sneaker) /\
       (is_all_sizes s = true \/
        exists a, In a (sizes_available product) /\
                  same_size (us_size s) (us_size a) = true)) /\
    (forall limit p, Detector.priced (max_price tracked_sneaker) = Some limit ->
                     Detector.priced (price product) = Some p -> (p <= limit)%Q).
Proof.
  split.
  - induction products as [|product rest IH]; [constructor|].
    rewrite matching_step. destruct (_ && _ && _); by constructor.
  - intros product.
    assert (Htest : forall q,
      name_matches tracked_sneaker q
      && (bool_decide (sizes tracked_sneaker = [])
          || size_match (sizes tracked_sneaker) (sizes_available q))
      && negb (over_price_limit tracked_sneaker q) = true <->
      (forall word, In word (keyword_words tracked_sneaker) ->
         Classifier.substring word (Classifier.lower (Py.chars (name q))) = true) /\
      (sizes tracked_sneaker = [] \/
       exists s, In s (sizes tracked_sneaker) /\
         (is_all_sizes s = true \/
          exists a, In a (sizes_available q) /\
                    same_size (us_size s) (us_size a) = true)) /\
      (forall limit p, Detector.priced (max_price tracked_sneaker) = Some limit ->
                       Detector.priced (price q) = Some p -> (p <= limit)%Q)).
    { intros q. rewrite !andb_true_iff, orb_true_iff, negb_true_iff.
      rewrite bool_decide_eq_true, size_match_true, over_price_limit_false.
      unfold name_matches. rewrite forallb_forall. tauto. }
    induction products as [|q rest IH]; [simpl; tauto|].
    rewrite matching_step.
    destruct (_ && _ && _) eqn:Hq.
    + cbn [In]. rewrite IH. split.
      * intros [<-|(Hin & H)]; [|by split; [right|]].
        split; [by left|]. by apply Htest.
      * intros ([<-|Hin] & H); [by left|]. right. by split.
    + rewrite IH. cbn [In]. split.
      * intros (Hin & H). by split; [right|].
      * intros ([<-|Hin] & H); [|by split].
        apply Htest in H. congruence.
Qed.

Lemma lower_space c : Py.is_space c = true -> Classifier.lower_char c = c.
Proof.
  unfold Py.is_space, Classifier.lower_char. cbv zeta.
  set (n := nat_of_ascii c). intros Hs.
  destruct ((65 <=? n)%nat && (n <=? 90)%nat) eqn:Hup; [|done].
  apply andb_true_iff in Hup as [H1 H2].
  apply Nat.leb_le in H1, H2.
  apply orb_true_iff in Hs as [Hs|Hs]; apply andb_true_iff in Hs as [H3 H4];
    apply Nat.leb_le in H3, H4; lia.
Qed.

Lemma split_blank l :
  Forall (fun c => Py.is_space c = true) l -> split l = [].
Proof.
  unfold split. induction 1 as [|c l Hc _ IH]; simpl; [done|]. by rewrite Hc.
Qed.

(** X18. A tracked sneaker whose keyword is empty or white space only,
    with no size and no price limit, matches every product: the test on
    the name asks for each word of the keyword and there is none. *)
Theorem blank_keyword_matches_everything
    (tracked_sneaker : TrackedSneaker) (products : list SneakerProduct) :
  Forall (fun c => Py.is_space c = true) (Py.chars (keyword tracked_sneaker)) ->
  sizes tracked_sneaker = [] ->
  max_price tracked_sneaker = None ->
  _find_matching_products tracked_sneaker products = products.
Proof.
  intros Hblank Hsizes Hlimit.
  assert (Hwords : keyword_words tracked_sneaker = []).
  { unfold keyword_words. apply split_blank. unfold Classifier.lower.
    apply List.Forall_forall. intros c Hin.
    apply in_map_iff in Hin as (c' & <- & Hin').
    rewrite List.Forall_forall in Hblank. specialize (Hblank c' Hin').
    by rewrite (lower_space c' Hblank). }
  induction products as [|product rest IH]; [done|].
  rewrite matching_step. unfold name_matches, over_price_limit.
  rewrite Hwords, Hsizes, Hlimit. cbn. by rewrite IH.
Qed.

(** The theorem at a keyword of two spaces. *)
Lemma blank_keyword_matches_everything_witness :
  _find_matching_products
    {| user_telegram_id := 42; keyword := "  "; sizes := []; max_price := None;
       is_active := true |} [panda_offer]
  = [panda_offer].
Proof.
  apply blank_keyword_matches_everything; [|reflexivity|reflexivity].
  repeat constructor.
Defined.

Lemma group_fold kw (l : list TrackedSneaker) : forall grouped,
  fold_left add_to_group l grouped !! kw =
  match List.filter (fun t => String.eqb (lower_string (keyword t)) kw) l with
  | [] => grouped !! kw
  | added => Some (default [] (grouped !! kw) ++ added)
  end.
Proof.
  induction l as [|t l IH]; intros grouped; simpl; [done|].
  rewrite IH. unfold add_to_group.
  destruct (String.eqb (lower_string (keyword t)) kw) eqn:Heq.
  - apply String.eqb_eq in Heq. rewrite Heq, lookup_insert_eq. cbn [default from_option id].
    destruct (List.filter _ l) as [|x added]; [done|].
    by rewrite <- app_assoc.
  - apply String.eqb_neq in Heq. by rewrite lookup_insert_ne.
Qed.

(** X19. [_get_grouped_tracked_sneakers] files, under each keyword in
    lower case, the active tracked sneakers with that keyword up to
    case, all of them and in the order of the collection; a keyword
    that no active tracked sneaker has is not a key, so no group is
    empty. *)
Theorem grouped_by_lowered_keyword (tracked_sneakers : list TrackedSneaker) (kw : string) :
  _get_grouped_tracked_sneakers tracked_sneakers !! kw =
  match List.filter (fun t => is_active t && String.eqb (lower_string (keyword t)) kw)
                    tracked_sneakers with
  | [] => None
  | group => Some group
  end.
Proof.
  unfold _get_grouped_tracked_sneakers. rewrite group_fold, lookup_empty.
  cbn [default from_option id app].
  assert (Hfilter : List.filter (fun t => String.eqb (lower_string (keyword t)) kw)
                      (List.filter is_active tracked_sneakers)
                    = List.filter (fun t => is_active t
                                            && String.eqb (lower_string (keyword t)) kw)
                        tracked_sneakers).
  { induction tracked_sneakers as [|t l IH]; simpl; [done|].
    destruct (is_active t); simpl; [|done].
    destruct (String.eqb _ kw); by rewrite IH. }
  by rewrite Hfilter.
Qed.

End TrackingFacts.

(** ** The monthly quota of alerts *)

Section QuotaFacts.
Import Quota.
Local Open Scope Z_scope.

(** One alert for a user who passes [can_send_alert]. *)
Lemma send_alert_counted db d user :
  get_user db (Engine.user_telegram_id (alert d)) = Some user ->
  (can_send_alert user (now d) (current_month d) 5).2 = true ->
  went_out d = true ->
  is_alert_type (Engine.type (alert d)) = true ->
  (_send_alert db d).2 = true /\
  get_user (_send_alert db d).1 (Engine.user_telegram_id (alert d))
  = Some (count_alert user).
Proof.
  intros Huser Hcan Hout Htype. unfold _send_alert.
  rewrite Huser, Hcan, Hout, Htype. cbn [negb fst snd].
  split; [done|]. unfold get_user, create_alert. cbn [users].
  unfold get_user in Huser. by rewrite lookup_alter_eq, Huser.
Qed.

Lemma send_alert_refused db d user :
  get_user db (Engine.user_telegram_id (alert d)) = Some user ->
  (can_send_alert user (now d) (current_month d) 5).2 = false ->
  _send_alert db d = (db, false).
Proof. intros Huser Hcan. unfold _send_alert. by rewrite Huser, Hcan. Qed.

Lemma reset_allows user t current_month' :
  alerts_reset_date user < current_month' ->
  (can_send_alert user t current_month' 5).2 = true.
Proof.
  intros Hreset. unfold can_send_alert.
  destruct (is_premium user t); [done|].
  apply Z.ltb_lt in Hreset. by rewrite Hreset.
Qed.

(** X20. Alerts for a user whose stored reset date lies before the
    first-of-month reading of each check all go out, whatever the tier
    and however many were sent before: [can_send_alert] resets the
    count on the user object it is called on, the reset is not saved,
    and [create_alert] only adds to the stored count, which so passes
    any limit. *)
Theorem quota_lapses_after_reset_date
    (db : store) (id : Z) (user : User) (ds : list delivery) :
  get_user db id = Some user ->
  Forall (fun d => Engine.user_telegram_id (alert d) = id /\
                   alerts_reset_date user < current_month d /\
                   went_out d = true /\
                   is_alert_type (Engine.type (alert d)) = true) ds ->
  (process_alerts db ds).2 = List.map alert ds /\
  exists user', get_user (process_alerts db ds).1 id = Some user' /\
    alerts_sent_this_month user'
    = alerts_sent_this_month user + Z.of_nat (length ds) /\
    alerts_reset_date user' = alerts_reset_date user /\
    tier user' = tier user.
Proof.
  revert db user.
  induction ds as [|d ds IH]; intros db user Huser Hall.
  - simpl. split; [done|]. exists user. split; [done|]. split; [lia|done].
  - inversion Hall as [|? ? (Hid & Hreset & Hout & Htype) Hall']; subst.
    destruct (send_alert_counted db d user Huser
                (reset_allows user _ _ Hreset) Hout Htype) as [Hsent Hget].
    cbn [process_alerts].
    destruct (_send_alert db d) as [db' sent] eqn:Hsend. cbn [fst snd] in *.
    destruct (IH db' (count_alert user) Hget Hall') as (Hlist & user' & Hu' & Hn & Hr & Ht).
    destruct (process_alerts db' ds) as [db'' out]. cbn [fst snd] in *.
    rewrite Hsent, Hlist. split; [done|].
    exists user'. split; [done|]. split; [|done].
    rewrite Hn. cbn [count_alert alerts_sent_this_month length]. lia.
Qed.

Lemma free_not_premium user t : tier user = FREE -> is_premium user t = false.
Proof. intros Hfree. unfold is_premium. by rewrite Hfree. Qed.

Lemma no_reset_counts user t current_month' :
  tier user = FREE -> current_month' <= alerts_reset_date user ->
  (can_send_alert user t current_month' 5).2
  = (alerts_sent_this_month user <? 5).
Proof.
  intros Hfree Hkeep. unfold can_send_alert.
  rewrite free_not_premium by done.
  assert ((alerts_reset_date user <? current_month') = false) as ->; [|done].
  apply Z.ltb_ge. lia.
Qed.

(** X21. While the first-of-month reading of the checks does not pass
    the stored reset date, the alerts that go out to a free user number
    at most 5 less the stored count, and the stored count does not grow
    beyond 5 unless it was already there. *)
Theorem quota_binds_until_reset_date
    (db : store) (id : Z) (user : User) (ds : list delivery) :
  get_user db id = Some user ->
  tier user = FREE ->
  Forall (fun d => Engine.user_telegram_id (alert d) = id /\
                   current_month d <= alerts_reset_date user /\
                   is_alert_type (Engine.type (alert d)) = true) ds ->
  Z.of_nat (length (process_alerts db ds).2)
  <= Z.max 0 (5 - alerts_sent_this_month user) /\
  exists user', get_user (process_alerts db ds).1 id = Some user' /\
    alerts_sent_this_month user'
    = alerts_sent_this_month user + Z.of_nat (length (process_alerts db ds).2) /\
    alerts_sent_this_month user' <= Z.max 5 (alerts_sent_this_month user).
Proof.
  revert db user.
  induction ds as [|d ds IH]; intros db user Huser Hfree Hall.
  - simpl. split; [lia|]. exists user. split; [done|]. lia.
  - inversion Hall as [|? ? (Hid & Hkeep & Htype) Hall']; subst.
    pose proof (no_reset_counts user (now d) _ Hfree Hkeep) as Hcan.
    cbn [process_alerts].
    destruct (alerts_sent_this_month user <? 5) eqn:Hroom.
    + apply Z.ltb_lt in Hroom.
      destruct (went_out d) eqn:Hout.
      * destruct (send_alert_counted db d user Huser Hcan Hout Htype) as [Hsent Hget].
        destruct (_send_alert db d) as [db' sent] eqn:Hsend. cbn [fst snd] in *.
        destruct (IH db' (count_alert user) Hget Hfree Hall')
          as (Hlen & user' & Hu' & Hn & Hle).
        destruct (process_alerts db' ds) as [db'' out]. cbn [fst snd] in *.
        rewrite Hsent. cbn [length count_alert alerts_sent_this_month] in *.
        split; [lia|]. exists user'. split; [done|]. lia.
      * assert (Hsend : _send_alert db d = (db, false)).
        { unfold _send_alert. by rewrite Huser, Hcan, Hout. }
        rewrite Hsend.
        destruct (IH db user Huser Hfree Hall') as (Hlen & user' & Hu' & Hn & Hle).
        destruct (process_alerts db ds) as [db'' out]. cbn [fst snd] in *.
        split; [done|]. by exists user'.
    + rewrite (send_alert_refused db d user Huser Hcan).
      destruct (IH db user Huser Hfree Hall') as (Hlen & user' & Hu' & Hn & Hle).
      destruct (process_alerts db ds) as [db'' out]. cbn [fst snd] in *.
      split; [done|]. by exists user'.
Qed.


(** X28. [create_user] and [get_user].  After [create_user] the user
    it returns is the one [get_user] finds, and the other users are as
    before.  For an id that was stored, the store is unchanged and the
    stored user comes back with its tier and its count; for a new id
    the user is free, with no alert counted and the reset date of the
    call, and passes [can_send_alert] at once under any positive
    limit. *)
Theorem create_user_then_get (db : store) (id : Z) (first_of_month : datetime) :
  ((create_user db id first_of_month).2 <> None) /\
  (get_user (create_user db id first_of_month).1 id
   = (create_user db id first_of_month).2) /\
  (forall other, other <> id ->
     get_user (create_user db id first_of_month).1 other = get_user db other) /\
  (forall user, get_user db id = Some user ->
     create_user db id first_of_month = (db, Some user)) /\
  (get_user db id = None ->
   exists user, (create_user db id first_of_month).2 = Some user /\
     telegram_id user = id /\ tier user = FREE /\
     alerts_sent_this_month user = 0 /\
     alerts_reset_date user = first_of_month /\
     forall t current_month' limit, 0 < limit ->
       (can_send_alert user t current_month' limit).2 = true).
Proof.
  unfold create_user. destruct (get_user db id) as [user|] eqn:Huser.
  - cbn [fst snd]. split; [done|]. split; [done|]. split; [done|].
    split; [by intros ? [= ->]|done].
  - cbn [fst snd]. unfold get_user in *. cbn [users].
    split; [done|]. split; [by rewrite lookup_insert_eq|].
    split; [intros other Hne; by rewrite lookup_insert_ne|].
    split; [done|]. intros _. eexists. split; [reflexivity|].
    cbn [telegram_id tier alerts_sent_this_month alerts_reset_date].
    split; [done|]. split; [done|]. split; [done|]. split; [done|].
    intros t cm limit Hlimit. unfold can_send_alert, is_premium.
    cbn [tier alerts_reset_date alerts_sent_this_month].
    destruct (first_of_month <? cm); cbn [snd alerts_sent_this_month];
      by apply Z.ltb_lt.
Qed.

(** The quota at a user created on a 15th at 10:00, whose reset date is
    the first of that month at 10:00, with 7 alerts counted: two alerts
    checked at 11:00, whose first-of-month reading is the first at
    11:00, both go out. *)
Lemma quota_lapses_after_reset_date_witness :
  (process_alerts
     {| users := {[ 42 := {| telegram_id := 42; tier := FREE;
                             subscription_expires_at := None;
                             alerts_sent_this_month := 7;
                             alerts_reset_date := hours 10;
                             tracked_sneakers := [] |} ]};
        alerts := [] |}
     [ {| alert := Engine.restock_for 42; now := hours (24 * 14 + 11);
          current_month := hours 11; went_out := true |};
       {| alert := Engine.restock_for 42; now := hours (24 * 14 + 11);
          current_month := hours 11; went_out := true |} ]).2
  = [Engine.restock_for 42; Engine.restock_for 42].
Proof.
  refine (proj1 (quota_lapses_after_reset_date _ 42
    {| telegram_id := 42; tier := FREE; subscription_expires_at := None;
       alerts_sent_this_month := 7; alerts_reset_date := hours 10;
       tracked_sneakers := [] |} _ _ _)).
  - reflexivity.
  - repeat constructor.
Defined.

(** The quota at a user with 4 alerts counted and three alerts checked
    at readings that do not pass the reset date: one goes out. *)
Lemma quota_binds_until_reset_date_witness :
  Z.of_nat (length (process_alerts
     {| users := {[ 42 := {| telegram_id := 42; tier := FREE;
                             subscription_expires_at := None;
                             alerts_sent_this_month := 4;
                             alerts_reset_date := hours 10;
                             tracked_sneakers := [] |} ]};
        alerts := [] |}
     [ {| alert := Engine.restock_for 42; now := hours (24 * 14 + 9);
          current_month := hours 9; went_out := true |};
       {| alert := Engine.restock_for 42; now := hours (24 * 14 + 9);
          current_month := hours 9; went_out := true |};
       {| alert := Engine.restock_for 42; now := hours (24 * 14 + 9);
          current_month := hours 9; went_out := true |} ]).2)
  <= Z.max 0 (5 - 4).
Proof.
  refine (proj1 (quota_binds_until_reset_date _ 42
    {| telegram_id := 42; tier := FREE; subscription_expires_at := None;
       alerts_sent_this_month := 4; alerts_reset_date := hours 10;
       tracked_sneakers := [] |} _ _ _ _)).
  - reflexivity.
  - reflexivity.
  - repeat (constructor;
            [split; [reflexivity|split; [vm_compute; discriminate|reflexivity]]|]).
    constructor.
Defined.

End QuotaFacts.

(** ** Counters and intervals of the manager *)

Section ManagerFacts.
Import Detector Manager.
Local Open Scope Z_scope.

Lemma rate_lt s t a b :
  0 < t -> (inject_Z s / inject_Z t < a # b)%Q <-> s * Z.pos b < a * t.
Proof.
  intros Ht.
  assert (Ht' : (0 < inject_Z t)%Q) by (unfold Qlt; simpl; lia).
  assert (Hs : (inject_Z s == inject_Z s / inject_Z t * inject_Z t)%Q) by (field; lra).
  split.
  - intros H. apply (Qmult_lt_compat_r _ _ (inject_Z t)) in H; [|done].
    rewrite <- Hs in H. unfold Qlt in H. simpl in H. lia.
  - intros H. apply (Qmult_lt_r _ _ (inject_Z t)); [done|].
    rewrite <- Hs. unfold Qlt. simpl. lia.
Qed.

Lemma rate_gt s t a b :
  0 < t -> (a # b < inject_Z s / inject_Z t)%Q <-> a * t < s * Z.pos b.
Proof.
  intros Ht.
  assert (Ht' : (0 < inject_Z t)%Q) by (unfold Qlt; simpl; lia).
  assert (Hs : (inject_Z s == inject_Z s / inject_Z t * inject_Z t)%Q) by (field; lra).
  split.
  - intros H. apply (Qmult_lt_compat_r _ _ (inject_Z t)) in H; [|done].
    rewrite <- Hs in H. unfold Qlt in H. simpl in H. lia.
  - intros H. apply (Qmult_lt_r _ _ (inject_Z t)); [done|].
    rewrite <- Hs. unfold Qlt. simpl. lia.
Qed.

Lemma interval_grown i :
  5 <= i <= 60 ->
  let grown := (inject_Z i * (15 # 10))%Q in
  let n := py_int (if Qlt_le_dec 60 grown then 60%Q else grown) in
  n = Z.min (3 * i / 2) 60 /\ i <= n <= 60.
Proof.
  intros Hi grown n. subst n grown.
  destruct (Qlt_le_dec _ _) as [H|H]; unfold Qlt, Qle in H; simpl in H;
    unfold py_int, Qmult, inject_Z; cbn [Qnum Qden];
    change (Z.pos (1 * 10)) with 10 in *.
  - change (60 ÷ 1) with 60.
    assert (60 <= 3 * i / 2) by (apply Z.div_le_lower_bound; lia). lia.
  - rewrite Z.quot_div_nonneg by lia.
    assert (i * 15 / 10 = 3 * i / 2) as ->.
    { rewrite <- (Z.div_mul_cancel_r (3 * i) 2 5) by lia. f_equal; lia. }
    assert (3 * i / 2 <= 60) by (apply Z.div_le_upper_bound; lia).
    assert (i <= 3 * i / 2) by (apply Z.div_le_lower_bound; lia).
    lia.
Qed.

Lemma interval_shrunk i :
  5 <= i <= 60 ->
  let shrunk := (inject_Z i * (8 # 10))%Q in
  let n := py_int (if Qlt_le_dec shrunk 5 then 5%Q else shrunk) in
  n = Z.max (4 * i / 5) 5 /\ 5 <= n <= i.
Proof.
  intros Hi shrunk n. subst n shrunk.
  destruct (Qlt_le_dec _ _) as [H|H]; unfold Qlt, Qle in H; simpl in H;
    unfold py_int, Qmult, inject_Z; cbn [Qnum Qden];
    change (Z.pos (1 * 10)) with 10 in *.
  - change (5 ÷ 1) with 5.
    assert (4 * i / 5 <= 5) by (apply Z.div_le_upper_bound; lia). lia.
  - rewrite Z.quot_div_nonneg by lia.
    assert (i * 8 / 10 = 4 * i / 5) as ->.
    { rewrite <- (Z.div_mul_cancel_r (4 * i) 5 2) by lia. f_equal; lia. }
    assert (5 <= 4 * i / 5) by (apply Z.div_le_lower_bound; lia).
    assert (4 * i / 5 <= i) by (apply Z.div_le_upper_bound; lia).
    lia.
Qed.

(** One turn of the loop, on a manager within bounds. *)
Lemma optimize_one_cases self retailer' current :
  scrape_intervals self !! retailer' = Some current ->
  5 <= current <= 60 ->
  let total := default 0 (total_requests self !! retailer') in
  let successful := default 0 (successful_requests self !! retailer') in
  exists new,
    optimize_one self retailer' = Some (with_interval self retailer' new) /\
    5 <= new <= 60 /\
    (total <= 10 -> new = current) /\
    (10 < total -> 10 * successful < 7 * total ->
       new = Z.min (3 * current / 2) 60 /\ current <= new) /\
    (10 < total -> 7 * total <= 10 * successful -> 95 * total < 100 * successful ->
       new = Z.max (4 * current / 5) 5 /\ new <= current) /\
    (10 < total -> 7 * total <= 10 * successful -> 100 * successful <= 95 * total ->
       new = current).
Proof.
  intros Hcur Hrange total successful.
  assert (Hsame : Some self = Some (with_interval self retailer' current)).
  { f_equal. unfold with_interval. rewrite (insert_id _ _ _ Hcur). by destruct self. }
  unfold optimize_one. fold total successful. rewrite Hcur.
  destruct (10 <? total) eqn:Hmany.
  - apply Z.ltb_lt in Hmany.
    destruct (Qlt_le_dec (inject_Z successful / inject_Z total) (7 # 10)) as [Hlow|Hlow].
    + apply (rate_lt successful total 7 10) in Hlow; [|lia].
      pose proof (interval_grown current Hrange) as Hg. cbv zeta in Hg.
      destruct Hg as [Hnew Hbounds].
      eexists. split; [reflexivity|]. split; [lia|].
      split; [lia|]. split; [intros _ _; split; [exact Hnew|lia]|].
      split; intros; lia.
    + assert (Hlow' : 7 * total <= successful * 10).
      { destruct (Z_lt_le_dec (successful * 10) (7 * total)) as [Hc|]; [|done].
        apply (rate_lt successful total 7 10) in Hc; [|lia].
        exfalso. by apply (Qlt_not_le _ _ Hc). }
      destruct (Qlt_le_dec (95 # 100) (inject_Z successful / inject_Z total))
        as [Hhigh|Hhigh].
      * apply (rate_gt successful total 95 100) in Hhigh; [|lia].
        pose proof (interval_shrunk current Hrange) as Hg. cbv zeta in Hg.
        destruct Hg as [Hnew Hbounds].
        eexists. split; [reflexivity|]. split; [lia|].
        split; [lia|]. split; [intros; lia|].
        split; [intros _ _ _; split; [exact Hnew|lia]|]. intros; lia.
      * assert (Hhigh' : successful * 100 <= 95 * total).
        { destruct (Z_lt_le_dec (95 * total) (successful * 100)) as [Hc|]; [|done].
          apply (rate_gt successful total 95 100) in Hc; [|lia].
          exfalso. by apply (Qlt_not_le _ _ Hc). }
        exists current. split; [done|]. split; [done|]. split; [done|].
        split; [intros; lia|]. split; [intros; lia|done].
  - apply Z.ltb_ge in Hmany. exists current. split; [done|]. split; [done|].
    split; [done|]. split; [intros; lia|]. split; intros; lia.
Qed.

Lemma with_interval_bounds self retailer' new :
  within_bounds self -> 5 <= new <= 60 ->
  within_bounds (with_interval self retailer' new).
Proof.
  intros Hb Hnew r. destruct (Hb r) as [Hcount (i & Hi & Hrange)].
  split; [done|]. unfold with_interval. cbn [scrape_intervals].
  destruct (decide (retailer' = r)) as [->|Hne].
  - exists new. by rewrite lookup_insert_eq.
  - exists i. by rewrite lookup_insert_ne.
Qed.

Lemma optimize_loop_bounds retailers : forall self,
  within_bounds self -> within_bounds (optimize_loop self retailers).
Proof.
  induction retailers as [|r rest IH]; intros self Hb; simpl; [done|].
  destruct (Hb r) as [_ (i & Hi & Hrange)].
  destruct (optimize_one_cases self r i Hi Hrange) as (new & -> & Hnew & _).
  apply IH. by apply with_interval_bounds.
Qed.

Lemma update_bounds self retailer' success :
  within_bounds self -> within_bounds (_update_scraper_metrics self retailer' success).
Proof.
  intros Hb r. destruct (Hb r) as [Hcount Hint].
  split; [|done]. unfold _update_scraper_metrics.
  cbn [total_requests successful_requests].
  destruct (decide (retailer' = r)) as [->|Hne].
  - rewrite !lookup_insert_eq. cbn [default from_option id].
    destruct success; lia.
  - by rewrite !lookup_insert_ne.
Qed.

Lemma init_bounds : within_bounds init.
Proof.
  intros r. split; [by cbn|].
  destruct r;
    [exists 8|exists 8|exists 12|exists 12|exists 15|exists 15|exists 20];
    (split; [reflexivity|lia]).
Qed.

(** X23. Whatever searches are counted and however often the intervals
    are optimized, from the start on every retailer has no more
    successes than requests and a scraping interval between 5 and 60
    minutes. *)
Theorem manager_stays_within_bounds (actions : list action) :
  within_bounds (fold_left act actions init).
Proof.
  assert (H : forall self, within_bounds self ->
                           within_bounds (fold_left act actions self)).
  { induction actions as [|a actions IH]; intros self Hb; simpl; [done|].
    apply IH. destruct a as [r success|]; simpl.
    - by apply update_bounds.
    - by apply optimize_loop_bounds. }
  apply H, init_bounds.
Qed.

(** X24. One turn of [optimize_scraping_intervals] for a retailer whose
    interval lies between 5 and 60 minutes never raises and writes
    nothing but that interval.  With 10 requests or fewer the interval
    stays; with more and under 70 percent of successes it grows to one
    and a half times itself, rounded down and capped at 60; with more
    than 95 percent it shrinks to four fifths, rounded down and not
    under 5; in between it stays. *)
Theorem interval_follows_success_rate
    (self : manager) (retailer' : Retailer) (current : Z) :
  scrape_intervals self !! retailer' = Some current ->
  5 <= current <= 60 ->
  let total := default 0 (total_requests self !! retailer') in
  let successful := default 0 (successful_requests self !! retailer') in
  exists new,
    optimize_one self retailer' = Some (with_interval self retailer' new) /\
    5 <= new <= 60 /\
    (total <= 10 -> new = current) /\
    (10 < total -> 10 * successful < 7 * total ->
       new = Z.min (3 * current / 2) 60 /\ current <= new) /\
    (10 < total -> 7 * total <= 10 * successful -> 95 * total < 100 * successful ->
       new = Z.max (4 * current / 5) 5 /\ new <= current) /\
    (10 < total -> 7 * total <= 10 * successful -> 100 * successful <= 95 * total ->
       new = current).
Proof. apply optimize_one_cases. Qed.

(** The theorem at NIKE after 11 searches of which 7 succeeded: the
    interval of 8 minutes grows to 12. *)
Lemma interval_follows_success_rate_witness :
  optimize_one
    {| scrape_intervals := scrape_intervals init;
       total_requests := {[ NIKE := 11 ]};
       successful_requests := {[ NIKE := 7 ]} |} NIKE
  = Some (with_interval
            {| scrape_intervals := scrape_intervals init;
               total_requests := {[ NIKE := 11 ]};
               successful_requests := {[ NIKE := 7 ]} |} NIKE 12).
Proof.
  destruct (interval_follows_success_rate
              {| scrape_intervals := scrape_intervals init;
                 total_requests := {[ NIKE := 11 ]};
                 successful_requests := {[ NIKE := 7 ]} |} NIKE 8)
    as (new & -> & _ & _ & Hgrow & _); [reflexivity|lia|].
  destruct Hgrow as [-> _]; [reflexivity|reflexivity|]. reflexivity.
Defined.

End ManagerFacts.

(** ** The summary of the health of the scrapers *)

Section SummaryFacts.
Import Health Summary.
Local Open Scope Z_scope.

Lemma count_cons s m (values : list ScraperHealthMetrics) :
  count s (m :: values) = (if has_status s m then 1 else 0) + count s values.
Proof.
  unfold count. simpl. destruct (has_status s m); simpl length; lia.
Qed.

Lemma counts_add_up (values : list ScraperHealthMetrics) :
  count HEALTHY values + count WARNING values + count CRITICAL values
  + count DOWN values = Z.of_nat (length values).
Proof.
  induction values as [|m values IH]; [done|].
  rewrite !count_cons. unfold has_status.
  destruct (status m); simpl length; lia.
Qed.

Lemma count_nonneg s (values : list ScraperHealthMetrics) : 0 <= count s values.
Proof. unfold count. lia. Qed.

(** X25. [get_health_summary] answers that there is no data exactly
    when no metrics are held.  Otherwise the four counts add up to the
    number of scrapers; the overall status is critical exactly when a
    scraper is down or more than half are critical, healthy exactly
    when none is down, none is critical and at most half warn, and
    never down; so an overall healthy status leaves at least half of
    the scrapers healthy. *)
Theorem health_summary_counts (health_metrics : gmap string ScraperHealthMetrics) :
  (get_health_summary health_metrics = None <-> health_metrics = ∅) /\
  forall s, get_health_summary health_metrics = Some s ->
    total_scrapers s = Z.of_nat (size health_metrics) /\
    0 < total_scrapers s /\
    healthy s + warning s + critical s + down s = total_scrapers s /\
    0 <= healthy s /\ 0 <= warning s /\ 0 <= critical s /\ 0 <= down s /\
    (overall_status s = CRITICAL <->
     0 < down s \/ total_scrapers s < 2 * critical s) /\
    (overall_status s = HEALTHY <->
     down s = 0 /\ critical s = 0 /\ 2 * warning s <= total_scrapers s) /\
    overall_status s <> DOWN /\
    (overall_status s = HEALTHY -> total_scrapers s <= 2 * healthy s).
Proof.
  unfold get_health_summary.
  assert (Hlen : length (map_to_list health_metrics).*2 = size health_metrics).
  { by rewrite length_fmap, length_map_to_list. }
  pose proof (counts_add_up (map_to_list health_metrics).*2) as Hsum.
  pose proof (count_nonneg HEALTHY (map_to_list health_metrics).*2) as Hh.
  pose proof (count_nonneg WARNING (map_to_list health_metrics).*2) as Hw.
  pose proof (count_nonneg CRITICAL (map_to_list health_metrics).*2) as Hc.
  pose proof (count_nonneg DOWN (map_to_list health_metrics).*2) as Hd.
  set (values := (map_to_list health_metrics).*2) in *.
  split.
  - destruct values as [|m values'] eqn:Hv.
    + split; [|done]. intros _. apply map_size_empty_iff. by rewrite <- Hlen.
    + split; [done|]. intros ->. by rewrite map_size_empty in Hlen.
  - intros s. destruct values as [|m values'] eqn:Hv; [done|].
    rewrite <- Hv in *. intros [= <-].
    cbn [total_scrapers healthy warning critical down overall_status].
    assert (Hpos : 0 < Z.of_nat (length values)) by (rewrite Hv; simpl; lia).
    split; [by rewrite Hlen|]. split; [done|]. split; [done|].
    split; [done|]. split; [done|]. split; [done|]. split; [done|].
    destruct (0 <? count DOWN values) eqn:Hdown;
      [apply Z.ltb_lt in Hdown|apply Z.ltb_ge in Hdown];
    (destruct (Z.of_nat (length values) <? 2 * count CRITICAL values) eqn:Hcrit;
      [apply Z.ltb_lt in Hcrit|apply Z.ltb_ge in Hcrit]);
    (destruct (0 <? count CRITICAL values) eqn:Hany;
      [apply Z.ltb_lt in Hany|apply Z.ltb_ge in Hany]);
    (destruct (Z.of_nat (length values) <? 2 * count WARNING values) eqn:Hwarn;
      [apply Z.ltb_lt in Hwarn|apply Z.ltb_ge in Hwarn]);
    cbn [orb];
    (split; [split; [intros; try discriminate; lia|intros; try done; lia]|]);
    (split; [split; [intros; try discriminate; lia|intros; try done; lia]|]);
    (split; [done|]); intros; try discriminate; lia.
Qed.

End SummaryFacts.

(** ** What the worker hands to the bot *)

Section DispatchFacts.
Import Engine.
Local Open Scope Z_scope.

Lemma send_alert_extends out a user_can_receive went_out t :
  _send_alert out a user_can_receive went_out t = out \/
  _send_alert out a user_can_receive went_out t = out ++ [(a, t)].
Proof.
  unfold _send_alert. destruct user_can_receive, went_out; cbn; auto.
Qed.

Lemma run_dispatch evs : forall e e',
  sublist (List.map fst (dispatched e)) (taken e) ->
  run e evs = Some e' ->
  sublist (List.map fst (dispatched e')) (taken e') /\
  (length (taken e) <= length (taken e'))%nat /\
  exists later, taken e' = taken e ++ later.
Proof.
  induction evs as [|ev evs IH]; intros e e' Hsub; simpl.
  - intros [= <-]. split; [done|]. split; [lia|]. exists []. by rewrite app_nil_r.
  - destruct (step e ev) as [e1|] eqn:Hstep; [|done]. intros Hrun.
    assert (H1 : sublist (List.map fst (dispatched e1)) (taken e1) /\
                 exists later, taken e1 = taken e ++ later).
    { destruct ev as [alerts|can went t]; simpl in Hstep.
      - destruct (put_all (alert_queue e) alerts); [|done].
        injection Hstep as <-. cbn [dispatched taken].
        split; [done|]. exists []. by rewrite app_nil_r.
      - destruct (get (alert_queue e)) as [[a q]|]; injection Hstep as <-.
        + cbn [dispatched taken]. split; [|by exists [a]].
          destruct (send_alert_extends (dispatched e) a can went t) as [->| ->].
          * by apply sublist_inserts_r.
          * rewrite map_app. cbn [List.map fst]. by apply sublist_app.
        + split; [done|]. exists []. by rewrite app_nil_r. }
    destruct H1 as [Hsub1 (later1 & Ht1)].
    destruct (IH e1 e' Hsub1 Hrun) as (Hsub' & Hlen & later & Ht').
    split; [done|]. rewrite Ht1 in *. rewrite length_app in Hlen.
    split; [lia|]. exists (later1 ++ later). by rewrite Ht', app_assoc.
Qed.

(** X26. Whatever the producers and the worker do, the alerts handed to
    the bot are alerts the worker took from the queue, in the order it
    took them and each at most once, and what the worker has taken is
    never put back: an alert that is refused or fails to go out is
    gone. *)
Theorem dispatched_are_taken_once (evs later_evs : list event) (e e' : engine) :
  run init evs = Some e ->
  run e later_evs = Some e' ->
  sublist (List.map fst (dispatched e')) (taken e') /\
  (exists later, taken e' = taken e ++ later) /\
  taken e' ++ items (alert_queue e') = produced (evs ++ later_evs).
Proof.
  intros Hrun Hlater.
  destruct (run_dispatch evs init e) as (Hsub & _ & _); [constructor|done|].
  destruct (run_dispatch later_evs e e' Hsub Hlater) as (Hsub' & _ & Hlater').
  split; [done|]. split; [done|].
  assert (Hall : run init (evs ++ later_evs) = Some e').
  { clear Hsub Hsub' Hlater'. revert Hrun. generalize init.
    induction evs as [|ev evs IH]; intros e0; simpl.
    - by intros [= ->].
    - destruct (step e0 ev); [apply IH|done]. }
  destruct (run_unbounded (evs ++ later_evs) init) as (e2 & Hrun2 & Hfifo); [done|].
  rewrite Hall in Hrun2. injection Hrun2 as <-. exact Hfifo.
Qed.

(** The theorem at two alerts of which the worker takes the first, for a
    user who cannot receive it, and then the second. *)
Lemma dispatched_are_taken_once_witness :
  exists e e',
    run init [Produce [restock_for 1; restock_for 2]; Consume false true 0] = Some e /\
    run e [Consume true true (seconds 1)] = Some e' /\
    List.map fst (dispatched e') = [restock_for 2] /\
    taken e' = [restock_for 1; restock_for 2] /\
    sublist (List.map fst (dispatched e')) (taken e').
Proof.
  eexists. eexists.
  split; [reflexivity|]. split; [reflexivity|].
  split; [reflexivity|]. split; [reflexivity|].
  refine (proj1 (dispatched_are_taken_once
            [Produce [restock_for 1; restock_for 2]; Consume false true 0]
            [Consume true true (seconds 1)] _ _ _ _)); reflexivity.
Defined.

End DispatchFacts.

(** ** The count an alert loop returns *)

Section CountFacts.
Import Sender Logged.
Local Open Scope Z_scope.

(** One turn of the loop: the alert did not go out; or it went out and
    was logged; or it went out and the write to the history raised. *)
Lemma send_to_logs premium_only kind name self r :
  (send_to premium_only kind name self r = (self, false)) \/
  (exists a, send_to premium_only kind name self r
             = ({| alert_cooldown := alert_cooldown self;
                   history := a :: history self |}, true) /\
             logged_for premium_only kind name [r] a) \/
  (send_to premium_only kind name self r = (self, true) /\ log_ok r = false).
Proof.
  unfold send_to.
  destruct (premium_only && negb (is_premium r)) eqn:Hprem; [by left|].
  destruct (can_send r) eqn:Hcan; [|by left]. cbn [negb].
  destruct (_is_in_cooldown self (lookup_ok r) (t_check r) (user r) name kind);
    [by left|].
  destruct (delivered r) eqn:Hdel; [|by left]. cbn [negb].
  unfold _log_alert. destruct (log_ok r) eqn:Hlog; [|right; by right].
  right. left. eexists. split; [reflexivity|].
  split; [done|]. split; [done|]. exists r. split; [by left|].
  split; [done|]. split; [done|]. split; [done|]. split; [done|]. split; [done|].
  intros ->. by destruct (is_premium r).
Qed.

Lemma logged_for_more premium_only kind name users users' a :
  (forall r, In r users -> In r users') ->
  logged_for premium_only kind name users a ->
  logged_for premium_only kind name users' a.
Proof.
  intros Hincl (Hn & Hk & r & Hin & H). split; [done|]. split; [done|].
  exists r. split; [by apply Hincl|done].
Qed.


End CountFacts.
